(** * Minion firmware control layer: light-ring safety controller,
      recovery transmission retry, temperature/pressure sampling.

    Shallow embedding of
    - [minion_hat_gpio.py]  (light-ring controller),        [Module LightRing]
    - [recovery.py]         (GPS / satellite retry logic),  [Module Recovery]
    - [tp.py], [sensors/kellerLD.py] (sensor sampling),     [Module TempPressure]
    and the properties of the specification stated over it. *)

From Stdlib Require Import ZArith List Bool Lia String.
From Stdlib Require DecimalString HexadecimalString.
Import ListNotations.
Open Scope Z_scope.

(** ** Python outcomes shared by the three modules *)

(** The exception classes the modelled code can meet.  [OSError] stands for the
    class and its subclasses (an [except OSError] clause catches them all);
    [OtherError] is any exception outside the listed classes. *)
Inductive exn : Type :=
| OSError
| TypeError
| ValueError
| AttributeError
| IndexError
| OverflowError
| OtherError (tag : nat).

(** What a call does: it returns a value or raises. *)
Inductive outcome (A : Type) : Type :=
| Returns (a : A)
| Raises (e : exn).
Arguments Returns {A} a.
Arguments Raises {A} e.

(** Logging levels of the [logging] module that the code uses. *)
Inductive log_level : Type := DEBUG | INFO | WARNING | ERROR.

(* ====================================================================== *)
(** ** Light-ring controller ([minion_hat_gpio.py]) *)
(* ====================================================================== *)

Module LightRing.

(** Timers are Python floats counting seconds, only ever changed by
    [+= LIGHT_RING_REFRESH_DELAY] (0.5) or reset to [0]; such values are exact
    binary fractions, so the model counts them in milliseconds in [Z].  The
    flash on/off times are milliseconds in the source already. *)
Definition LIGHT_RING_MAX_ON_TIME : Z := 60 * 1000.
Definition LIGHT_RING_MIN_OFF_TIME : Z := 5 * 1000.
Definition LIGHT_RING_REFRESH_DELAY : Z := 500.

Definition LED_RING : Z := 13.

Inductive level : Type := LOW | HIGH.

Definition level_of (new_state : bool) : level :=
  if new_state then HIGH else LOW.

(** The messages handed to [logger]. *)
Inductive message : Type :=
| NoChangeInState (new_state : bool)
| MinOffTimeNotMet
| NewFlashCommand
| MaxOnTimeReached.

(** Observable effects, in program order. *)
Inductive event : Type :=
| Output (pin : Z) (l : level)      (* GPIO.output(pin, l) *)
| Sleep (ms : Z)                    (* sleep(ms / 1000)    *)
| Log (lvl : log_level) (m : message).

(** The module-level variables of the singleton, and the level last written
    to the [LED_RING] pin. *)
Record RingState : Type := mkRing {
  ring_state : bool;
  ring_on_time : Z;
  ring_off_time : Z;
  ring_flashing : bool;
  ring_flash_count : Z;
  ring_flash_on_time : Z;
  ring_flash_off_time : Z;
  ring_alive : bool;
  flash_counter : Z;
  led_ring : level
}.

Definition initial_state : RingState :=
  {| ring_state := false;
     ring_on_time := 0;
     ring_off_time := LIGHT_RING_MIN_OFF_TIME;
     ring_flashing := false;
     ring_flash_count := 0;
     ring_flash_on_time := 250;
     ring_flash_off_time := 250;
     ring_alive := false;
     flash_counter := 0;
     led_ring := LOW |}.

(** *** Assignments to single variables *)

Definition set_ring_state (v : bool) (s : RingState) : RingState :=
  mkRing v (ring_on_time s) (ring_off_time s) (ring_flashing s)
         (ring_flash_count s) (ring_flash_on_time s) (ring_flash_off_time s)
         (ring_alive s) (flash_counter s) (led_ring s).

Definition set_timers (on off : Z) (s : RingState) : RingState :=
  mkRing (ring_state s) on off (ring_flashing s)
         (ring_flash_count s) (ring_flash_on_time s) (ring_flash_off_time s)
         (ring_alive s) (flash_counter s) (led_ring s).

Definition set_ring_flashing (v : bool) (s : RingState) : RingState :=
  mkRing (ring_state s) (ring_on_time s) (ring_off_time s) v
         (ring_flash_count s) (ring_flash_on_time s) (ring_flash_off_time s)
         (ring_alive s) (flash_counter s) (led_ring s).

Definition set_flash_params (count time_on time_off : Z) (s : RingState)
  : RingState :=
  mkRing (ring_state s) (ring_on_time s) (ring_off_time s) (ring_flashing s)
         count time_on time_off
         (ring_alive s) (flash_counter s) (led_ring s).

Definition set_ring_alive (v : bool) (s : RingState) : RingState :=
  mkRing (ring_state s) (ring_on_time s) (ring_off_time s) (ring_flashing s)
         (ring_flash_count s) (ring_flash_on_time s) (ring_flash_off_time s)
         v (flash_counter s) (led_ring s).

Definition set_flash_counter (v : Z) (s : RingState) : RingState :=
  mkRing (ring_state s) (ring_on_time s) (ring_off_time s) (ring_flashing s)
         (ring_flash_count s) (ring_flash_on_time s) (ring_flash_off_time s)
         (ring_alive s) v (led_ring s).

Definition set_led_ring (l : level) (s : RingState) : RingState :=
  mkRing (ring_state s) (ring_on_time s) (ring_off_time s) (ring_flashing s)
         (ring_flash_count s) (ring_flash_on_time s) (ring_flash_off_time s)
         (ring_alive s) (flash_counter s) l.

(** *** The functions of the module *)

(** [light_ring_open_thread]: marks the thread alive and starts it; from then
    on the loop body below is scheduled. *)
Definition light_ring_open_thread (s : RingState) : RingState :=
  set_ring_alive true s.

(** [light_ring_set(new_state)]. *)
Definition light_ring_set (new_state : bool) (s : RingState)
  : list event * RingState :=
  if Bool.eqb (ring_state s) new_state then
    ([Log DEBUG (NoChangeInState new_state)], s)
  else if new_state && (ring_off_time s <? LIGHT_RING_MIN_OFF_TIME) then
    ([Log WARNING MinOffTimeNotMet], s)
  else
    let s1 := if negb (ring_alive s) then light_ring_open_thread s else s in
    ([Output LED_RING (level_of new_state)],
     set_ring_state new_state (set_led_ring (level_of new_state) s1)).

(** [light_ring_flash_set(count, time_on, time_off)]. *)
Definition light_ring_flash_set (count time_on time_off : Z) (s : RingState)
  : list event * RingState :=
  let '(e1, s1) :=
    if ring_flashing s
    then ([Log INFO NewFlashCommand], set_ring_flashing false s)
    else ([], s) in
  let s2 := set_flash_params count time_on time_off s1 in
  let s3 := set_flash_counter 0 s2 in
  let s4 := set_ring_flashing true s3 in
  let s5 := if negb (ring_alive s4) then light_ring_open_thread s4 else s4 in
  (e1, s5).

(** [light_ring_close_thread]. *)
Definition light_ring_close_thread (s : RingState) : list event * RingState :=
  ([Output LED_RING LOW], set_led_ring LOW (set_ring_alive false s)).

(** *** [time.sleep] *)

(** [sleep] is [time.sleep] of the standard library, called as
    [sleep(ms / 1000)] on an [int] count of milliseconds.  Two of its answers
    are CPython's own and do not depend on the platform: the duration is
    turned into a count of nanoseconds in a signed 64-bit integer, and a
    count that does not fit raises [OverflowError] (for larger values still
    the division [ms / 1000] itself raises [OverflowError]); a duration that
    fits and is negative raises [ValueError].  [sleep_rejects] is that part. *)
Definition SLEEP_LIMIT_MS : Z := 9223372036854.

Definition sleep_rejects (ms : Z) : option exn :=
  if (ms <? - SLEEP_LIMIT_MS) || (SLEEP_LIMIT_MS <? ms) then Some OverflowError
  else if ms <? 0 then Some ValueError
  else None.

Section Platform.

(** What the running platform answers to [sleep(ms / 1000)]: whether a
    duration that CPython lets through is accepted depends on the operating
    system, so the answer is a parameter of the model, a function of the
    count of milliseconds. *)
Variable time_sleep : Z -> outcome unit.

(** The platform agrees with CPython wherever CPython itself rejects. *)
Definition python_sleep : Prop :=
  forall (ms : Z) (x : exn),
    sleep_rejects ms = Some x -> time_sleep ms = Raises x.

(** The body of the [while ring_alive] loop of [light_ring_run_thread], in its
    three parts.  The pacing [sleep(delta)] at the end of the body depends on
    the wall clock only and changes no variable; it is left out. *)

(** "Update safety timers". *)
Definition update_timers (s : RingState) : RingState :=
  if ring_state s
  then set_timers (ring_on_time s + LIGHT_RING_REFRESH_DELAY) 0 s
  else set_timers 0 (ring_off_time s + LIGHT_RING_REFRESH_DELAY) s.

(** "Safety check". *)
Definition safety_check (s : RingState) : list event * RingState :=
  if ring_state s && (LIGHT_RING_MAX_ON_TIME <=? ring_on_time s) then
    let '(e, s') := light_ring_set false s in
    (e ++ [Log WARNING MaxOnTimeReached], s')
  else ([], s).

(** "Flashing logic".  An exception of [sleep] is not caught: it ends the
    thread with the pin as it is at that point. *)
Definition flash_logic (s : RingState) : list event * outcome RingState :=
  if ring_flashing s then
    if flash_counter s <? ring_flash_count s then
      let s1 := set_led_ring HIGH s in
      match time_sleep (ring_flash_on_time s) with
      | Raises x => ([Output LED_RING HIGH], Raises x)
      | Returns _ =>
          let s2 := set_led_ring LOW s1 in
          match time_sleep (ring_flash_off_time s) with
          | Raises x =>
              ([Output LED_RING HIGH; Sleep (ring_flash_on_time s);
                Output LED_RING LOW], Raises x)
          | Returns _ =>
              ([Output LED_RING HIGH; Sleep (ring_flash_on_time s);
                Output LED_RING LOW; Sleep (ring_flash_off_time s)],
               Returns (set_flash_counter (flash_counter s + 1) s2))
          end
      end
    else
      ([], Returns (set_flash_counter 0 (set_ring_flashing false s)))
  else ([], Returns s).

(** One iteration of the loop of [light_ring_run_thread]: a timer tick. *)
Definition light_ring_run_thread_tick (s : RingState)
  : list event * outcome RingState :=
  let s1 := update_timers s in
  let '(e2, s2) := safety_check s1 in
  let '(e3, r) := flash_logic s2 in
  (e2 ++ e3, r).

(** [n] consecutive iterations of the loop body with no request in
    between. *)
Fixpoint run_ticks (n : nat) (s : RingState) : list event * outcome RingState :=
  match n with
  | O => ([], Returns s)
  | S n' =>
      match light_ring_run_thread_tick s with
      | (e, Returns s') =>
          let '(e', r) := run_ticks n' s' in (e ++ e', r)
      | (e, Raises x) => (e, Raises x)
      end
  end.

(** [light_ring_run_thread], the loop [while ring_alive] itself, followed for
    at most [n] iterations with no request in between: [ring_alive] is
    tested before each iteration, and the loop is over once it is False. *)
Fixpoint light_ring_run_thread (n : nat) (s : RingState)
  : list event * outcome RingState :=
  match n with
  | O => ([], Returns s)
  | S n' =>
      if ring_alive s then
        match light_ring_run_thread_tick s with
        | (e, Returns s') =>
            let '(e', r) := light_ring_run_thread n' s' in (e ++ e', r)
        | (e, Raises x) => (e, Raises x)
        end
      else ([], Returns s)
  end.

(** *** The step relation: requests of the main flow interleaved with ticks *)

Inductive action : Type :=
| Set_ (new_state : bool)
| Flash (count time_on time_off : Z)
| Close
| Tick.

(** A flash request carries two durations that [sleep] accepts.  A tick is
    taken only while the thread is alive, and is a whole iteration of the
    loop. *)
Inductive step : RingState -> action -> list event -> RingState -> Prop :=
| step_set s new_state :
    step s (Set_ new_state)
         (fst (light_ring_set new_state s)) (snd (light_ring_set new_state s))
| step_flash s count time_on time_off :
    time_sleep time_on = Returns tt -> time_sleep time_off = Returns tt ->
    step s (Flash count time_on time_off)
         (fst (light_ring_flash_set count time_on time_off s))
         (snd (light_ring_flash_set count time_on time_off s))
| step_close s :
    step s Close
         (fst (light_ring_close_thread s)) (snd (light_ring_close_thread s))
| step_tick s e s' :
    ring_alive s = true ->
    light_ring_run_thread_tick s = (e, Returns s') ->
    step s Tick e s'.

Inductive reachable : RingState -> Prop :=
| reach_init : reachable initial_state
| reach_step s a e s' : reachable s -> step s a e s' -> reachable s'.

(** Executable counterpart of [step], for concrete runs. *)
Definition exec_action (a : action) (s : RingState)
  : option (list event * RingState) :=
  match a with
  | Set_ b => Some (light_ring_set b s)
  | Flash c t_on t_off =>
      match time_sleep t_on, time_sleep t_off with
      | Returns _, Returns _ => Some (light_ring_flash_set c t_on t_off s)
      | _, _ => None
      end
  | Close => Some (light_ring_close_thread s)
  | Tick =>
      if ring_alive s then
        match light_ring_run_thread_tick s with
        | (e, Returns s') => Some (e, s')
        | _ => None
        end
      else None
  end.

Fixpoint exec (l : list action) (s : RingState) : option RingState :=
  match l with
  | [] => Some s
  | a :: l' =>
      match exec_action a s with
      | Some (_, s') => exec l' s'
      | None => None
      end
  end.

(** Number of times the pin is driven high in a run of events. *)
Definition is_high_output (e : event) : bool :=
  match e with
  | Output _ HIGH => true
  | _ => false
  end.

Definition high_pulses (l : list event) : nat :=
  List.length (List.filter is_high_output l).

(** Whether a run of events writes to a pin at all. *)
Definition is_output (e : event) : bool :=
  match e with
  | Output _ _ => true
  | _ => false
  end.

(** The level of the last write to the pin in a run of events, if any. *)
Fixpoint last_output (l : list event) : option level :=
  match l with
  | [] => None
  | Output _ lv :: l' =>
      match last_output l' with
      | Some lv' => Some lv'
      | None => Some lv
      end
  | _ :: l' => last_output l'
  end.

(** The events of one flash step. *)
Definition flash_pulse (time_on time_off : Z) : list event :=
  [Output LED_RING HIGH; Sleep time_on; Output LED_RING LOW; Sleep time_off].

(** The flash variables of a state. *)
Definition flash_vars (s : RingState) : bool * Z * Z * Z * Z :=
  (ring_flashing s, ring_flash_count s, ring_flash_on_time s,
   ring_flash_off_time s, flash_counter s).

(** A flash step is due at the next run of the flash logic. *)
Definition flash_step_due (s : RingState) : bool :=
  ring_flashing s && (flash_counter s <? ring_flash_count s).

(** The invariant of the controller.  In every state between two steps: the
    durations of an active flash sequence are accepted by [sleep]; a ring
    that is on has an on-timer below the limit; a non-zero on-timer comes
    with a zero off-timer; the pin is high only while the ring is logically
    on. *)
Record Inv (s : RingState) : Prop := {
  inv_sleep_on :
    ring_flashing s = true -> time_sleep (ring_flash_on_time s) = Returns tt;
  inv_sleep_off :
    ring_flashing s = true -> time_sleep (ring_flash_off_time s) = Returns tt;
  inv_on_below_max :
    ring_state s = true -> ring_on_time s < LIGHT_RING_MAX_ON_TIME;
  inv_timers : ring_on_time s <> 0 -> ring_off_time s = 0;
  inv_led : led_ring s = HIGH -> ring_state s = true
}.

End Platform.

Arguments step_set {time_sleep}.
Arguments step_flash {time_sleep}.
Arguments step_close {time_sleep}.
Arguments step_tick {time_sleep}.
Arguments reach_init {time_sleep}.
Arguments reach_step {time_sleep}.

(** A platform that accepts every duration CPython lets through, for
    concrete runs. *)
Definition accepting_sleep (ms : Z) : outcome unit :=
  match sleep_rejects ms with
  | Some x => Raises x
  | None => Returns tt
  end.

End LightRing.

(* ====================================================================== *)
(** ** Recovery transmission retry ([recovery.py]) *)
(* ====================================================================== *)

Module Recovery.

(** Constants of the collaborator classes ([MinionHat.ENABLE],
    [MinSat.dev_off]); the classes themselves are outside the sources, only
    the constants the code passes are named. *)
Inductive hat_switch : Type := ENABLE | DISABLE.
Inductive dev_power : Type := dev_off | dev_on.

(** The second component of what [sbd_send_position] returns. *)
Record RetData : Type := { valid_position : bool }.

(** The collaborators, as the outcomes of the calls the code makes on them.
    The [nat] argument of the two send methods is the number of calls of that
    method already made by the running method: the answer may differ from one
    attempt to the next.  [sbd_send_file] yields the truth value of the
    object it returns. *)
Record MinionHat : Type := {
  burn_wire : hat_switch -> outcome unit;
  strobe_timing : Z -> Z -> outcome unit;
  strobe : hat_switch -> outcome unit
}.

Record MinSat : Type := {
  sbd_send_position : nat -> bool -> bool -> Z -> outcome (bool * RetData);
  sbd_send_file : nat -> string -> bool -> Z -> Z -> outcome bool;
  gps_pwr : dev_power -> outcome unit;
  modem_pwr : dev_power -> outcome unit
}.

(** The attributes of a [Recovery] object. *)
Record Recovery_ : Type := {
  gps_port : string;
  gps_baud : Z;
  modem_port : string;
  modem_baud : Z;
  minion_hat : MinionHat;
  m1 : MinSat;
  _STROBE_ON : Z;
  _STROBE_OFF : Z
}.

(** Calls on the collaborators, with their arguments. *)
Inductive call : Type :=
| CallBurnWire (sw : hat_switch)
| CallStrobeTiming (time_on time_off : Z)
| CallStrobe (sw : hat_switch)
| CallSbdSendPosition (verbose maintain_gps_pwr : bool) (gps_timeout : Z)
| CallSbdSendFile (filename : string) (verbose : bool)
                  (num_header_lines start_file_position : Z)
| CallGpsPwr (p : dev_power)
| CallModemPwr (p : dev_power).

(** The diagnostics, one constructor per message text. *)
Inductive message : Type :=
| ActivatingBurnWireAndStrobe
| AttemptingGpsPosition
| GpsOk
| GpsFailedRetrying
| GpsOkOnRetry
| GpsFailedAfterRetry
| FileAttempt (attempt : Z) (filename : string)
| FileOk
| FileAttemptFailed (attempt : Z)
| FileFailedAfter (max_tries : Z)
| FailureDueToUncertainty.

Inductive event : Type :=
| Call (c : call)
| Log (lvl : log_level) (m : message)
| Print (m : message).

(** How a method body ends: it returns, an exception leaves it, or the
    model ran out of fuel (a loop of the model was cut short; Python has no
    such case). *)
Inductive result (A : Type) : Type :=
| Returned (a : A)
| Raised (e : exn)
| OutOfFuel.
Arguments Returned {A} a.
Arguments Raised {A} e.
Arguments OutOfFuel {A}.

(** A method body: how it ends and the events it produced until then.  A
    raised exception stops the body (there is no handler in this file). *)
Definition M (A : Type) : Type := (result A * list event)%type.

Definition ret {A} (a : A) : M A := (Returned a, []).

Definition bind {A B} (m : M A) (f : A -> M B) : M B :=
  match m with
  | (Returned a, t) => let '(r, t') := f a in (r, t ++ t')
  | (Raised e, t) => (Raised e, t)
  | (OutOfFuel, t) => (OutOfFuel, t)
  end.

Notation "x <- c1 ;; c2" := (bind c1 (fun x => c2))
  (at level 61, c1 at next level, right associativity).
Notation "c1 ;; c2" := (bind c1 (fun _ => c2))
  (at level 61, right associativity).

(** A call on a collaborator: recorded, then its outcome. *)
Definition perform {A} (c : call) (o : outcome A) : M A :=
  match o with
  | Returns a => (Returned a, [Call c])
  | Raises e => (Raised e, [Call c])
  end.

(** [logger.<lvl>(m)] followed by [print(m)]. *)
Definition report (lvl : log_level) (m : message) : M unit :=
  (Returned tt, [Log lvl m; Print m]).

Definition print (m : message) : M unit := (Returned tt, [Print m]).

(** [Recovery.__init__]: the two collaborator constructors may raise. *)
Definition init (new_MinionHat : outcome MinionHat)
                (new_MinSat : string -> Z -> string -> Z -> outcome MinSat)
                (gps_port : string) (gps_baud : Z)
                (modem_port : string) (modem_baud : Z) : outcome Recovery_ :=
  match new_MinionHat with
  | Returns hat =>
      match new_MinSat gps_port gps_baud modem_port modem_baud with
      | Returns sat =>
          Returns {| gps_port := gps_port; gps_baud := gps_baud;
                     modem_port := modem_port; modem_baud := modem_baud;
                     minion_hat := hat; m1 := sat;
                     _STROBE_ON := 100; _STROBE_OFF := 4900 |}
      | Raises e => Raises e
      end
  | Raises e => Raises e
  end.

(** [Recovery.acquire_and_send_gps_position]. *)
Definition acquire_and_send_gps_position (self : Recovery_) : M unit :=
  report INFO ActivatingBurnWireAndStrobe ;;
  perform (CallBurnWire ENABLE) (burn_wire (minion_hat self) ENABLE) ;;
  perform (CallStrobeTiming (_STROBE_ON self) (_STROBE_OFF self))
          (strobe_timing (minion_hat self) (_STROBE_ON self) (_STROBE_OFF self)) ;;
  perform (CallStrobe ENABLE) (strobe (minion_hat self) ENABLE) ;;
  report INFO AttemptingGpsPosition ;;
  r <- perform (CallSbdSendPosition false true 120)
               (sbd_send_position (m1 self) 0 false true 120) ;;
  (let '(success, ret_data) := r in
   if success && valid_position ret_data then
     report INFO GpsOk
   else
     report WARNING GpsFailedRetrying ;;
     r' <- perform (CallSbdSendPosition false false 120)
                   (sbd_send_position (m1 self) 1 false false 120) ;;
     let '(success', ret_data') := r' in
     if success' && valid_position ret_data' then
       report INFO GpsOkOnRetry
     else
       report ERROR GpsFailedAfterRetry) ;;
  perform (CallGpsPwr dev_off) (gps_pwr (m1 self) dev_off) ;;
  perform (CallModemPwr dev_off) (modem_pwr (m1 self) dev_off).

(** [Recovery.transmit_file]: the [while attempt < max_tries] loop, one unit
    of fuel per iteration.  The index handed to [sbd_send_file] is the value
    of [attempt] before its increment, the number of sends made so far. *)
Definition max_tries : Z := 5.

Fixpoint transmit_file_loop (self : Recovery_) (filename : string)
    (start_file_position : Z) (fuel : nat) (attempt : Z) : M unit :=
  if attempt <? max_tries then
    match fuel with
    | O => (OutOfFuel, [])
    | S fuel' =>
        let attempt' := attempt + 1 in
        report INFO (FileAttempt attempt' filename) ;;
        ret_data <- perform
          (CallSbdSendFile filename false 0 start_file_position)
          (sbd_send_file (m1 self) (Z.to_nat attempt) filename false 0
                         start_file_position) ;;
        if ret_data : bool then
          report INFO FileOk
        else
          report WARNING (FileAttemptFailed attempt') ;;
          transmit_file_loop self filename start_file_position fuel' attempt'
    end
  else
    report ERROR (FileFailedAfter max_tries) ;;
    print FailureDueToUncertainty.

Definition transmit_file_fuel (fuel : nat) (self : Recovery_)
    (filename : string) (start_file_position : Z) : M unit :=
  transmit_file_loop self filename start_file_position fuel 0.

Definition transmit_file : Recovery_ -> string -> Z -> M unit :=
  transmit_file_fuel (Z.to_nat max_tries).

(** Observations on a run of events. *)
Definition count_events (f : event -> bool) (t : list event) : nat :=
  List.length (List.filter f t).

Definition is_send_file (e : event) : bool :=
  match e with
  | Call (CallSbdSendFile _ _ _ _) => true
  | _ => false
  end.

Definition is_file_ok (e : event) : bool :=
  match e with
  | Print FileOk => true
  | _ => false
  end.

Definition is_file_failure (e : event) : bool :=
  match e with
  | Print (FileFailedAfter _) => true
  | _ => false
  end.

Definition is_gps_failure (e : event) : bool :=
  match e with
  | Print GpsFailedAfterRetry => true
  | _ => false
  end.

Definition is_file_attempt (e : event) : bool :=
  match e with
  | Print (FileAttempt _ _) => true
  | _ => false
  end.

Definition send_file_calls : list event -> nat := count_events is_send_file.
Definition file_attempt_reports : list event -> nat :=
  count_events is_file_attempt.
Definition file_ok_reports : list event -> nat := count_events is_file_ok.
Definition file_failure_reports : list event -> nat :=
  count_events is_file_failure.
Definition gps_failure_reports : list event -> nat :=
  count_events is_gps_failure.

(** The [sbd_send_position] calls of a run, each as
    [(verbose, maintain_gps_pwr, gps_timeout)]. *)
Fixpoint position_attempts (t : list event) : list (bool * bool * Z) :=
  match t with
  | [] => []
  | Call (CallSbdSendPosition v mg tmo) :: t' =>
      (v, mg, tmo) :: position_attempts t'
  | _ :: t' => position_attempts t'
  end.

(** The outcome of the send number [k] (from 0) of a [transmit_file]. *)
Definition send_outcome (self : Recovery_) (filename : string)
    (start_file_position : Z) (k : nat) : outcome bool :=
  sbd_send_file (m1 self) k filename false 0 start_file_position.

(** Every call the collaborators can receive returns normally. *)
Definition hat_returns (h : MinionHat) : Prop :=
  (forall sw, burn_wire h sw = Returns tt) /\
  (forall a b, strobe_timing h a b = Returns tt) /\
  (forall sw, strobe h sw = Returns tt).

Definition sat_returns (m : MinSat) : Prop :=
  (forall k v mg tmo, exists r, sbd_send_position m k v mg tmo = Returns r) /\
  (forall k f v h p, exists b, sbd_send_file m k f v h p = Returns b) /\
  (forall p, gps_pwr m p = Returns tt) /\
  (forall p, modem_pwr m p = Returns tt).

(** Collaborators for concrete runs: a hat whose calls all return, and a
    modem that answers the two send methods from the given sequences. *)
Definition steady_hat : MinionHat :=
  {| burn_wire := fun _ => Returns tt;
     strobe_timing := fun _ _ => Returns tt;
     strobe := fun _ => Returns tt |}.

Definition scripted_sat (positions : nat -> outcome (bool * RetData))
    (files : nat -> outcome bool) : MinSat :=
  {| sbd_send_position := fun k _ _ _ => positions k;
     sbd_send_file := fun k _ _ _ _ => files k;
     gps_pwr := fun _ => Returns tt;
     modem_pwr := fun _ => Returns tt |}.

Definition recovery_with (positions : nat -> outcome (bool * RetData))
    (files : nat -> outcome bool) : Recovery_ :=
  {| gps_port := "/dev/ttySC0"; gps_baud := 9600;
     modem_port := "/dev/ttySC1"; modem_baud := 19200;
     minion_hat := steady_hat;
     m1 := scripted_sat positions files;
     _STROBE_ON := 100; _STROBE_OFF := 4900 |}.

End Recovery.

(* ====================================================================== *)
(** ** Temperature / pressure sampling ([tp.py], [sensors/kellerLD.py]) *)
(* ====================================================================== *)

Module TempPressure.

(** An instance attribute: never assigned, assigned [None], or holding a
    value.  Reading an attribute that was never assigned raises
    [AttributeError]. *)
Inductive attr (A : Type) : Type :=
| Unset
| IsNone
| Value (a : A).
Arguments Unset {A}.
Arguments IsNone {A}.
Arguments Value {A} a.

(** An [smbus2.SMBus] object, as the outcomes of the two calls made on it. *)
Record SMBus : Type := {
  write_byte : Z -> Z -> outcome unit;
  read_i2c_block_data : Z -> Z -> Z -> outcome (list Z)
}.

Section Floats.

(** Python floats are kept abstract: the properties below are about which
    value reaches the caller, not about its digits. *)
Variable float : Type.
Variable nan : float.
(** [round(p * depth_factor - surface_offset, 3)] in [TP.sample]. *)
Variable depth_of : float -> float.
(** [(pressureRaw - 16384) * (pMax - pMin) / 32768 + pMin], as a function of
    [pressureRaw], [pMin] and [pMax], and [(x - 24) * 0.05 - 50] with
    [x = temperatureRaw >> 4], in [KellerLD.read]. *)
Variable keller_pressure : Z -> float -> float -> float.
Variable keller_temperature : Z -> float.

Inductive message : Type :=
| NoBus
| InitRequired
| CallInitFirst
| CallReadFirst
| InvalidMode (mode : Z)
| MemoryChecksumError
| ErrorReadingTemperature
| ErrorReadingPressure
| TPSampledAt (current_time : string)
| LoggedTP (t p pt : float).

Inductive event : Type :=
| Log (lvl : log_level) (m : message).

(** *** [KellerLD] *)

Definition _SLAVE_ADDRESS : Z := 64.        (* 0x40 *)
Definition _REQUEST_MEASUREMENT : Z := 172. (* 0xAC *)

Record KellerLD : Type := {
  _bus : option SMBus;
  pMin : attr float;
  pMax : attr float;
  _pressure : attr float;
  _temperature : attr float
}.

Definition index (data : list Z) (i : nat) : outcome Z :=
  match nth_error data i with
  | Some b => Returns b
  | None => Raises IndexError
  end.

(** The last part of [KellerLD.read], once the five bytes are there. *)
Definition keller_decode (self : KellerLD) (lo hi : float) (data : list Z)
  : list event * outcome (bool * KellerLD) :=
  match index data 0, index data 1, index data 2, index data 3, index data 4
  with
  | Returns statusByte, Returns d1, Returns d2, Returns d3, Returns d4 =>
      let pressureRaw := Z.lor (Z.shiftl d1 8) d2 in
      let temperatureRaw := Z.lor (Z.shiftl d3 8) d4 in
      if negb (Z.land statusByte (Z.shiftl 3 3) =? 0) then
        ([Log WARNING
              (InvalidMode (Z.shiftr (Z.land statusByte (Z.shiftl 3 3)) 3))],
         Returns (false, self))
      else if negb (Z.land statusByte (Z.shiftl 1 2) =? 0) then
        ([Log WARNING MemoryChecksumError], Returns (false, self))
      else
        ([], Returns (true,
           {| _bus := _bus self; pMin := pMin self; pMax := pMax self;
              _pressure := Value (keller_pressure pressureRaw lo hi);
              _temperature :=
                Value (keller_temperature (Z.shiftr temperatureRaw 4)) |}))
  | _, _, _, _, _ => ([], Raises IndexError)
  end.

(** [KellerLD.read]: every path that returns, returns a [bool]. *)
Definition KellerLD_read (self : KellerLD)
  : list event * outcome (bool * KellerLD) :=
  match _bus self with
  | None => ([Log WARNING NoBus], Returns (false, self))
  | Some bus =>
      match pMin self with
      | Unset => ([], Raises AttributeError)
      | IsNone =>
          ([Log WARNING InitRequired; Log WARNING CallInitFirst],
           Returns (false, self))
      | Value lo =>
          match pMax self with
          | Unset => ([], Raises AttributeError)
          | IsNone =>
              ([Log WARNING InitRequired; Log WARNING CallInitFirst],
               Returns (false, self))
          | Value hi =>
              match write_byte bus _SLAVE_ADDRESS _REQUEST_MEASUREMENT with
              | Returns _ =>
                  match read_i2c_block_data bus _SLAVE_ADDRESS 0 5 with
                  | Returns data => keller_decode self lo hi data
                  | Raises e => ([], Raises e)
                  end
              | Raises e => ([], Raises e)
              end
          end
      end
  end.

(** [KellerLD.temperature] and [KellerLD.pressure]. *)
Definition KellerLD_temperature (self : KellerLD)
  : list event * outcome float :=
  match _temperature self with
  | Unset => ([], Raises AttributeError)
  | IsNone => ([Log WARNING CallReadFirst], Returns nan)
  | Value v => ([], Returns v)
  end.

Definition KellerLD_pressure (self : KellerLD) : list event * outcome float :=
  match _pressure self with
  | Unset => ([], Raises AttributeError)
  | IsNone => ([Log WARNING CallReadFirst], Returns nan)
  | Value v => ([], Returns v)
  end.

(** *** The two sensors whose modules are outside the sources *)

(** What a [read()] hands back to [TP.sample]: a pair or a single flag. *)
Inductive read_value : Type :=
| Pair (p pt : float)
| Flag (b : bool).

(** [TSYS01] and [MS5837], as the outcome of their [read()]. *)
Record TSYS01 : Type := { tsys01_read : outcome float }.
Record MS5837 : Type := { ms5837_read : outcome read_value }.

Inductive PressureSensor : Type :=
| IniP30 (s : MS5837)
| IniP100 (s : KellerLD).

(** *** [TP] *)

(** The sensor attributes exist only if their initialisation in [__init__]
    went through ([None] here: never assigned). *)
Record TP : Type := {
  Temp_sensor : option TSYS01;
  Pressure_sensor : option PressureSensor;
  _filename : string
}.

(** [self.Pressure_sensor.read()]. *)
Definition pressure_read (self : TP) : list event * outcome read_value :=
  match Pressure_sensor self with
  | None => ([], Raises AttributeError)
  | Some (IniP30 s) => ([], ms5837_read s)
  | Some (IniP100 k) =>
      match KellerLD_read k with
      | (e, Returns (b, _)) => (e, Returns (Flag b))
      | (e, Raises x) => (e, Raises x)
      end
  end.

(** [self.Temp_sensor.read()]. *)
Definition temperature_read (self : TP) : outcome float :=
  match Temp_sensor self with
  | None => Raises AttributeError
  | Some s => tsys01_read s
  end.

(** [p, pt = <value>]: unpacking anything but a pair raises [TypeError]. *)
Definition unpack2 (v : read_value) : outcome (float * float) :=
  match v with
  | Pair p pt => Returns (p, pt)
  | Flag _ => Raises TypeError
  end.

(** [try: <body> except OSError: logger.warning(m)]: an [OSError] raised by
    the body is logged and the variables keep the values they had; any other
    exception goes on to the caller. *)
Definition except_OSError {A : Type} (body : list event * outcome A)
    (m : message) (before : A) : list event * outcome A :=
  match body with
  | (e, Raises OSError) => (e ++ [Log WARNING m], Returns before)
  | other => other
  end.

(** The body of the first [try] of [TP.sample]: [t = self.Temp_sensor.read()]. *)
Definition temperature_body (self : TP) : list event * outcome float :=
  ([], temperature_read self).

(** The body of the second [try]: [p, pt = self.Pressure_sensor.read()] and
    the conversion of [p]. *)
Definition pressure_body (self : TP) : list event * outcome (float * float) :=
  match pressure_read self with
  | (e, Returns v) =>
      match unpack2 v with
      | Returns (p, pt) => (e, Returns (depth_of p, pt))
      | Raises x => (e, Raises x)
      end
  | (e, Raises x) => (e, Raises x)
  end.

Definition sample_temperature (self : TP) : list event * outcome float :=
  except_OSError (temperature_body self) ErrorReadingTemperature nan.

Definition sample_pressure (self : TP)
  : list event * outcome (float * float) :=
  except_OSError (pressure_body self) ErrorReadingPressure (nan, nan).

(** [TP.sample]; [current_time] is the formatted reading of the clock. *)
Definition sample (self : TP) (current_time : string)
  : list event * outcome (string * float * float * float) :=
  match sample_temperature self with
  | (e1, Returns t) =>
      match sample_pressure self with
      | (e2, Returns (p, pt)) =>
          (e1 ++ e2 ++ [Log DEBUG (TPSampledAt current_time);
                        Log INFO (LoggedTP t p pt)],
           Returns (current_time, t, p, pt))
      | (e2, Raises x) => (e1 ++ e2, Raises x)
      end
  | (e1, Raises x) => (e1, Raises x)
  end.

End Floats.

Arguments Pair {float} p pt.
Arguments Flag {float} b.
Arguments IniP30 {float} s.
Arguments IniP100 {float} s.
Arguments Log {float} lvl m.

End TempPressure.

(* ====================================================================== *)
(** ** Recovery: a further observation on a run *)
(* ====================================================================== *)

Module RecoveryObs.
Import Recovery.

(** The calls that switch a supply: [gps_pwr] and [modem_pwr]. *)
Definition is_power_call (e : event) : bool :=
  match e with
  | Call (CallGpsPwr _) => true
  | Call (CallModemPwr _) => true
  | _ => false
  end.

Definition power_calls : list event -> nat := count_events is_power_call.

End RecoveryObs.

(* ====================================================================== *)
(** ** Construction of the sensors ([KellerLD.__init__], [KellerLD.init],
       [TP.__init__]) *)
(* ====================================================================== *)

Module TempPressureInit.
Import TempPressure.

(** What [smbus.SMBus(bus)] does in [KellerLD.__init__]: it returns the bus
    object, raises [FileNotFoundError] (the one class the constructor
    catches), or raises something else. *)
Inductive bus_open : Type :=
| BusOpened (b : SMBus)
| BusNotFound
| BusOpenRaises (e : exn).

(** The bus during [KellerLD.init], as the outcomes of the calls [init]
    makes on it, in call order: the [nat] is the number of the transfer
    (0 to 3), each transfer being one [write_byte] and one
    [read_i2c_block_data]. *)
Record InitBus : Type := {
  init_write_byte : nat -> Z -> Z -> outcome unit;
  init_read_i2c_block_data : nat -> Z -> Z -> Z -> outcome (list Z)
}.

(** [struct.error], raised by [struct.pack('I', x)] when [x] is not an
    unsigned 32-bit value. *)
Definition struct_error : exn := OtherError 1.

Section Floats.

Variable float : Type.
(** [struct.unpack('f', struct.pack('I', x))[0]]: the float whose four bytes
    are those of the unsigned 32-bit integer [x]. *)
Variable float_of_bits : Z -> float.
(** An [int] kept in an attribute that later holds a float. *)
Variable float_of_int : Z -> float.

Inductive init_message : Type :=
| BusNotAvailable (bus : Z)
| EnableI2CInterface
| TemperatureInitialized
| ErrorInitializingTemperature
| IniP30Initialized
| ErrorInitializingIniP30
| IniP100Initialized
| ErrorInitializingIniP100.

Inductive init_event : Type :=
| SensorLog (e : event float)
| InitLog (lvl : log_level) (m : init_message)
| BusWrite (address value : Z).

(** *** [KellerLD.__init__] *)

Definition KellerLD_new (bus : Z) (o : bus_open) (on_raspberrypi : bool)
  : list init_event * outcome (KellerLD float) :=
  let blank (b : option SMBus) : KellerLD float :=
    {| _bus := b; pMin := Unset; pMax := Unset;
       _pressure := Unset; _temperature := Unset |} in
  match o with
  | BusOpened b => ([], Returns (blank (Some b)))
  | BusNotFound =>
      (InitLog WARNING (BusNotAvailable bus)
         :: (if on_raspberrypi then [InitLog WARNING EnableI2CInterface]
             else []),
       Returns (blank None))
  | BusOpenRaises e => ([], Raises e)
  end.

(** *** [KellerLD.init] *)

(** One transfer of [init]: select the register, read three bytes, and
    build the 16-bit word [data[1] << 8 | data[2]]. *)
Definition read_word (bus : InitBus) (k : nat) (reg : Z)
  : list init_event * outcome Z :=
  match init_write_byte bus k _SLAVE_ADDRESS reg with
  | Raises e => ([BusWrite _SLAVE_ADDRESS reg], Raises e)
  | Returns _ =>
      match init_read_i2c_block_data bus k _SLAVE_ADDRESS 0 3 with
      | Raises e => ([BusWrite _SLAVE_ADDRESS reg], Raises e)
      | Returns data =>
          ([BusWrite _SLAVE_ADDRESS reg],
           match index data 1, index data 2 with
           | Returns hi, Returns lo => Returns (Z.lor (Z.shiftl hi 8) lo)
           | _, _ => Raises IndexError
           end)
      end
  end.

Definition pack_I (x : Z) : outcome float :=
  if (0 <=? x) && (x <? 2 ^ 32) then Returns (float_of_bits x)
  else Raises struct_error.

Definition with_pMin (v : float) (k : KellerLD float) : KellerLD float :=
  {| _bus := _bus float k; pMin := Value v; pMax := pMax float k;
     _pressure := _pressure float k; _temperature := _temperature float k |}.

Definition with_pMax (v : float) (k : KellerLD float) : KellerLD float :=
  {| _bus := _bus float k; pMin := pMin float k; pMax := Value v;
     _pressure := _pressure float k; _temperature := _temperature float k |}.

(** [KellerLD.init]: the events, how the call ends, and the object as the
    call leaves it (an exception in the middle leaves [pMin] assigned and
    [pMax] not). *)
Definition KellerLD_init (self : KellerLD float) (bus : InitBus)
  : list init_event * outcome bool * KellerLD float :=
  match _bus float self with
  | None => ([SensorLog (Log WARNING (NoBus float))], Returns false, self)
  | Some _ =>
      match read_word bus 0 19 with                         (* 0x13 *)
      | (e0, Raises x) => (e0, Raises x, self)
      | (e0, Returns ms) =>
      match read_word bus 1 20 with                         (* 0x14 *)
      | (e1, Raises x) => (e0 ++ e1, Raises x, self)
      | (e1, Returns ls) =>
      let raw_min := Z.lor (Z.shiftl ms 16) ls in
      let self1 := with_pMin (float_of_int raw_min) self in
      match read_word bus 2 21 with                         (* 0x15 *)
      | (e2, Raises x) => (e0 ++ e1 ++ e2, Raises x, self1)
      | (e2, Returns ms') =>
      match read_word bus 3 22 with                         (* 0x16 *)
      | (e3, Raises x) => (e0 ++ e1 ++ e2 ++ e3, Raises x, self1)
      | (e3, Returns ls') =>
      let raw_max := Z.lor (Z.shiftl ms' 16) ls' in
      let self2 := with_pMax (float_of_int raw_max) self1 in
      let ev := e0 ++ e1 ++ e2 ++ e3 in
      match pack_I raw_min with
      | Raises x => (ev, Raises x, self2)
      | Returns fmin =>
          let self3 := with_pMin fmin self2 in
          match pack_I raw_max with
          | Raises x => (ev, Raises x, self3)
          | Returns fmax => (ev, Returns true, with_pMax fmax self3)
          end
      end
      end end end end
  end.

(** *** [TP.__init__] *)

(** The surroundings of [TP.__init__]: the constructors and [init] methods
    of the two sensors whose modules are outside the sources, the bus the
    [KellerLD] sensor finds, and [setup_file], which works on the file
    system. *)
Record InitEnv : Type := {
  new_TSYS01 : outcome (TSYS01 float);
  TSYS01_init : outcome unit;
  new_MS5837 : outcome (MS5837 float);
  MS5837_init : outcome unit;
  keller_bus_open : bus_open;
  on_raspberrypi : bool;
  keller_init_bus : InitBus;
  setup_file : option string -> outcome string
}.

(** [try: self.X = <constructor>; self.X.init(); logger.info(ok)
    except OSError: logger.warning(failed)]: the attribute is assigned as
    soon as the constructor returns. *)
Definition try_sensor {A : Type} (construct : list init_event * outcome A)
    (init : A -> list init_event * outcome unit * A)
    (ok failed : init_message)
  : list init_event * outcome (option A) :=
  match construct with
  | (e, Raises OSError) => (e ++ [InitLog WARNING failed], Returns None)
  | (e, Raises x) => (e, Raises x)
  | (e, Returns a) =>
      match init a with
      | (e', Returns _, a') =>
          (e ++ e' ++ [InitLog INFO ok], Returns (Some a'))
      | (e', Raises OSError, a') =>
          (e ++ e' ++ [InitLog WARNING failed], Returns (Some a'))
      | (e', Raises x, _) => (e ++ e', Raises x)
      end
  end.

Definition keller_init_unit (env : InitEnv) (k : KellerLD float)
  : list init_event * outcome unit * KellerLD float :=
  match KellerLD_init k (keller_init_bus env) with
  | (e, Returns _, k') => (e, Returns tt, k')
  | (e, Raises x, k') => (e, Raises x, k')
  end.

Definition temperature_sensor (env : InitEnv) (use_temp : bool)
  : list init_event * outcome (option (TSYS01 float)) :=
  if use_temp then
    try_sensor ([], new_TSYS01 env) (fun t => ([], TSYS01_init env, t))
               TemperatureInitialized ErrorInitializingTemperature
  else ([], Returns None).

Definition pressure_sensor (env : InitEnv) (use_iniP30 use_iniP100 : bool)
  : list init_event * outcome (option (PressureSensor float)) :=
  if use_iniP30 then
    match try_sensor ([], new_MS5837 env)
                     (fun m => ([], MS5837_init env, m))
                     IniP30Initialized ErrorInitializingIniP30 with
    | (e, Returns (Some m)) => (e, Returns (Some (IniP30 m)))
    | (e, Returns None) => (e, Returns None)
    | (e, Raises x) => (e, Raises x)
    end
  else if use_iniP100 then
    match try_sensor (KellerLD_new 1 (keller_bus_open env)
                                   (on_raspberrypi env))
                     (keller_init_unit env)
                     IniP100Initialized ErrorInitializingIniP100 with
    | (e, Returns (Some k)) => (e, Returns (Some (IniP100 k)))
    | (e, Returns None) => (e, Returns None)
    | (e, Raises x) => (e, Raises x)
    end
  else ([], Returns None).

(** [TP.__init__(filename, use_temp, use_iniP30, use_iniP100)]. *)
Definition TP_init (env : InitEnv) (filename : option string)
    (use_temp use_iniP30 use_iniP100 : bool)
  : list init_event * outcome (TP float) :=
  match temperature_sensor env use_temp with
  | (e1, Raises x) => (e1, Raises x)
  | (e1, Returns t) =>
      match pressure_sensor env use_iniP30 use_iniP100 with
      | (e2, Raises x) => (e1 ++ e2, Raises x)
      | (e2, Returns p) =>
          match setup_file env filename with
          | Raises x => (e1 ++ e2, Raises x)
          | Returns path =>
              (e1 ++ e2,
               Returns {| Temp_sensor := t; Pressure_sensor := p;
                          _filename := path |})
          end
      end
  end.

(** The sensor calls of an environment raise nothing but [OSError]. *)
Definition only_OSError {A : Type} (o : outcome A) : Prop :=
  forall x, o = Raises x -> x = OSError.

End Floats.

Arguments SensorLog {float} e.
Arguments InitLog {float} lvl m.
Arguments BusWrite {float} address value.

(** Surroundings for concrete runs, with integers standing for the floats: a
    temperature sensor and an [MS5837] whose constructors and [init] return
    and which read the given values, the given outcome of opening the bus
    for the [KellerLD], a bus that answers every transfer of [init] with
    the bytes [0, 63, 128], and the given outcome of [setup_file]. *)
Definition steady_init_bus : InitBus :=
  {| init_write_byte := fun _ _ _ => Returns tt;
     init_read_i2c_block_data := fun _ _ _ _ => Returns [0; 63; 128] |}.

Definition bench_env (t : outcome Z) (p : outcome (read_value Z))
    (bus : bus_open) (setup : outcome string) : InitEnv Z :=
  {| new_TSYS01 := Returns {| tsys01_read := t |};
     TSYS01_init := Returns tt;
     new_MS5837 := Returns {| ms5837_read := p |};
     MS5837_init := Returns tt;
     keller_bus_open := bus;
     on_raspberrypi := true;
     keller_init_bus := steady_init_bus;
     setup_file := fun _ => setup |}.

End TempPressureInit.

(* ====================================================================== *)
(** ** The camera ([minion_camera.py]), a user of the light ring *)
(* ====================================================================== *)

Module Camera.

(** The controls of a mode, as names with the text of their values; the
    empty list is the empty dict. *)
Definition controls : Type := list (string * string).

(** The attributes of a [Camera] object that its methods read: [config] is
    the dict of modes, in insertion order. *)
Record Camera_ : Type := {
  path : string;
  capture_camera_settings : bool;
  config : list (string * controls)
}.

(** [self.config] as [__init__] sets it. *)
Definition initial_config : list (string * controls) :=
  [("auto"%string, []);
   ("pic01"%string,
    [("ExposureTime", "50000"); ("AnalogueGain", "3.0");
     ("ColourGains", "(4.0, 1.0)")]%string)].

(** The calls on [self.cam] and on the file that receives the metadata. *)
Inductive cam_call : Type :=
| CreateStillConfiguration
| CreateVideoConfiguration
| Configure
| SetControls (c : controls)
| Start
| Stop
| CaptureFile (mode : string)
| StartRecording (mode : string)
| StopRecording
| OpenJson (mode : string)
| CaptureMetadata
| WriteJson.

Inductive message : Type :=
| InvalidConfigurationMode
| CapturePic (mode : string)
| StartRecordingVideo (mode : string)
| VideoRecordingCompleted (mode : string)
| ErrorRecordingVideo (e : exn).

(** What a method does, in program order.  [RingSet b] is the call
    [minion_hat_gpio.light_ring_set(b)]. *)
Inductive event : Type :=
| RingSet (new_state : bool)
| Cam (c : cam_call)
| Sleep (seconds : Z)
| Log (lvl : log_level) (m : message).

(** The camera and the file system, as the outcome of each call: the [nat]
    is the number of the loop iteration the call is made in (0 for the
    calls outside the loops). *)
Definition Picamera2 : Type := nat -> cam_call -> outcome unit.

(** A method body: how it ends and the events it produced until then. *)
Definition C (A : Type) : Type := (outcome A * list event)%type.

Definition ret {A} (a : A) : C A := (Returns a, []).

Definition bind {A B} (m : C A) (f : A -> C B) : C B :=
  match m with
  | (Returns a, t) => let '(r, t') := f a in (r, t ++ t')
  | (Raises e, t) => (Raises e, t)
  end.

Notation "c1 ;; c2" := (bind c1 (fun _ => c2))
  (at level 61, right associativity).

Definition emit (e : event) : C unit := (Returns tt, [e]).

Definition call (cam : Picamera2) (i : nat) (c : cam_call) : C unit :=
  (cam i c, [Cam c]).

(** [time.sleep(seconds)] on an [int] count of seconds, as CPython answers
    it: [OverflowError] for a count whose nanoseconds do not fit a signed
    64-bit integer, [ValueError] for a negative one.  The platform is taken
    to accept every duration that CPython lets through. *)
Definition sleep (seconds : Z) : C unit :=
  match LightRing.accepting_sleep (1000 * seconds) with
  | Raises x => (Raises x, [])
  | Returns _ => (Returns tt, [Sleep seconds])
  end.

(** [try: <body> except Exception as e: logger.error(...)]. *)
Definition except_Exception (body : C unit) : C unit :=
  match body with
  | (Raises e, t) => (Returns tt, t ++ [Log ERROR (ErrorRecordingVideo e)])
  | ok => ok
  end.

(** [try: <body> finally: <last>]: [last] runs however [body] ends; an
    exception of [body] goes on after it, unless [last] raises itself. *)
Definition finally (body last : C unit) : C unit :=
  let '(r, t) := body in
  match last with
  | (Returns _, t') => (r, t ++ t')
  | (Raises e', t') => (Raises e', t ++ t')
  end.

(** [Camera.set_config(mode)]; the argument is a string or something
    else. *)
Inductive mode_arg : Type :=
| ModeStr (s : string)
| ModeOther.

Fixpoint lookup (m : string) (cfg : list (string * controls))
  : option controls :=
  match cfg with
  | [] => None
  | (k, c) :: rest => if String.eqb k m then Some c else lookup m rest
  end.

Definition with_config (cfg : list (string * controls)) (self : Camera_)
  : Camera_ :=
  {| path := path self;
     capture_camera_settings := capture_camera_settings self;
     config := cfg |}.

Definition set_config (mode : mode_arg) (self : Camera_)
  : list event * outcome Camera_ :=
  match mode with
  | ModeStr m =>
      match lookup m (config self) with
      | Some c => ([], Returns (with_config [(m, c)] self))
      | None => ([Log ERROR InvalidConfigurationMode], Raises ValueError)
      end
  | ModeOther => ([Log ERROR InvalidConfigurationMode], Raises ValueError)
  end.

(** The metadata file of one capture. *)
Definition save_metadata (self : Camera_) (cam : Picamera2) (i : nat)
    (mode : string) : C unit :=
  if capture_camera_settings self then
    call cam i (OpenJson mode) ;;
    call cam i CaptureMetadata ;;
    call cam i WriteJson
  else ret tt.

Definition is_empty (c : controls) : bool :=
  match c with
  | [] => true
  | _ :: _ => false
  end.

(** [Camera.picture]: the loop over the modes, then the method. *)
Fixpoint picture_loop (self : Camera_) (cam : Picamera2) (i : nat)
    (modes : list (string * controls)) : C unit :=
  match modes with
  | [] => ret tt
  | (mode, cfg) :: rest =>
      call cam i CreateStillConfiguration ;;
      call cam i Configure ;;
      (if is_empty cfg then ret tt else call cam i (SetControls cfg)) ;;
      call cam i Start ;;
      sleep 1 ;;
      emit (Log INFO (CapturePic mode)) ;;
      call cam i (CaptureFile mode) ;;
      save_metadata self cam i mode ;;
      call cam i Stop ;;
      picture_loop self cam (S i) rest
  end.

Definition picture (self : Camera_) (cam : Picamera2) : C unit :=
  emit (RingSet true) ;;
  picture_loop self cam 0 (config self) ;;
  emit (RingSet false).

(** [Camera.video(duration)]: the body of the inner [try], the loop, then
    the method. *)
Definition video_body (self : Camera_) (cam : Picamera2) (duration : Z)
    (i : nat) (mode : string) (cfg : controls) : C unit :=
  call cam i CreateVideoConfiguration ;;
  call cam i Configure ;;
  (if is_empty cfg then ret tt else call cam i (SetControls cfg)) ;;
  sleep 1 ;;
  emit (Log INFO (StartRecordingVideo mode)) ;;
  call cam i (StartRecording mode) ;;
  sleep duration ;;
  call cam i StopRecording ;;
  emit (Log DEBUG (VideoRecordingCompleted mode)) ;;
  save_metadata self cam i mode.

Fixpoint video_loop (self : Camera_) (cam : Picamera2) (duration : Z)
    (i : nat) (modes : list (string * controls)) : C unit :=
  match modes with
  | [] => ret tt
  | (mode, cfg) :: rest =>
      except_Exception (video_body self cam duration i mode cfg) ;;
      video_loop self cam duration (S i) rest
  end.

Definition video (self : Camera_) (cam : Picamera2) (duration : Z) : C unit :=
  emit (RingSet true) ;;
  finally
    (call cam 0 Start ;;
     video_loop self cam duration 0 (config self))
    (call cam 0 Stop ;;
     emit (RingSet false)).

(** The requests a run makes to the light ring, in order. *)
Fixpoint ring_requests (t : list event) : list bool :=
  match t with
  | [] => []
  | RingSet b :: t' => b :: ring_requests t'
  | _ :: t' => ring_requests t'
  end.

(** The number of [start_recording] and of [stop_recording] calls. *)
Definition recordings_started (t : list event) : nat :=
  List.length
    (List.filter
       (fun e => match e with Cam (StartRecording _) => true | _ => false end)
       t).

Definition recordings_stopped (t : list event) : nat :=
  List.length
    (List.filter
       (fun e => match e with Cam StopRecording => true | _ => false end) t).

(** The requests of a run as steps of the light-ring controller, with the
    ticks of the ring thread that fall before each request and after the
    last one: [gaps i] ticks before request number [i]. *)
Fixpoint with_ticks (gaps : nat -> nat) (i : nat) (reqs : list bool)
  : list LightRing.action :=
  match reqs with
  | [] => repeat LightRing.Tick (gaps i)
  | b :: rest =>
      repeat LightRing.Tick (gaps i)
        ++ LightRing.Set_ b :: with_ticks gaps (S i) rest
  end.

(** A camera whose calls all return, and the object [__init__] leaves. *)
Definition steady_cam : Picamera2 := fun _ _ => Returns tt.

Definition new_camera (path : string) (capture_camera_settings : bool)
  : Camera_ :=
  {| path := path;
     capture_camera_settings := capture_camera_settings;
     config := initial_config |}.

End Camera.

(* ====================================================================== *)
(** ** The external clock ([sensors/ds3231.py]) and [MinionToolbox.rtc_time]
       ([minion_tools.py]) *)
(* ====================================================================== *)

Module Rtc.

(** *** The string conversions of Python that the driver uses *)

(** [str(n)] for an [int]. *)
Definition str (n : Z) : string :=
  DecimalString.NilZero.string_of_int (Z.to_int n).

(** [s[-2:]]: the last two characters, or all of [s] if it is shorter. *)
Definition last2 (s : string) : string :=
  substring (String.length s - 2) 2 s.

(** [int(s, base=16)] on the strings the driver hands to it: lower-case
    hexadecimal digits with an optional minus sign; anything else raises
    [ValueError]. *)
Definition int16 (s : string) : outcome Z :=
  match HexadecimalString.NilZero.int_of_string s with
  | Some h => Returns (Z.of_hex_int h)
  | None => Raises ValueError
  end.

(** ["%x" % v] and ["%02x" % v]. *)
Definition hex (v : Z) : string :=
  HexadecimalString.NilZero.string_of_int (Z.to_hex_int v).

Definition hex02 (v : Z) : string :=
  if (String.length (hex v) <? 2)%nat then ("0" ++ hex v)%string else hex v.

(** [s.ljust(4, '0')]. *)
Fixpoint zeros (n : nat) : string :=
  match n with
  | O => EmptyString
  | S n' => ("0" ++ zeros n')%string
  end.

Definition ljust4 (s : string) : string :=
  (s ++ zeros (4 - String.length s))%string.

(** *** The object and its bus *)

Definition _address : Z := 104.      (* 0x68 *)
Definition _start_reg : Z := 0.
Definition _alarm1_reg : Z := 7.
Definition _control_reg : Z := 14.   (* 0x0e *)

Definition _wk_day : list string :=
  ["Sunday"; "Monday"; "Tuesday"; "Wednesday"; "Thursday"; "Friday";
   "Saturday"]%string.

(** The bus as the outcomes of the calls made on it: the block read of
    [read_time], and the register writes, the [nat] being the number of
    writes already made by the running method. *)
Record RtcBus : Type := {
  read_i2c_block_data : Z -> Z -> Z -> outcome (list Z);
  write_byte_data : nat -> Z -> Z -> Z -> outcome unit
}.

(** [self._bus] is [None] when the bus could not be opened. *)
Record DS3231 : Type := { _bus : option RtcBus }.

(** The dict [read_time] returns. *)
Record the_time : Type := {
  YYYY : string; MM : string; DD : string;
  hh : string; mm : string; ss : string; ww : string
}.

Inductive event : Type :=
| RegWrite (reg_addr data : Z).

(** *** The methods *)

(** [DS3231._int_to_bcd(data)]. *)
Definition _int_to_bcd (data : Z) : outcome Z := int16 (last2 (str data)).

(** [t[i]] on the list a block read returned. *)
Definition item (t : list Z) (i : nat) : outcome Z :=
  match nth_error t i with
  | Some v => Returns v
  | None => Raises IndexError
  end.

(** [self._wk_day[i]], an index below zero counting from the end. *)
Definition wk_day (i : Z) : outcome string :=
  if (0 <=? i) && (i <? 7) then
    match nth_error _wk_day (Z.to_nat i) with
    | Some d => Returns d
    | None => Raises IndexError
    end
  else if (-7 <=? i) && (i <? 0) then
    match nth_error _wk_day (Z.to_nat (i + 7)) with
    | Some d => Returns d
    | None => Raises IndexError
    end
  else Raises IndexError.

(** [DS3231.read_time]. *)
Definition read_time (self : DS3231) : outcome the_time :=
  match _bus self with
  | None => Raises AttributeError
  | Some bus =>
      match read_i2c_block_data bus _address _start_reg 7 with
      | Raises e => Raises e
      | Returns t =>
          match item t 6, item t 5, item t 4, item t 3,
                item t 2, item t 1, item t 0 with
          | Returns t6, Returns t5, Returns t4, Returns t3,
            Returns t2, Returns t1, Returns t0 =>
              match wk_day (t3 - 1) with
              | Raises e => Raises e
              | Returns day =>
                  Returns {| YYYY := ljust4 ("20" ++ hex t6)%string;
                             MM := hex02 t5; DD := hex02 t4;
                             hh := hex02 t2; mm := hex02 t1;
                             ss := hex02 t0; ww := day |}
              end
          | _, _, _, _, _, _, _ => Raises IndexError
          end
      end
  end.

(** [DS3231.disp_time(verbose=...)]: the string it returns (and prints
    when [verbose]). *)
Definition disp_time (self : DS3231) : outcome string :=
  match read_time self with
  | Raises e => Raises e
  | Returns d =>
      Returns (YYYY d ++ "/" ++ MM d ++ "/" ++ DD d ++ " "
               ++ hh d ++ ":" ++ mm d ++ ":" ++ ss d)%string
  end.

(** [DS3231._reg_write(data, reg_addr)], as write number [k]. *)
Definition _reg_write (self : DS3231) (k : nat) (data reg_addr : Z)
  : list event * outcome unit :=
  match _bus self with
  | None => ([], Raises AttributeError)
  | Some bus =>
      ([RegWrite reg_addr data], write_byte_data bus k _address reg_addr data)
  end.

(** A run of register writes, stopping at the first that raises. *)
Fixpoint reg_writes (self : DS3231) (k : nat) (ws : list (Z * Z))
  : list event * outcome unit :=
  match ws with
  | [] => ([], Returns tt)
  | (data, reg) :: rest =>
      match _reg_write self k data reg with
      | (e, Returns _) =>
          let '(e', r) := reg_writes self (S k) rest in (e ++ e', r)
      | (e, Raises x) => (e, Raises x)
      end
  end.

(** [DS3231.set_alarm_in_min(minutes)]. *)
Definition set_alarm_in_min (self : DS3231) (minutes : Z)
  : list event * outcome unit :=
  match read_time self with
  | Raises e => ([], Raises e)
  | Returns current_time =>
      match int16 (mm current_time), int16 (hh current_time) with
      | Returns m, Returns h =>
          let new_minute := (m + minutes) mod 60 in
          let new_hour := h + (m + minutes) / 60 in
          match _int_to_bcd new_minute, _int_to_bcd (new_hour mod 24) with
          | Returns bcd_new_minute, Returns bcd_new_hour =>
              reg_writes self 0
                [(0, _alarm1_reg);
                 (bcd_new_minute, _alarm1_reg + 1);
                 (bcd_new_hour, _alarm1_reg + 2);
                 (128, _alarm1_reg + 3);
                 (5, _control_reg)]
          | Raises e, _ => ([], Raises e)
          | _, Raises e => ([], Raises e)
          end
      | Raises e, _ => ([], Raises e)
      | _, Raises e => ([], Raises e)
      end
  end.

(** [MinionToolbox.rtc_time]: both handlers leave the default stamp (they
    differ in what they log and print only). *)
Definition default_time_stamp : string := "9999-99-99_99-99-99".

Definition rtc_time (_rtc_ext : DS3231) : string :=
  match read_time _rtc_ext with
  | Returns d =>
      (YYYY d ++ "-" ++ MM d ++ "-" ++ DD d ++ "_"
       ++ hh d ++ "-" ++ mm d ++ "-" ++ ss d)%string
  | Raises _ => default_time_stamp
  end.

(** The binary-coded decimal of a number: tens in the high nibble, units in
    the low one. *)
Definition bcd (n : Z) : Z := 16 * (n / 10) + n mod 10.

(** Two decimal digits of a number below 100, as text. *)
Definition two_digits (n : Z) : string :=
  (str (n / 10) ++ str (n mod 10))%string.

(** A clock whose registers hold the given seven bytes and whose writes
    return. *)
Definition clock_with (t : list Z) : DS3231 :=
  {| _bus := Some {| read_i2c_block_data := fun _ _ _ => Returns t;
                     write_byte_data := fun _ _ _ _ => Returns tt |} |}.

End Rtc.

(* ====================================================================== *)
(** ** Power off at exit ([minion_hat_gpio.power_off]) *)
(* ====================================================================== *)

Module PowerOff.
Import LightRing.

Definition LED_GREEN : Z := 29.
Definition LED_RED : Z := 32.
Definition OXYBASE_EN : Z := 12.

(** [RuntimeError], which [RPi.GPIO] raises on a channel that is not set
    up, and which [power_off] catches. *)
Definition RuntimeError : exn := OtherError 0.

Definition is_RuntimeError (e : exn) : bool :=
  match e with
  | OtherError 0 => true
  | _ => false
  end.

(** The [GPIO] module as the outcomes of the calls [power_off] makes on it;
    each pin is written at most once. *)
Record GPIO : Type := {
  output : Z -> level -> outcome unit;
  cleanup : outcome unit
}.

Inductive message : Type :=
| ClosingLedRingThread
| TurningOffSerialPortPower
| TurningOffOtherLeds
| CleaningUpGpio
| ErrorDuringPowerOff (e : exn).

Inductive event : Type :=
| Write (pin : Z) (l : level)
| Cleanup
| Log (lvl : log_level) (m : message).

(** A body: how it ends, what it did, and the ring variables after it. *)
Definition P : Type := (outcome unit * list event * RingState)%type.

Definition then_ (p : P) (f : RingState -> P) : P :=
  match p with
  | (Returns _, t, s) => let '(r, t', s') := f s in (r, t ++ t', s')
  | (Raises e, t, s) => (Raises e, t, s)
  end.

Definition log (lvl : log_level) (m : message) (s : RingState) : P :=
  (Returns tt, [Log lvl m], s).

(** [GPIO.output(pin, HIGH if new_state else LOW)]: the body of
    [led_green], [led_red] and [oxybase_enable]. *)
Definition gpio_output (gpio : GPIO) (pin : Z) (new_state : bool)
    (s : RingState) : P :=
  (output gpio pin (level_of new_state), [Write pin (level_of new_state)], s).

(** [light_ring_close_thread] with a write that may raise: [ring_alive] is
    cleared first. *)
Definition close_thread (gpio : GPIO) (s : RingState) : P :=
  let s1 := set_ring_alive false s in
  match output gpio LED_RING LOW with
  | Returns _ => (Returns tt, [Write LED_RING LOW], set_led_ring LOW s1)
  | Raises e => (Raises e, [Write LED_RING LOW], s1)
  end.

Definition gpio_cleanup (gpio : GPIO) (s : RingState) : P :=
  (cleanup gpio, [Cleanup], s).

(** [power_off(keep_hat_leds_on)]. *)
Definition power_off (gpio : GPIO) (keep_hat_leds_on : bool) (s : RingState)
  : P :=
  let body :=
    then_ (log INFO ClosingLedRingThread s) (fun s =>
    then_ (close_thread gpio s) (fun s =>
    then_ (log INFO TurningOffSerialPortPower s) (fun s =>
    then_ (gpio_output gpio OXYBASE_EN false s) (fun s =>
    then_ (if negb keep_hat_leds_on then
             then_ (log INFO TurningOffOtherLeds s) (fun s =>
             then_ (gpio_output gpio LED_GREEN false s) (fun s =>
             gpio_output gpio LED_RED false s))
           else (Returns tt, [], s)) (fun s =>
    then_ (log INFO CleaningUpGpio s) (fun s =>
    gpio_cleanup gpio s)))))) in
  match body with
  | (Raises e, t, s') =>
      if is_RuntimeError e
      then (Returns tt, t ++ [Log WARNING (ErrorDuringPowerOff e)], s')
      else (Raises e, t, s')
  | done => done
  end.

(** The pins a run wrote to, and whether it reached [GPIO.cleanup]. *)
Fixpoint pins_written (t : list event) : list Z :=
  match t with
  | [] => []
  | Write pin _ :: t' => pin :: pins_written t'
  | _ :: t' => pins_written t'
  end.

Fixpoint cleaned_up (t : list event) : bool :=
  match t with
  | [] => false
  | Cleanup :: _ => true
  | _ :: t' => cleaned_up t'
  end.

(** A [GPIO] whose calls return, but for the writes to the pins of [bad],
    which raise [RuntimeError]. *)
Definition gpio_failing_on (bad : list Z) : GPIO :=
  {| output := fun pin _ =>
       if existsb (Z.eqb pin) bad then Raises RuntimeError else Returns tt;
     cleanup := Returns tt |}.

End PowerOff.

(* ====================================================================== *)
(** * Properties of the light-ring controller *)
(* ====================================================================== *)

Module LightRingProofs.
Import LightRing.

Ltac unfold_consts :=
  unfold LIGHT_RING_MAX_ON_TIME, LIGHT_RING_MIN_OFF_TIME,
         LIGHT_RING_REFRESH_DELAY in *.

Ltac case_if :=
  match goal with
  | |- context [if ?b then _ else _] => destruct b eqn:?
  | H : context [if ?b then _ else _] |- _ => destruct b eqn:?
  end.

(** ** The parts of a tick that do not call [sleep] *)

Lemma safety_check_no_high s :
  ~ In (Output LED_RING HIGH) (fst (safety_check s)).
Proof.
  unfold safety_check, light_ring_set.
  destruct (ring_state s) eqn:Hst; simpl.
  - destruct (LIGHT_RING_MAX_ON_TIME <=? ring_on_time s); simpl.
    + intros [H | [H | []]]; discriminate.
    + tauto.
  - tauto.
Qed.

Lemma safety_check_flash_fields s :
  let s' := snd (safety_check s) in
  ring_flashing s' = ring_flashing s /\
  ring_flash_count s' = ring_flash_count s /\
  ring_flash_on_time s' = ring_flash_on_time s /\
  ring_flash_off_time s' = ring_flash_off_time s /\
  flash_counter s' = flash_counter s.
Proof.
  unfold safety_check, light_ring_set.
  destruct s as [st on off fl cnt ton toff al fc led]; simpl.
  destruct st; simpl; [| tauto].
  destruct (LIGHT_RING_MAX_ON_TIME <=? on); simpl; [| tauto].
  destruct al; simpl; tauto.
Qed.

Lemma update_timers_flash_fields s :
  let s' := update_timers s in
  ring_flashing s' = ring_flashing s /\
  ring_flash_count s' = ring_flash_count s /\
  ring_flash_on_time s' = ring_flash_on_time s /\
  ring_flash_off_time s' = ring_flash_off_time s /\
  flash_counter s' = flash_counter s.
Proof.
  unfold update_timers. destruct (ring_state s); simpl; tauto.
Qed.

Lemma flash_vars_before_flash_logic s :
  flash_vars (snd (safety_check (update_timers s))) = flash_vars s.
Proof.
  destruct (safety_check_flash_fields (update_timers s))
    as (A1 & A2 & A3 & A4 & A5).
  destruct (update_timers_flash_fields s) as (B1 & B2 & B3 & B4 & B5).
  unfold flash_vars. cbv zeta in *. congruence.
Qed.

(** The tick that finds the on-timer at the limit: the safety check drives
    the pin low and clears [ring_state], whatever the flash variables. *)
Lemma safety_check_trips s :
  ring_state s = true -> LIGHT_RING_MAX_ON_TIME <= ring_on_time s ->
  let s' := snd (safety_check s) in
  fst (safety_check s) =
    [Output LED_RING LOW; Log WARNING MaxOnTimeReached] /\
  ring_state s' = false /\ led_ring s' = LOW /\ ring_alive s' = true.
Proof.
  intros Hst Hmax. unfold safety_check, light_ring_set.
  rewrite Hst. simpl.
  destruct (Z.leb_spec LIGHT_RING_MAX_ON_TIME (ring_on_time s)); [| lia].
  simpl. repeat split. destruct (ring_alive s) eqn:Ha; simpl; auto.
Qed.

Lemma safety_check_off s :
  ring_state s = false -> safety_check s = ([], s).
Proof.
  intros Hst. unfold safety_check. rewrite Hst. reflexivity.
Qed.

Lemma safety_check_alive s :
  ring_alive s = true -> ring_alive (snd (safety_check s)) = true.
Proof.
  unfold safety_check, light_ring_set.
  destruct s as [st on off fl cnt ton toff al fc led]; simpl.
  intros ->. destruct st; simpl; [| reflexivity].
  destruct (LIGHT_RING_MAX_ON_TIME <=? on); reflexivity.
Qed.

Lemma update_timers_alive s : ring_alive (update_timers s) = ring_alive s.
Proof.
  unfold update_timers. destruct (ring_state s); reflexivity.
Qed.

Lemma last_output_app e1 e2 :
  last_output (e1 ++ e2) =
  match last_output e2 with
  | Some l => Some l
  | None => last_output e1
  end.
Proof.
  induction e1 as [| [pin l | ms | lvl m] e1 IH]; simpl.
  - destruct (last_output e2); reflexivity.
  - rewrite IH. destruct (last_output e2); [reflexivity |].
    destruct (last_output e1); reflexivity.
  - exact IH.
  - exact IH.
Qed.

Lemma high_pulses_app e1 e2 :
  high_pulses (e1 ++ e2) = (high_pulses e1 + high_pulses e2)%nat.
Proof.
  unfold high_pulses. rewrite filter_app, length_app. reflexivity.
Qed.

Lemma high_pulses_safety_check s : high_pulses (fst (safety_check s)) = O.
Proof.
  unfold safety_check, light_ring_set.
  destruct (ring_state s); simpl; [| reflexivity].
  destruct (LIGHT_RING_MAX_ON_TIME <=? ring_on_time s); reflexivity.
Qed.

Lemma light_ring_set_high b s :
  In (Output LED_RING HIGH) (fst (light_ring_set b s)) ->
  b = true /\ LIGHT_RING_MIN_OFF_TIME <= ring_off_time s.
Proof.
  unfold light_ring_set.
  destruct (Bool.eqb (ring_state s) b); simpl.
  { intros [E | []]; discriminate. }
  destruct b; simpl.
  - destruct (Z.ltb_spec (ring_off_time s) LIGHT_RING_MIN_OFF_TIME); simpl.
    + intros [E | []]; discriminate.
    + auto.
  - intros [E | []]; discriminate.
Qed.

Lemma flash_vars_after_flash_set s count t_on t_off :
  let s0 := snd (light_ring_flash_set count t_on t_off s) in
  flash_vars s0 = (true, count, t_on, t_off, 0) /\ ring_alive s0 = true.
Proof.
  destruct s as [st on off fl cnt ton toff al fc led].
  unfold light_ring_flash_set; simpl. destruct fl, al; split; reflexivity.
Qed.

(** The three answers of CPython to a duration. *)
Lemma sleep_rejects_cases (ms : Z) :
  (ms < - SLEEP_LIMIT_MS \/ SLEEP_LIMIT_MS < ms ->
   sleep_rejects ms = Some OverflowError) /\
  (- SLEEP_LIMIT_MS <= ms < 0 -> sleep_rejects ms = Some ValueError) /\
  (0 <= ms <= SLEEP_LIMIT_MS -> sleep_rejects ms = None).
Proof.
  unfold sleep_rejects.
  destruct (Z.ltb_spec ms (- SLEEP_LIMIT_MS));
    destruct (Z.ltb_spec SLEEP_LIMIT_MS ms);
    destruct (Z.ltb_spec ms 0); simpl; unfold SLEEP_LIMIT_MS in *;
    repeat split; intros; try reflexivity; lia.
Qed.

Section WithPlatform.

Variable time_sleep : Z -> outcome unit.

Local Abbreviation flash_logic := (LightRing.flash_logic time_sleep).
Local Abbreviation light_ring_run_thread_tick :=
  (LightRing.light_ring_run_thread_tick time_sleep).
Local Abbreviation run_ticks := (LightRing.run_ticks time_sleep).
Local Abbreviation light_ring_run_thread :=
  (LightRing.light_ring_run_thread time_sleep).
Local Abbreviation step := (LightRing.step time_sleep).
Local Abbreviation reachable := (LightRing.reachable time_sleep).
Local Abbreviation exec_action := (LightRing.exec_action time_sleep).
Local Abbreviation exec := (LightRing.exec time_sleep).
Local Abbreviation Inv := (LightRing.Inv time_sleep).

(** ** Reachability *)

Lemma exec_action_step a s e s' :
  exec_action a s = Some (e, s') -> step s a e s'.
Proof.
  destruct a as [b | c t_on t_off | | ]; simpl; intros H.
  - inversion H; subst.
    replace e with (fst (light_ring_set b s)) by (rewrite H1; reflexivity).
    replace s' with (snd (light_ring_set b s)) by (rewrite H1; reflexivity).
    constructor.
  - destruct (time_sleep t_on) as [[] | x] eqn:Hon; [| discriminate].
    destruct (time_sleep t_off) as [[] | y] eqn:Hoff; [| discriminate].
    inversion H as [H1].
    replace e with (fst (light_ring_flash_set c t_on t_off s))
      by (rewrite H1; reflexivity).
    replace s' with (snd (light_ring_flash_set c t_on t_off s))
      by (rewrite H1; reflexivity).
    constructor; assumption.
  - inversion H; subst. apply (step_close s).
  - destruct (ring_alive s) eqn:Ha; [| discriminate].
    destruct (light_ring_run_thread_tick s) as [e0 [s0 | x]] eqn:Ht;
      try discriminate.
    inversion H; subst. now constructor.
Qed.

Lemma exec_reachable l : forall s s',
  reachable s -> exec l s = Some s' -> reachable s'.
Proof.
  induction l as [| a l IH]; simpl; intros s s' Hr H.
  - now inversion H; subst.
  - destruct (exec_action a s) as [[e s1] |] eqn:Ha; [| discriminate].
    apply (IH s1 s'); [| exact H].
    eapply reach_step; [exact Hr |].
    apply exec_action_step; exact Ha.
Qed.

(** ** The invariant of the controller *)

Lemma inv_initial : Inv initial_state.
Proof.
  constructor; simpl; unfold_consts; try lia; discriminate.
Qed.

Lemma inv_light_ring_set b s : Inv s -> Inv (snd (light_ring_set b s)).
Proof.
  intros [H1 H2 H3 H4 H5]. unfold light_ring_set.
  destruct (Bool.eqb (ring_state s) b) eqn:Heq; simpl.
  { now constructor. }
  destruct (b && (ring_off_time s <? LIGHT_RING_MIN_OFF_TIME)) eqn:Hg; simpl.
  { now constructor. }
  destruct s as [st on off fl cnt ton toff al fc led]; simpl in *.
  destruct b; simpl in *.
  - apply Z.ltb_ge in Hg.
    assert (on = 0) by (destruct (Z.eq_dec on 0) as [|Hn]; [assumption |];
                        specialize (H4 Hn); unfold_consts; lia).
    subst on. destruct al; constructor; simpl; unfold_consts; try lia; auto.
  - destruct al; constructor; simpl; try lia; auto; discriminate.
Qed.

Lemma inv_light_ring_flash_set c t_on t_off s :
  time_sleep t_on = Returns tt -> time_sleep t_off = Returns tt ->
  Inv s -> Inv (snd (light_ring_flash_set c t_on t_off s)).
Proof.
  intros Hon Hoff [H1 H2 H3 H4 H5].
  destruct s as [st on off fl cnt ton toff al fc led].
  unfold light_ring_flash_set; simpl in *.
  destruct fl, al; constructor; simpl; auto.
Qed.

Lemma inv_light_ring_close_thread s :
  Inv s -> Inv (snd (light_ring_close_thread s)).
Proof.
  intros [H1 H2 H3 H4 H5]. destruct s; constructor; simpl in *; auto.
  discriminate.
Qed.

Lemma inv_update_timers s :
  Inv s ->
  let s1 := update_timers s in
  (ring_flashing s1 = true ->
   time_sleep (ring_flash_on_time s1) = Returns tt) /\
  (ring_flashing s1 = true ->
   time_sleep (ring_flash_off_time s1) = Returns tt) /\
  (ring_on_time s1 <> 0 -> ring_off_time s1 = 0) /\
  (led_ring s1 = HIGH -> ring_state s1 = true).
Proof.
  intros [H1 H2 H3 H4 H5]. unfold update_timers.
  destruct s as [st on off fl cnt ton toff al fc led]; simpl in *.
  destruct st; simpl; repeat split; auto; lia.
Qed.

Lemma inv_safety_check s :
  (ring_flashing s = true -> time_sleep (ring_flash_on_time s) = Returns tt) ->
  (ring_flashing s = true -> time_sleep (ring_flash_off_time s) = Returns tt) ->
  (ring_on_time s <> 0 -> ring_off_time s = 0) ->
  (led_ring s = HIGH -> ring_state s = true) ->
  Inv (snd (safety_check s)).
Proof.
  intros H1 H2 H4 H5. unfold safety_check, light_ring_set.
  destruct s as [st on off fl cnt ton toff al fc led]; simpl in *.
  destruct st; simpl.
  - destruct (LIGHT_RING_MAX_ON_TIME <=? on) eqn:Hmax; simpl.
    + destruct al; constructor; simpl; auto; discriminate.
    + apply Z.leb_gt in Hmax. constructor; simpl; auto.
  - constructor; simpl; auto. discriminate.
Qed.

Lemma inv_flash_logic s e s' :
  Inv s -> flash_logic s = (e, Returns s') -> Inv s'.
Proof.
  intros [H1 H2 H3 H4 H5]. unfold LightRing.flash_logic.
  destruct s as [st on off fl cnt ton toff al fc led]; simpl in *.
  destruct fl.
  - pose proof (H1 eq_refl) as K1. pose proof (H2 eq_refl) as K2.
    destruct (fc <? cnt).
    + rewrite K1, K2.
      intros H; inversion H; subst. constructor; simpl; auto. discriminate.
    + intros H; inversion H; subst. constructor; simpl; auto; discriminate.
  - intros H; inversion H; subst. constructor; simpl; auto.
Qed.

Lemma flash_logic_returns s :
  (ring_flashing s = true -> time_sleep (ring_flash_on_time s) = Returns tt) ->
  (ring_flashing s = true -> time_sleep (ring_flash_off_time s) = Returns tt) ->
  exists e s', flash_logic s = (e, Returns s').
Proof.
  intros H1 H2. unfold LightRing.flash_logic.
  destruct (ring_flashing s); [| eauto].
  destruct (flash_counter s <? ring_flash_count s); [| eauto].
  rewrite (H1 eq_refl), (H2 eq_refl). eauto.
Qed.

Lemma tick_unfold s :
  light_ring_run_thread_tick s =
  (fst (safety_check (update_timers s))
     ++ fst (flash_logic (snd (safety_check (update_timers s)))),
   snd (flash_logic (snd (safety_check (update_timers s))))).
Proof.
  unfold LightRing.light_ring_run_thread_tick.
  destruct (safety_check (update_timers s)) as [e2 s2]; simpl.
  destruct (flash_logic s2) as [e3 r]; reflexivity.
Qed.

Lemma inv_tick s e s' :
  Inv s -> light_ring_run_thread_tick s = (e, Returns s') -> Inv s'.
Proof.
  intros HI. rewrite tick_unfold. intros H. inversion H as [[He Hs]].
  destruct (inv_update_timers s HI) as (A & B & C & D).
  pose proof (inv_safety_check _ A B C D) as HI2.
  destruct (flash_logic (snd (safety_check (update_timers s)))) as [e3 r] eqn:Hf.
  simpl in Hs. subst r. eapply inv_flash_logic; eauto.
Qed.

Lemma inv_step s a e s' : Inv s -> step s a e s' -> Inv s'.
Proof.
  intros HI Hst. destruct Hst.
  - now apply inv_light_ring_set.
  - now apply inv_light_ring_flash_set.
  - now apply inv_light_ring_close_thread.
  - eapply inv_tick; eauto.
Qed.

Lemma reachable_inv s : reachable s -> Inv s.
Proof.
  induction 1 as [| s a e s' _ IH Hst].
  - exact inv_initial.
  - eapply inv_step; eauto.
Qed.

(** From a reachable state the loop body runs to its end. *)
Lemma tick_returns s :
  reachable s -> exists e s', light_ring_run_thread_tick s = (e, Returns s').
Proof.
  intros Hr. pose proof (reachable_inv s Hr) as HI.
  destruct (inv_update_timers s HI) as (A & B & C & D).
  destruct (inv_safety_check _ A B C D) as [A' B' _ _ _].
  destruct (flash_logic_returns _ A' B') as (e3 & s3 & Hf).
  rewrite tick_unfold, Hf. simpl. eauto.
Qed.

(** Between two steps the pin is high only with the on-timer below the
    maximum on-time. *)
Lemma led_high_below_max s :
  reachable s -> led_ring s = HIGH ->
  ring_state s = true /\ ring_on_time s < LIGHT_RING_MAX_ON_TIME.
Proof.
  intros Hr Hled. destruct (reachable_inv s Hr) as [_ _ H3 _ H5]. auto.
Qed.

(** ** The flash logic *)

Lemma flash_logic_high s :
  In (Output LED_RING HIGH) (fst (flash_logic s)) ->
  ring_flashing s = true /\ flash_counter s < ring_flash_count s.
Proof.
  unfold LightRing.flash_logic.
  destruct (ring_flashing s); [| simpl; tauto].
  destruct (Z.ltb_spec (flash_counter s) (ring_flash_count s)); [auto |].
  simpl; tauto.
Qed.

Lemma flash_logic_end s e s' :
  flash_logic s = (e, Returns s') ->
  ring_state s' = ring_state s /\
  (e = [] /\ led_ring s' = led_ring s \/
   last_output e = Some LOW /\ led_ring s' = LOW).
Proof.
  unfold LightRing.flash_logic.
  destruct s as [st on off fl cnt ton toff al fc led]; simpl.
  destruct fl.
  - destruct (fc <? cnt).
    + destruct (time_sleep ton) as [[] | x]; [| discriminate].
      destruct (time_sleep toff) as [[] | y]; [| discriminate].
      intros H; inversion H; subst; simpl. auto.
    + intros H; inversion H; subst; simpl. auto.
  - intros H; inversion H; subst; simpl. auto.
Qed.

Lemma flash_logic_frame s e s' :
  flash_logic s = (e, Returns s') ->
  ring_state s' = ring_state s /\
  ring_on_time s' = ring_on_time s /\
  ring_off_time s' = ring_off_time s /\
  ring_alive s' = ring_alive s /\
  (led_ring s = LOW -> led_ring s' = LOW).
Proof.
  unfold LightRing.flash_logic.
  destruct s as [st on off fl cnt ton toff al fc led]; simpl.
  destruct fl.
  - destruct (fc <? cnt).
    + destruct (time_sleep ton) as [[] | x]; [| discriminate].
      destruct (time_sleep toff) as [[] | y]; [| discriminate].
      intros H; inversion H; subst; simpl. auto.
    + intros H; inversion H; subst; simpl. auto.
  - intros H; inversion H; subst; simpl. auto.
Qed.

(** With no flash step due the flash logic writes nothing, and no step is
    due after it. *)
Lemma flash_logic_not_due s :
  flash_step_due s = false ->
  exists s',
    flash_logic s = ([], Returns s') /\
    ring_state s' = ring_state s /\ led_ring s' = led_ring s /\
    ring_alive s' = ring_alive s /\
    ring_on_time s' = ring_on_time s /\ ring_off_time s' = ring_off_time s /\
    flash_step_due s' = false.
Proof.
  unfold flash_step_due, LightRing.flash_logic.
  destruct s as [st on off fl cnt ton toff al fc led]; simpl.
  destruct fl; simpl.
  - intros ->. eexists. split; [reflexivity |]. simpl. auto 8.
  - intros _. eexists. split; [reflexivity |]. simpl. auto 8.
Qed.

(** A due flash step starts by driving the pin high, and is a whole pulse
    when [sleep] accepts both durations. *)
Lemma flash_logic_due s :
  flash_step_due s = true ->
  (exists e4, fst (flash_logic s) = Output LED_RING HIGH :: e4) /\
  (time_sleep (ring_flash_on_time s) = Returns tt ->
   time_sleep (ring_flash_off_time s) = Returns tt ->
   flash_logic s =
     (flash_pulse (ring_flash_on_time s) (ring_flash_off_time s),
      Returns (set_flash_counter (flash_counter s + 1)
                 (set_led_ring LOW (set_led_ring HIGH s))))).
Proof.
  unfold flash_step_due, LightRing.flash_logic.
  destruct (ring_flashing s); simpl; [| discriminate].
  intros ->. split.
  - destruct (time_sleep (ring_flash_on_time s)) as [[] | x];
      [| simpl; eauto].
    destruct (time_sleep (ring_flash_off_time s)) as [[] | y]; simpl; eauto.
  - intros -> ->. reflexivity.
Qed.

Lemma flash_step_due_vars s1 s2 :
  flash_vars s1 = flash_vars s2 -> flash_step_due s1 = flash_step_due s2.
Proof.
  unfold flash_vars, flash_step_due. intros H. inversion H. congruence.
Qed.

(** A tick inside a sequence: one pulse, and the counter goes up by one. *)
Lemma tick_flash_step s count t_on t_off k :
  flash_vars s = (true, count, t_on, t_off, k) ->
  k < count ->
  time_sleep t_on = Returns tt -> time_sleep t_off = Returns tt ->
  exists s',
    light_ring_run_thread_tick s
      = (fst (safety_check (update_timers s)) ++ flash_pulse t_on t_off,
         Returns s') /\
    flash_vars s' = (true, count, t_on, t_off, k + 1) /\
    ring_alive s' = ring_alive (snd (safety_check (update_timers s))).
Proof.
  intros Hv Hk Hon Hoff.
  rewrite tick_unfold.
  pose proof (flash_vars_before_flash_logic s) as Hv2. rewrite Hv in Hv2.
  destruct (safety_check (update_timers s)) as [e2 s2]. simpl in *.
  unfold flash_vars in Hv2. inversion Hv2 as [[F1 F2 F3 F4 F5]].
  unfold LightRing.flash_logic. rewrite F1.
  destruct (Z.ltb_spec (flash_counter s2) (ring_flash_count s2)); [| lia].
  subst count t_on t_off k. rewrite Hon, Hoff.
  simpl. eexists. split; [reflexivity |].
  unfold flash_vars. simpl. rewrite F1. auto.
Qed.

(** The tick after the last step: no pulse, the sequence is closed. *)
Lemma tick_flash_done s count t_on t_off k :
  flash_vars s = (true, count, t_on, t_off, k) ->
  count <= k ->
  exists s',
    light_ring_run_thread_tick s
      = (fst (safety_check (update_timers s)), Returns s') /\
    ring_flashing s' = false /\ flash_counter s' = 0 /\
    ring_alive s' = ring_alive (snd (safety_check (update_timers s))).
Proof.
  intros Hv Hk.
  rewrite tick_unfold.
  pose proof (flash_vars_before_flash_logic s) as Hv2. rewrite Hv in Hv2.
  destruct (safety_check (update_timers s)) as [e2 s2]. simpl in *.
  unfold flash_vars in Hv2. inversion Hv2 as [[F1 F2 F3 F4 F5]].
  unfold LightRing.flash_logic. rewrite F1.
  destruct (Z.ltb_spec (flash_counter s2) (ring_flash_count s2)); [lia |].
  simpl. exists (set_flash_counter 0 (set_ring_flashing false s2)).
  rewrite app_nil_r. auto.
Qed.

(** A tick with no sequence active: no pulse, and none becomes active. *)
Lemma tick_not_flashing s :
  ring_flashing s = false ->
  exists s',
    light_ring_run_thread_tick s
      = (fst (safety_check (update_timers s)), Returns s') /\
    ring_flashing s' = false /\ flash_counter s' = flash_counter s.
Proof.
  intros Hfl. rewrite tick_unfold.
  pose proof (flash_vars_before_flash_logic s) as Hv2.
  destruct (safety_check (update_timers s)) as [e2 s2]. simpl in *.
  unfold flash_vars in Hv2. inversion Hv2 as [[F1 F2 F3 F4 F5]].
  unfold LightRing.flash_logic. rewrite F1, Hfl.
  simpl. exists s2. rewrite app_nil_r. rewrite F1, Hfl. auto.
Qed.

(** A tick with the ring off and no flash step due writes nothing. *)
Lemma tick_quiet s :
  ring_state s = false -> flash_step_due s = false ->
  exists s',
    light_ring_run_thread_tick s = ([], Returns s') /\
    ring_state s' = false /\ led_ring s' = led_ring s /\
    flash_step_due s' = false.
Proof.
  intros Hst Hdue. rewrite tick_unfold.
  assert (Hst1 : ring_state (update_timers s) = false)
    by (unfold update_timers; rewrite Hst; simpl; exact Hst).
  assert (Hled1 : led_ring (update_timers s) = led_ring s)
    by (unfold update_timers; rewrite Hst; reflexivity).
  rewrite (safety_check_off _ Hst1). cbn [fst snd].
  assert (Hdue1 : flash_step_due (update_timers s) = false).
  { rewrite <- Hdue. apply flash_step_due_vars.
    destruct (update_timers_flash_fields s) as (B1 & B2 & B3 & B4 & B5).
    unfold flash_vars. cbv zeta in *. congruence. }
  destruct (flash_logic_not_due _ Hdue1) as (s' & Hf & A & B & _ & _ & _ & C).
  exists s'. rewrite Hf. simpl. repeat split; congruence.
Qed.

(** ** Runs of the thread loop *)

Lemma run_thread_S n s :
  ring_alive s = true ->
  light_ring_run_thread (S n) s =
  match light_ring_run_thread_tick s with
  | (e, Returns s') =>
      let '(e', r) := light_ring_run_thread n s' in (e ++ e', r)
  | (e, Raises x) => (e, Raises x)
  end.
Proof.
  intros Ha. cbn [LightRing.light_ring_run_thread]. rewrite Ha. reflexivity.
Qed.

(** The first [j] iterations inside a sequence with at least [j] steps
    left. *)
Lemma run_thread_flash (j : nat) : forall s count t_on t_off k,
  flash_vars s = (true, count, t_on, t_off, k) ->
  ring_alive s = true ->
  k + Z.of_nat j <= count ->
  time_sleep t_on = Returns tt -> time_sleep t_off = Returns tt ->
  exists e s',
    light_ring_run_thread j s = (e, Returns s') /\
    high_pulses e = j /\
    flash_vars s' = (true, count, t_on, t_off, k + Z.of_nat j) /\
    ring_alive s' = true.
Proof.
  induction j as [| j IH]; intros s count t_on t_off k Hv Ha Hk Hon Hoff.
  - exists [], s. simpl. rewrite Z.add_0_r. auto.
  - assert (Hlt : k < count) by lia.
    destruct (tick_flash_step s count t_on t_off k Hv Hlt Hon Hoff)
      as (s1 & Ht & Hv1 & Ha1).
    rewrite safety_check_alive in Ha1
      by (rewrite update_timers_alive; exact Ha).
    assert (Hle : k + 1 + Z.of_nat j <= count) by lia.
    destruct (IH s1 count t_on t_off (k + 1) Hv1 Ha1 Hle Hon Hoff)
      as (e1 & s' & Hr & Hp1 & Hv' & Ha').
    exists ((fst (safety_check (update_timers s)) ++ flash_pulse t_on t_off)
              ++ e1), s'.
    rewrite (run_thread_S j s Ha), Ht, Hr. split; [reflexivity |].
    split; [| split; [| exact Ha']].
    + rewrite !high_pulses_app, high_pulses_safety_check, Hp1. reflexivity.
    + rewrite Hv'. f_equal. lia.
Qed.

(** With no sequence active, the loop emits no pulse and starts none. *)
Lemma run_thread_not_flashing (m : nat) : forall s,
  ring_flashing s = false ->
  exists e s',
    light_ring_run_thread m s = (e, Returns s') /\
    high_pulses e = O /\
    ring_flashing s' = false /\ flash_counter s' = flash_counter s.
Proof.
  induction m as [| m IH]; intros s Hfl.
  - exists [], s. auto.
  - destruct (ring_alive s) eqn:Ha.
    + destruct (tick_not_flashing s Hfl) as (s1 & Ht & Hfl1 & Hfc1).
      destruct (IH s1 Hfl1) as (e1 & s' & Hr & Hp & Hfl' & Hfc').
      exists (fst (safety_check (update_timers s)) ++ e1), s'.
      rewrite (run_thread_S m s Ha), Ht, Hr. split; [reflexivity |].
      rewrite high_pulses_app, high_pulses_safety_check, Hp.
      repeat split; congruence.
    + exists [], s. cbn [LightRing.light_ring_run_thread]. rewrite Ha. auto.
Qed.

(** With the ring off and no flash step due, the loop writes nothing. *)
Lemma run_thread_quiet (m : nat) : forall s,
  ring_state s = false -> flash_step_due s = false ->
  exists s',
    light_ring_run_thread m s = ([], Returns s') /\
    ring_state s' = false /\ led_ring s' = led_ring s.
Proof.
  induction m as [| m IH]; intros s Hst Hdue.
  - exists s. auto.
  - destruct (ring_alive s) eqn:Ha.
    + destruct (tick_quiet s Hst Hdue) as (s1 & Ht & Hst1 & Hled1 & Hdue1).
      destruct (IH s1 Hst1 Hdue1) as (s' & Hr & Hst' & Hled').
      exists s'. rewrite (run_thread_S m s Ha), Ht, Hr.
      repeat split; congruence.
    + exists s. cbn [LightRing.light_ring_run_thread]. rewrite Ha. auto.
Qed.

(** ** C1 *)

(** C1, amended.  In every state in which the ring is on and the timer
    update of the tick brings the cumulative on-timer to the maximum on-time
    (60 s), the safety check of the tick writes LOW to the ring pin, logs
    the safety trip and clears [ring_state] before the flash logic runs.
    With no flash step due on that tick, nothing more is written: the tick
    ends with the ring off and the pin low, and the following iterations of
    the loop, as long as no request arrives, write nothing.  With a flash
    step due, the flash logic, which looks at neither [ring_state] nor the
    on-timer, drives the pin high again right after the forced LOW; when
    [sleep] accepts the two durations this is one whole pulse, and the tick
    ends with the ring logically off and the pin low. *)
Theorem tick_forces_ring_off (s : RingState) :
  ring_state s = true ->
  LIGHT_RING_MAX_ON_TIME <= ring_on_time s + LIGHT_RING_REFRESH_DELAY ->
  exists s2 e3 r,
    safety_check (update_timers s)
      = ([Output LED_RING LOW; Log WARNING MaxOnTimeReached], s2) /\
    ring_state s2 = false /\ led_ring s2 = LOW /\
    flash_logic s2 = (e3, r) /\
    light_ring_run_thread_tick s
      = ([Output LED_RING LOW; Log WARNING MaxOnTimeReached] ++ e3, r) /\
    (flash_step_due s = false ->
     e3 = [] /\
     exists s',
       r = Returns s' /\ ring_state s' = false /\ led_ring s' = LOW /\
       forall n : nat, exists s'',
         light_ring_run_thread n s' = ([], Returns s'') /\
         ring_state s'' = false /\ led_ring s'' = LOW) /\
    (flash_step_due s = true ->
     (exists e4, e3 = Output LED_RING HIGH :: e4) /\
     (time_sleep (ring_flash_on_time s) = Returns tt ->
      time_sleep (ring_flash_off_time s) = Returns tt ->
      e3 = flash_pulse (ring_flash_on_time s) (ring_flash_off_time s) /\
      exists s',
        r = Returns s' /\ ring_state s' = false /\ led_ring s' = LOW)).
Proof.
  intros Hst Hmax.
  assert (Hst1 : ring_state (update_timers s) = true)
    by (unfold update_timers; rewrite Hst; simpl; exact Hst).
  assert (Hon1 : LIGHT_RING_MAX_ON_TIME <= ring_on_time (update_timers s))
    by (unfold update_timers; rewrite Hst; simpl; exact Hmax).
  destruct (safety_check_trips _ Hst1 Hon1) as (Hev & Hst2 & Hled2 & _).
  pose proof (flash_vars_before_flash_logic s) as Hv.
  pose proof (tick_unfold s) as Ht.
  destruct (safety_check (update_timers s)) as [e2 s2] eqn:Hsc.
  cbn [fst snd] in *. subst e2.
  destruct (flash_logic s2) as [e3 r] eqn:Hf. cbn [fst snd] in Ht.
  exists s2, e3, r.
  do 4 (split; [reflexivity || assumption |]).
  split; [exact Ht |].
  pose proof (flash_step_due_vars _ _ Hv) as Hdue.
  assert (Hon2 : ring_flash_on_time s2 = ring_flash_on_time s)
    by (unfold flash_vars in Hv; inversion Hv; reflexivity).
  assert (Hoff2 : ring_flash_off_time s2 = ring_flash_off_time s)
    by (unfold flash_vars in Hv; inversion Hv; reflexivity).
  split.
  - intros Hd. rewrite <- Hdue in Hd.
    destruct (flash_logic_not_due _ Hd) as (s' & Hf' & A & B & _ & _ & _ & C).
    rewrite Hf in Hf'. inversion Hf'; subst e3 r.
    split; [reflexivity |].
    exists s'. split; [reflexivity |].
    assert (Hst' : ring_state s' = false) by congruence.
    assert (Hled' : led_ring s' = LOW) by congruence.
    split; [exact Hst' |]. split; [exact Hled' |].
    intros n. destruct (run_thread_quiet n s' Hst' C) as (s'' & Hr & E & F).
    exists s''. repeat split; congruence.
  - intros Hd. rewrite <- Hdue in Hd.
    destruct (flash_logic_due _ Hd) as ((e4 & He4) & Hpulse).
    rewrite Hf in He4. cbn [fst] in He4.
    split; [exists e4; exact He4 |].
    intros Hon Hoff. rewrite <- Hon2 in Hon. rewrite <- Hoff2 in Hoff.
    specialize (Hpulse Hon Hoff). rewrite Hf in Hpulse.
    inversion Hpulse as [[He Hr]]. rewrite Hon2, Hoff2.
    split; [reflexivity |].
    eexists. split; [reflexivity |]. simpl. auto.
Qed.

(** ** C2 *)

(** C2, amended.  A step that drives the ring pin high is either a
    [light_ring_set(True)] request taken with the off-timer at or above the
    minimum off-time (5 s), or a tick whose flash logic emits a pulse (a
    flash sequence is active and not yet complete); the safety check of the
    tick never drives the pin high. *)
Theorem high_output_origin (s : RingState) (a : action) (e : list event)
    (s' : RingState) :
  step s a e s' ->
  In (Output LED_RING HIGH) e ->
  (a = Set_ true /\ LIGHT_RING_MIN_OFF_TIME <= ring_off_time s) \/
  (a = Tick /\ ring_flashing s = true /\
   flash_counter s < ring_flash_count s).
Proof.
  intros Hst Hin. destruct Hst as [s b | s c t_on t_off _ _ | s | s e s' _ Ht].
  - left. destruct (light_ring_set_high _ _ Hin) as [-> H]. auto.
  - exfalso. unfold light_ring_flash_set in Hin.
    destruct (ring_flashing s); simpl in Hin.
    + destruct Hin as [H | []]; discriminate.
    + exact Hin.
  - exfalso. simpl in Hin. destruct Hin as [H | []]; discriminate.
  - right. split; [reflexivity |].
    rewrite tick_unfold in Ht. inversion Ht as [[He Hs]]. clear Ht.
    rewrite <- He in Hin. apply in_app_or in Hin.
    destruct Hin as [Hin | Hin].
    + exfalso. exact (safety_check_no_high _ Hin).
    + apply flash_logic_high in Hin.
      destruct (safety_check_flash_fields (update_timers s))
        as (A1 & A2 & _ & _ & A5).
      destruct (update_timers_flash_fields s) as (B1 & B2 & _ & _ & B5).
      cbv zeta in *. rewrite A1, A2, A5, B1, B2, B5 in Hin. exact Hin.
Qed.

(** ** C4 *)


End WithPlatform.

Arguments exec_action_step {time_sleep}.
Arguments exec_reachable {time_sleep}.
Arguments inv_initial {time_sleep}.
Arguments inv_light_ring_set {time_sleep}.
Arguments inv_light_ring_flash_set {time_sleep}.
Arguments inv_light_ring_close_thread {time_sleep}.
Arguments inv_update_timers {time_sleep}.
Arguments inv_safety_check {time_sleep}.
Arguments inv_flash_logic {time_sleep}.
Arguments flash_logic_returns {time_sleep}.
Arguments tick_unfold {time_sleep}.
Arguments inv_tick {time_sleep}.
Arguments inv_step {time_sleep}.
Arguments reachable_inv {time_sleep}.
Arguments tick_returns {time_sleep}.
Arguments led_high_below_max {time_sleep}.
Arguments flash_logic_high {time_sleep}.
Arguments flash_logic_end {time_sleep}.
Arguments flash_logic_frame {time_sleep}.
Arguments flash_logic_not_due {time_sleep}.
Arguments flash_logic_due {time_sleep}.
Arguments tick_flash_step {time_sleep}.
Arguments tick_flash_done {time_sleep}.
Arguments tick_not_flashing {time_sleep}.
Arguments tick_quiet {time_sleep}.
Arguments run_thread_S {time_sleep}.
Arguments run_thread_flash {time_sleep}.
Arguments run_thread_not_flashing {time_sleep}.
Arguments run_thread_quiet {time_sleep}.

(** ** Concrete runs, on a platform that accepts every duration CPython lets
       through *)

Lemma tick_forces_ring_off_witness :
  let s := mkRing true 59500 0 true 1000 5 5 true 119 LOW in
  exists e3 r,
    light_ring_run_thread_tick accepting_sleep s
    = ([Output LED_RING LOW; Log WARNING MaxOnTimeReached] ++ e3, r) /\
    (exists e4, e3 = Output LED_RING HIGH :: e4) /\
    e3 = flash_pulse 5 5 /\
    exists s', r = Returns s' /\ ring_state s' = false /\ led_ring s' = LOW.
Proof.
  cbv zeta.
  destruct (tick_forces_ring_off accepting_sleep
              (mkRing true 59500 0 true 1000 5 5 true 119 LOW))
    as (s2 & e3 & r & _ & _ & _ & _ & Ht & _ & Hdue);
    [reflexivity | vm_compute; discriminate |].
  destruct Hdue as (Hhigh & Hpulse); [reflexivity |].
  exists e3, r. split; [exact Ht |]. split; [exact Hhigh |].
  apply Hpulse; reflexivity.
Defined.

(** C1, as stated, fails.  After [light_ring_set(True)], 119 ticks and
    [light_ring_flash_set(1000, 3600000, 0)] the ring is on, the pin high
    and the on-timer at 59.5 s.  The next tick brings the on-timer to 60 s:
    its safety check writes LOW, and its flash logic then drives the pin
    high again and keeps it high for 3600000 ms; the tick after it pulses
    the pin high once more, with the ring logically off. *)
Lemma flash_pulse_after_forced_off :
  let s := mkRing true 59500 0 true 1000 3600000 0 true 0 HIGH in
  let s' := mkRing false 60000 0 true 1000 3600000 0 true 1 LOW in
  let s'' := mkRing false 0 500 true 1000 3600000 0 true 2 LOW in
  exec accepting_sleep
       (Set_ true :: repeat Tick 119 ++ [Flash 1000 3600000 0])
       initial_state = Some s /\
  reachable accepting_sleep s /\
  ring_state s = true /\
  LIGHT_RING_MAX_ON_TIME <= ring_on_time s + LIGHT_RING_REFRESH_DELAY /\
  step accepting_sleep s Tick
       [Output LED_RING LOW; Log WARNING MaxOnTimeReached;
        Output LED_RING HIGH; Sleep 3600000; Output LED_RING LOW; Sleep 0]
       s' /\
  step accepting_sleep s' Tick
       [Output LED_RING HIGH; Sleep 3600000; Output LED_RING LOW; Sleep 0]
       s''.
Proof.
  cbv zeta.
  assert (Hx : exec accepting_sleep
                 (Set_ true :: repeat Tick 119 ++ [Flash 1000 3600000 0])
                 initial_state
               = Some (mkRing true 59500 0 true 1000 3600000 0 true 0 HIGH))
    by (vm_compute; reflexivity).
  split; [exact Hx |].
  split; [exact (exec_reachable _ _ _ reach_init Hx) |].
  split; [reflexivity |].
  split; [vm_compute; discriminate |].
  split; constructor; vm_compute; reflexivity.
Qed.

(** C2, as stated, fails.  After [light_ring_set(True)], one tick,
    [light_ring_set(False)] and [light_ring_flash_set(1, 250, 250)] the ring
    is off, the pin low and the off-timer at 0; the next tick brings the
    off-timer to 0.5 s and its flash logic drives the pin high. *)
Lemma flash_pulse_below_min_off_time :
  let s := mkRing false 500 0 true 1 250 250 true 0 LOW in
  let s' := mkRing false 0 500 true 1 250 250 true 1 LOW in
  exec accepting_sleep [Set_ true; Tick; Set_ false; Flash 1 250 250]
       initial_state = Some s /\
  reachable accepting_sleep s /\
  step accepting_sleep s Tick (flash_pulse 250 250) s' /\
  In (Output LED_RING HIGH) (flash_pulse 250 250) /\
  ring_off_time s < LIGHT_RING_MIN_OFF_TIME /\
  ring_off_time s' < LIGHT_RING_MIN_OFF_TIME.
Proof.
  cbv zeta.
  assert (Hx : exec accepting_sleep
                 [Set_ true; Tick; Set_ false; Flash 1 250 250] initial_state
               = Some (mkRing false 500 0 true 1 250 250 true 0 LOW))
    by (vm_compute; reflexivity).
  split; [exact Hx |].
  split; [exact (exec_reachable _ _ _ reach_init Hx) |].
  split; [constructor; vm_compute; reflexivity |].
  split; [simpl; auto |].
  split; vm_compute; reflexivity.
Qed.

Lemma high_output_origin_witness :
  (Set_ true = Set_ true /\
   LIGHT_RING_MIN_OFF_TIME <= ring_off_time initial_state) \/
  (Set_ true = Tick /\ ring_flashing initial_state = true /\
   flash_counter initial_state < ring_flash_count initial_state).
Proof.
  apply (high_output_origin accepting_sleep initial_state (Set_ true)
           (fst (light_ring_set true initial_state))
           (snd (light_ring_set true initial_state))).
  - constructor.
  - vm_compute. left. reflexivity.
Defined.

(** ** C3 *)

(** C3.  Right after [light_ring_flash_set(count, time_on, time_off)], from
    any state and so also while a sequence is in progress, the three flash
    parameters are the new arguments, [flash_counter] is 0, [ring_flashing]
    is True and the thread is alive; and the state after the call is the
    same whatever the flash variables of the superseded sequence were, so
    nothing of it is left for later ticks. *)
Theorem flash_set_supersedes (s : RingState) (count time_on time_off : Z) :
  let s' := snd (light_ring_flash_set count time_on time_off s) in
  ring_flash_count s' = count /\
  ring_flash_on_time s' = time_on /\
  ring_flash_off_time s' = time_off /\
  flash_counter s' = 0 /\
  ring_flashing s' = true /\
  ring_alive s' = true /\
  forall (fl : bool) (c0 on0 off0 k0 : Z),
    snd (light_ring_flash_set count time_on time_off
           (set_flash_counter k0
              (set_flash_params c0 on0 off0 (set_ring_flashing fl s)))) = s'.
Proof.
  destruct s as [st on off fl cnt ton toff al fc led].
  unfold light_ring_flash_set; simpl.
  destruct fl, al; simpl; repeat split; intros [] ? ? ? ?; reflexivity.
Qed.



(** ** C9 *)

(** C9.  [light_ring_close_thread] writes LOW to the ring pin and clears
    [ring_alive], every other variable keeping its value, [ring_state]
    among them; if the ring was logically on, a following
    [light_ring_set(True)] finds [ring_state == True], writes nothing to the
    pin and changes no variable: the ring stays logically on with its pin
    low. *)
Theorem close_thread_keeps_ring_state (s : RingState) :
  let s1 := snd (light_ring_close_thread s) in
  fst (light_ring_close_thread s) = [Output LED_RING LOW] /\
  s1 = set_led_ring LOW (set_ring_alive false s) /\
  led_ring s1 = LOW /\
  ring_alive s1 = false /\
  ring_state s1 = ring_state s /\
  (ring_state s = true ->
   light_ring_set true s1 = ([Log DEBUG (NoChangeInState true)], s1) /\
   ring_state s1 = true /\ led_ring s1 = LOW).
Proof.
  destruct s as [st on off fl cnt ton toff al fc led]; simpl.
  do 5 (split; [reflexivity |]).
  intros Hst. subst st. auto.
Qed.

Lemma close_thread_keeps_ring_state_witness :
  let s := snd (light_ring_set true initial_state) in
  let s1 := snd (light_ring_close_thread s) in
  led_ring s = HIGH /\
  light_ring_set true s1 = ([Log DEBUG (NoChangeInState true)], s1) /\
  ring_state s1 = true /\ led_ring s1 = LOW.
Proof.
  split; [reflexivity |].
  apply (close_thread_keeps_ring_state (snd (light_ring_set true initial_state))).
  reflexivity.
Defined.

End LightRingProofs.

(* ====================================================================== *)
(** * Properties of the recovery transmission retry *)
(* ====================================================================== *)

Module RecoveryProofs.
Import Recovery.

(** ** The loop of [transmit_file] *)

Section TransmitFile.

Variable self : Recovery_.
Variable filename : string.
Variable start_file_position : Z.

Local Abbreviation loop :=
  (transmit_file_loop self filename start_file_position).
Local Abbreviation send_outcome :=
  (send_outcome self filename start_file_position).

Lemma loop_done fuel attempt :
  max_tries <= attempt ->
  loop fuel attempt =
  (Returned tt, [Log ERROR (FileFailedAfter max_tries);
                 Print (FileFailedAfter max_tries);
                 Print FailureDueToUncertainty]).
Proof.
  intros H.
  destruct fuel; simpl;
    destruct (Z.ltb_spec attempt max_tries); try lia; reflexivity.
Qed.

Lemma loop_step fuel (k : nat) :
  Z.of_nat k < max_tries ->
  loop (S fuel) (Z.of_nat k) =
  match send_outcome k with
  | Returns true =>
      (Returned tt,
       [Log INFO (FileAttempt (Z.of_nat k + 1) filename);
        Print (FileAttempt (Z.of_nat k + 1) filename);
        Call (CallSbdSendFile filename false 0 start_file_position);
        Log INFO FileOk; Print FileOk])
  | Returns false =>
      (fst (loop fuel (Z.of_nat (S k))),
       [Log INFO (FileAttempt (Z.of_nat k + 1) filename);
        Print (FileAttempt (Z.of_nat k + 1) filename);
        Call (CallSbdSendFile filename false 0 start_file_position);
        Log WARNING (FileAttemptFailed (Z.of_nat k + 1));
        Print (FileAttemptFailed (Z.of_nat k + 1))]
       ++ snd (loop fuel (Z.of_nat (S k))))
  | Raises e =>
      (Raised e,
       [Log INFO (FileAttempt (Z.of_nat k + 1) filename);
        Print (FileAttempt (Z.of_nat k + 1) filename);
        Call (CallSbdSendFile filename false 0 start_file_position)])
  end.
Proof.
  intros H. unfold Recovery.send_outcome. simpl.
  destruct (Z.ltb_spec (Z.of_nat k) max_tries); [| lia].
  rewrite Nat2Z.id.
  replace (Z.pos (Pos.of_succ_nat k)) with (Z.of_nat k + 1) by lia.
  destruct (sbd_send_file (m1 self) k filename false 0 start_file_position)
    as [[|] | e]; simpl; try reflexivity.
  destruct (transmit_file_loop self filename start_file_position fuel
              (Z.of_nat k + 1)) as [r t].
  reflexivity.
Qed.

Lemma count_events_app f t1 t2 :
  count_events f (t1 ++ t2) = (count_events f t1 + count_events f t2)%nat.
Proof.
  unfold count_events. rewrite filter_app, length_app. reflexivity.
Qed.

(** What the loop does from [attempt = k] with [d = 5 - k] iterations to go
    and at least that much fuel. *)
Lemma loop_spec (d : nat) : forall (k fuel : nat),
  (k + d = 5)%nat -> (d <= fuel)%nat ->
  let r := fst (loop fuel (Z.of_nat k)) in
  let t := snd (loop fuel (Z.of_nat k)) in
  r <> OutOfFuel /\
  (send_file_calls t <= d)%nat /\
  file_attempt_reports t = send_file_calls t /\
  (forall i : nat, (k <= i < 5)%nat ->
     (forall j : nat, (k <= j < i)%nat -> send_outcome j = Returns false) ->
     send_outcome i = Returns true ->
     r = Returned tt /\ send_file_calls t = (S i - k)%nat /\
     file_ok_reports t = 1%nat /\ file_failure_reports t = 0%nat) /\
  ((forall j : nat, (k <= j < 5)%nat -> send_outcome j = Returns false) ->
     r = Returned tt /\ send_file_calls t = d /\
     file_ok_reports t = 0%nat /\ file_failure_reports t = 1%nat).
Proof.
  induction d as [| d IH]; intros k fuel Hk Hfuel; cbv zeta.
  - rewrite loop_done by (unfold max_tries; lia). simpl.
    split; [discriminate |]. split; [apply le_n |]. split; [reflexivity |].
    split; [intros i Hi; lia | auto].
  - destruct fuel as [| fuel]; [lia |].
    rewrite loop_step by (unfold max_tries; lia).
    assert (Hk' : (S k + d = 5)%nat) by lia.
    assert (Hfuel' : (d <= fuel)%nat) by lia.
    specialize (IH (S k) fuel Hk' Hfuel'). cbv zeta in IH.
    destruct IH as (IH1 & IH2 & IH3 & IH4 & IH5).
    destruct (send_outcome k) as [[|] | e] eqn:Hout; cbn [fst snd].
    + split; [discriminate |]. split; [cbn; lia |]. split; [reflexivity |].
      split.
      * intros i Hi Hprev Hi_ok.
        destruct (Nat.eq_dec i k) as [-> | Hne].
        -- replace (S k - k)%nat with 1%nat by lia. cbn. auto.
        -- assert (Hf : send_outcome k = Returns false)
             by (apply Hprev; lia).
           congruence.
      * intros Hall.
        assert (Hf : send_outcome k = Returns false) by (apply Hall; lia).
        congruence.
    + unfold send_file_calls, file_attempt_reports, file_ok_reports,
        file_failure_reports in *.
      rewrite !count_events_app.
      set (t' := snd (loop fuel (Z.of_nat (S k)))) in *.
      change (count_events is_send_file _ + count_events is_send_file t')%nat
        with (S (count_events is_send_file t')).
      change (count_events is_file_attempt _
              + count_events is_file_attempt t')%nat
        with (S (count_events is_file_attempt t')).
      change (count_events is_file_ok _ + count_events is_file_ok t')%nat
        with (count_events is_file_ok t').
      change (count_events is_file_failure _
              + count_events is_file_failure t')%nat
        with (count_events is_file_failure t').
      split; [exact IH1 |]. split; [lia |]. split; [lia |].
      split.
      * intros i Hi Hprev Hi_ok.
        destruct (Nat.eq_dec i k) as [-> | Hne]; [congruence |].
        destruct (IH4 i) as (A & B & C & D); [lia | | exact Hi_ok |].
        { intros j Hj. apply Hprev. lia. }
        rewrite B, C, D. repeat split; auto; lia.
      * intros Hall.
        destruct IH5 as (A & B & C & D).
        { intros j Hj. apply Hall. lia. }
        rewrite B, C, D. auto.
    + split; [discriminate |]. split; [cbn; lia |]. split; [reflexivity |].
      split.
      * intros i Hi Hprev Hi_ok.
        destruct (Nat.eq_dec i k) as [-> | Hne]; [congruence |].
        assert (Hf : send_outcome k = Returns false) by (apply Hprev; lia).
        congruence.
      * intros Hall.
        assert (Hf : send_outcome k = Returns false) by (apply Hall; lia).
        congruence.
Qed.

(** More fuel than the five iterations changes nothing. *)
Lemma loop_fuel_enough (d : nat) : forall (k fuel : nat),
  (k + d = 5)%nat -> (d <= fuel)%nat ->
  loop fuel (Z.of_nat k) = loop d (Z.of_nat k).
Proof.
  induction d as [| d IH]; intros k fuel Hk Hfuel.
  - rewrite !loop_done by (unfold max_tries; lia). reflexivity.
  - destruct fuel as [| fuel]; [lia |].
    rewrite !loop_step by (unfold max_tries; lia).
    rewrite (IH (S k) fuel) by lia. reflexivity.
Qed.

End TransmitFile.

(** ** C5 *)

(** C5.  Whatever the outcomes of the sends, [transmit_file] ends (the five
    units of fuel are enough), calls [sbd_send_file] once per announced
    attempt and at most 5 times.  If send number [i < 5] is the first to
    return a true value, the earlier ones having returned false ones, the
    method returns after exactly [i + 1] calls and reports success, not
    failure; if the first five sends all return false values, it returns
    after exactly 5 calls and reports the final failure, not success. *)
Theorem transmit_file_attempts (self : Recovery_) (filename : string)
    (start_file_position : Z) :
  let out := send_outcome self filename start_file_position in
  let r := fst (transmit_file self filename start_file_position) in
  let t := snd (transmit_file self filename start_file_position) in
  r <> OutOfFuel /\
  (send_file_calls t <= 5)%nat /\
  file_attempt_reports t = send_file_calls t /\
  (forall i : nat, (i < 5)%nat ->
     (forall j : nat, (j < i)%nat -> out j = Returns false) ->
     out i = Returns true ->
     r = Returned tt /\ send_file_calls t = S i /\
     file_ok_reports t = 1%nat /\ file_failure_reports t = 0%nat) /\
  ((forall j : nat, (j < 5)%nat -> out j = Returns false) ->
     r = Returned tt /\ send_file_calls t = 5%nat /\
     file_ok_reports t = 0%nat /\ file_failure_reports t = 1%nat).
Proof.
  cbv zeta.
  destruct (loop_spec self filename start_file_position 5 0 5 eq_refl
              (le_n 5)) as (A & B & C & D & E).
  change (transmit_file self filename start_file_position)
    with (transmit_file_loop self filename start_file_position 5 (Z.of_nat 0)).
  split; [exact A |]. split; [exact B |]. split; [exact C |]. split.
  - intros i Hi Hprev Hok.
    destruct (D i) as (D1 & D2 & D3 & D4); [lia | | exact Hok |].
    { intros j Hj. apply Hprev. lia. }
    rewrite D2. repeat split; auto.
  - intros Hall. apply E. intros j Hj. apply Hall. lia.
Qed.

Lemma transmit_file_attempts_witness :
  let self :=
    recovery_with (fun _ => Raises OSError)
      (fun k => Returns (Nat.eqb k 2)) in
  let failing :=
    recovery_with (fun _ => Raises OSError) (fun _ => Returns false) in
  (send_file_calls (snd (transmit_file self "data.bin" 0)) = 3%nat /\
   file_ok_reports (snd (transmit_file self "data.bin" 0)) = 1%nat) /\
  (send_file_calls (snd (transmit_file failing "data.bin" 0)) = 5%nat /\
   file_failure_reports (snd (transmit_file failing "data.bin" 0)) = 1%nat).
Proof.
  cbv zeta. split.
  - destruct (transmit_file_attempts
                (recovery_with (fun _ => Raises OSError)
                   (fun k => Returns (Nat.eqb k 2))) "data.bin" 0)
      as (_ & _ & _ & D & _).
    destruct (D 2%nat) as (_ & D2 & D3 & _).
    + lia.
    + intros j Hj. destruct j as [| [| j]]; [reflexivity | reflexivity | lia].
    + reflexivity.
    + split; assumption.
  - destruct (transmit_file_attempts
                (recovery_with (fun _ => Raises OSError)
                   (fun _ => Returns false)) "data.bin" 0)
      as (_ & _ & _ & _ & E).
    destruct E as (_ & E2 & _ & E4).
    + intros j Hj. reflexivity.
    + split; assumption.
Defined.

(** ** [__init__] and [acquire_and_send_gps_position] *)

(** The resource-setup path: an exception of either constructor leaves
    [__init__]. *)
Lemma init_propagates new_hat new_sat gp gb mp mb e :
  new_hat = Raises e \/
  (exists hat, new_hat = Returns hat) /\ new_sat gp gb mp mb = Raises e ->
  init new_hat new_sat gp gb mp mb = Raises e.
Proof.
  unfold init. intros [-> | [[hat ->] ->]]; reflexivity.
Qed.

Lemma hat_returns_steady : hat_returns steady_hat.
Proof. repeat split. Qed.

Lemma sat_returns_scripted positions files :
  (forall k, exists r, positions k = Returns r) ->
  (forall k, exists b, files k = Returns b) ->
  sat_returns (scripted_sat positions files).
Proof.
  intros Hp Hf. repeat split; simpl; auto.
Qed.

(** Case analysis on every collaborator outcome met by the method. *)
Ltac run_acquire self :=
  unfold acquire_and_send_gps_position, bind, perform, report;
  destruct (sbd_send_position (m1 self) 0 false true 120)
    as [[s0 d0] | e0] eqn:Hfirst;
  [destruct (s0 && valid_position d0) eqn:Hc0;
   [| destruct (sbd_send_position (m1 self) 1 false false 120)
        as [[s1 d1] | e1] eqn:Hretry;
      [destruct (s1 && valid_position d1) eqn:Hc1 |]] |];
  destruct (gps_pwr (m1 self) dev_off) as [[] | eg] eqn:Hgps;
  destruct (modem_pwr (m1 self) dev_off) as [[] | em] eqn:Hmodem;
  cbn.

(** C6.  With the hat calls returning, [acquire_and_send_gps_position] first
    calls [sbd_send_position] with [maintain_gps_pwr=True]; if that attempt
    succeeds (success flag and valid position) this is the only attempt; if
    it returns a failure, exactly one more attempt follows, with
    [maintain_gps_pwr=False], and the final failure is reported exactly when
    the retry fails too; in no case are there more than two attempts. *)
Theorem gps_position_single_retry (self : Recovery_) :
  hat_returns (minion_hat self) ->
  let first := sbd_send_position (m1 self) 0 false true 120 in
  let retry := sbd_send_position (m1 self) 1 false false 120 in
  let t := snd (acquire_and_send_gps_position self) in
  (List.length (position_attempts t) <= 2)%nat /\
  (forall s d, first = Returns (s, d) -> s && valid_position d = true ->
     position_attempts t = [(false, true, 120)] /\
     gps_failure_reports t = 0%nat) /\
  (forall s d, first = Returns (s, d) -> s && valid_position d = false ->
     position_attempts t = [(false, true, 120); (false, false, 120)] /\
     forall s' d', retry = Returns (s', d') ->
       gps_failure_reports t =
       if s' && valid_position d' then 0%nat else 1%nat).
Proof.
  intros (Hb & Hs & Hst). cbv zeta.
  unfold acquire_and_send_gps_position.
  rewrite Hb, Hs, Hst.
  run_acquire self;
    (split; [lia |]);
    (split; [intros s d Hs1 Hd1; inversion Hs1; subst;
             try congruence; split; reflexivity |]);
    intros s d Hs1 Hd1; inversion Hs1; subst; try congruence;
    (split; [reflexivity |]);
    intros s' d' Hs2; inversion Hs2; subst;
    match goal with
    | H : ?c = _ |- context [if ?c then _ else _] => rewrite H
    end; reflexivity.
Qed.

Lemma gps_position_single_retry_witness :
  let self :=
    recovery_with (fun _ => Returns (true, {| valid_position := false |}))
                  (fun _ => Returns false) in
  let t := snd (acquire_and_send_gps_position self) in
  position_attempts t = [(false, true, 120); (false, false, 120)] /\
  gps_failure_reports t = 1%nat.
Proof.
  cbv zeta.
  destruct (gps_position_single_retry
              (recovery_with
                 (fun _ => Returns (true, {| valid_position := false |}))
                 (fun _ => Returns false)) hat_returns_steady)
    as (_ & _ & C).
  destruct (C true {| valid_position := false |} eq_refl eq_refl) as (C1 & C2).
  split; [exact C1 |].
  exact (C2 true {| valid_position := false |} eq_refl).
Defined.

(** ** C10 *)

(** C10.  Whenever [acquire_and_send_gps_position] returns normally, whether
    the first attempt succeeded, the retry did, or both failed, the last two
    things it did are the calls [gps_pwr(dev_off)] and
    [modem_pwr(dev_off)], in this order. *)
Theorem power_switched_off_on_return (self : Recovery_) (t : list event) :
  acquire_and_send_gps_position self = (Returned tt, t) ->
  exists t0,
    t = t0 ++ [Call (CallGpsPwr dev_off); Call (CallModemPwr dev_off)].
Proof.
  unfold acquire_and_send_gps_position, bind at 1 2 3 4, perform at 1 2 3,
    report at 1.
  destruct (burn_wire (minion_hat self) ENABLE) as [[] | eb];
    [| discriminate].
  destruct (strobe_timing (minion_hat self) (_STROBE_ON self)
              (_STROBE_OFF self)) as [[] | es]; [| cbn; discriminate].
  destruct (strobe (minion_hat self) ENABLE) as [[] | est];
    [| cbn; discriminate].
  run_acquire self; intros H; inversion H; subst;
    match goal with
    | |- exists t0, ?l = _ =>
        exists (firstn (List.length l - 2) l); reflexivity
    end.
Qed.

Lemma power_switched_off_on_return_witness :
  exists t0,
    snd (acquire_and_send_gps_position
           (recovery_with (fun _ => Returns (false, {| valid_position := false |}))
                          (fun _ => Returns false)))
    = t0 ++ [Call (CallGpsPwr dev_off); Call (CallModemPwr dev_off)].
Proof.
  apply (power_switched_off_on_return
           (recovery_with
              (fun _ => Returns (false, {| valid_position := false |}))
              (fun _ => Returns false))).
  reflexivity.
Defined.

(** ** C7 *)

(** C7, as stated, fails: there is no exception handler in either method.
    With a modem whose send calls raise [OSError], both methods are left by
    that exception. *)
Lemma collaborator_exception_propagates :
  let self :=
    recovery_with (fun _ => Raises OSError) (fun _ => Raises OSError) in
  fst (acquire_and_send_gps_position self) = Raised OSError /\
  fst (transmit_file self "data.bin" 0) = Raised OSError.
Proof.
  split; reflexivity.
Qed.

(** C7, amended.  The two methods raise nothing of their own: when every
    call on the hat and on the modem returns normally, both
    [acquire_and_send_gps_position] and [transmit_file] return normally,
    their outcome being told by the logged and printed diagnostics only. *)
Theorem methods_return_when_collaborators_return (self : Recovery_)
    (filename : string) (start_file_position : Z) :
  hat_returns (minion_hat self) ->
  sat_returns (m1 self) ->
  fst (acquire_and_send_gps_position self) = Returned tt /\
  fst (transmit_file self filename start_file_position) = Returned tt.
Proof.
  intros (Hb & Hs & Hst) (Hpos & Hfile & Hgps & Hmodem). split.
  - unfold acquire_and_send_gps_position.
    rewrite Hb, Hs, Hst, Hgps, Hmodem.
    destruct (Hpos 0%nat false true 120) as [[s0 d0] H0].
    destruct (Hpos 1%nat false false 120) as [[s1 d1] H1].
    rewrite H0. unfold bind, perform, report.
    destruct (s0 && valid_position d0); [reflexivity |].
    rewrite H1. destruct (s1 && valid_position d1); reflexivity.
  - destruct (loop_spec self filename start_file_position 5 0 5 eq_refl
                (le_n 5)) as (A & _ & _ & D & E).
    change (transmit_file self filename start_file_position)
      with (transmit_file_loop self filename start_file_position 5
              (Z.of_nat 0)).
    set (out := send_outcome self filename start_file_position) in *.
    assert (Hdec : forall n : nat,
               (forall j, (j < n)%nat -> out j = Returns false) \/
               (exists i, (i < n)%nat /\ out i = Returns true /\
                  forall j, (j < i)%nat -> out j = Returns false)).
    { induction n as [| n [IH | (i & Hi & Hok & Hprev)]].
      - left. intros j Hj. lia.
      - destruct (Hfile n filename false 0 start_file_position) as [[|] Hb'].
        + right. exists n. repeat split; [lia | exact Hb' | exact IH].
        + left. intros j Hj.
          destruct (Nat.eq_dec j n) as [-> | Hne]; [exact Hb' |].
          apply IH. lia.
      - right. exists i. repeat split; [lia | exact Hok | exact Hprev]. }
    destruct (Hdec 5%nat) as [Hall | (i & Hi & Hok & Hprev)].
    + apply E. intros j Hj. apply Hall. lia.
    + apply (D i); [lia | | exact Hok].
      intros j Hj. apply Hprev. lia.
Qed.

Lemma methods_return_when_collaborators_return_witness :
  let self :=
    recovery_with (fun _ => Returns (true, {| valid_position := true |}))
                  (fun _ => Returns false) in
  fst (acquire_and_send_gps_position self) = Returned tt /\
  fst (transmit_file self "data.bin" 0) = Returned tt.
Proof.
  apply (methods_return_when_collaborators_return
           (recovery_with
              (fun _ => Returns (true, {| valid_position := true |}))
              (fun _ => Returns false)) "data.bin" 0).
  - exact hat_returns_steady.
  - apply sat_returns_scripted; intros k; eexists; reflexivity.
Defined.

End RecoveryProofs.

(* ====================================================================== *)
(** * Properties of the temperature / pressure sampling *)
(* ====================================================================== *)

Module TempPressureProofs.
Import TempPressure.

Section Sampling.

Variable float : Type.
Variable nan : float.
Variable depth_of : float -> float.
Variable keller_pressure : Z -> float -> float -> float.
Variable keller_temperature : Z -> float.

Local Abbreviation KellerLD_read :=
  (KellerLD_read float keller_pressure keller_temperature).
Local Abbreviation pressure_read :=
  (pressure_read float keller_pressure keller_temperature).
Local Abbreviation pressure_body :=
  (pressure_body float depth_of keller_pressure keller_temperature).
Local Abbreviation sample :=
  (sample float nan depth_of keller_pressure keller_temperature).

(** [KellerLD.read] hands back a flag whenever it returns. *)
Lemma pressure_read_keller (self : TP float) (k : KellerLD float) v :
  Pressure_sensor float self = Some (IniP100 k) ->
  snd (pressure_read self) = Returns v ->
  exists b, v = Flag b.
Proof.
  unfold TempPressure.pressure_read. intros ->.
  destruct (KellerLD_read k) as [e [[b k'] | x]]; simpl; intros H.
  - inversion H. eauto.
  - discriminate.
Qed.

(** The handlers do their part: when both reads raise [OSError], [sample]
    returns normally with the three values at [nan]. *)
Lemma sample_nan_when_both_reads_raise (self : TP float) (time : string) :
  temperature_read float self = Raises OSError ->
  snd (pressure_read self) = Raises OSError ->
  snd (sample self time) = Returns (time, nan, nan, nan).
Proof.
  intros Ht Hp.
  unfold TempPressure.sample, sample_temperature, sample_pressure,
    temperature_body, TempPressure.pressure_body, except_OSError.
  rewrite Ht.
  destruct (pressure_read self) as [e r]. simpl in Hp. subst r.
  reflexivity.
Qed.

(** With a pair from the pressure sensor and [OSError] from the temperature
    sensor, [sample] returns normally with [nan] as the temperature. *)
Lemma sample_nan_temperature (self : TP float) (time : string) e p pt :
  temperature_read float self = Raises OSError ->
  pressure_read self = (e, Returns (Pair p pt)) ->
  snd (sample self time) = Returns (time, nan, depth_of p, pt).
Proof.
  intros Ht Hp.
  unfold TempPressure.sample, sample_temperature, sample_pressure,
    temperature_body, TempPressure.pressure_body, except_OSError.
  rewrite Ht, Hp. reflexivity.
Qed.

(** With the [KellerLD] sensor, [sample] returns normally only if the
    sensor's [read] raised [OSError]: whenever that [read] returns, the
    unpacking of its flag raises [TypeError]. *)
Lemma sample_keller_returns_only_on_OSError (self : TP float)
    (k : KellerLD float) (time : string) v :
  Pressure_sensor float self = Some (IniP100 k) ->
  snd (sample self time) = Returns v ->
  snd (KellerLD_read k) = Raises OSError.
Proof.
  intros Hk.
  unfold TempPressure.sample, sample_temperature, sample_pressure,
    temperature_body, TempPressure.pressure_body, except_OSError,
    TempPressure.pressure_read.
  rewrite Hk.
  destruct (temperature_read float self) as [t | []]; simpl;
    try discriminate;
    destruct (KellerLD_read k) as [e [[b k'] | []]]; simpl;
    try discriminate; reflexivity.
Qed.

(** C8, on the code.  A [TP] with the [KellerLD] pressure sensor: the
    temperature read raises [OSError], and the pressure sensor answers the
    measurement request with the memory-checksum bit set in its status
    byte.  [KellerLD.read] logs the error and returns [False]; [sample] logs
    the temperature error, then is left by the [TypeError] of unpacking that
    flag, instead of returning [nan] values. *)
Theorem sample_aborts_on_keller_read_failure (lo hi : float) (time : string) :
  let bus :=
    {| write_byte := fun _ _ => Returns tt;
       read_i2c_block_data := fun _ _ _ => Returns [4; 0; 0; 0; 0] |} in
  let keller :=
    {| _bus := Some bus; pMin := Value lo; pMax := Value hi;
       _pressure := Unset; _temperature := Unset |} in
  let tp :=
    {| Temp_sensor := Some {| tsys01_read := Raises OSError |};
       Pressure_sensor := Some (IniP100 keller);
       _filename := "Minion_TP/TP_log.csv" |} in
  KellerLD_read keller
    = ([Log WARNING (MemoryChecksumError float)], Returns (false, keller)) /\
  sample tp time
    = ([Log WARNING (ErrorReadingTemperature float);
        Log WARNING (MemoryChecksumError float)],
       Raises TypeError).
Proof.
  split; reflexivity.
Qed.

End Sampling.

End TempPressureProofs.

(* ====================================================================== *)
(** * Further properties of the light-ring controller *)
(* ====================================================================== *)

Module LightRingTiming.
Import LightRing LightRingProofs.

(** [light_ring_set(False)] on a ring that is logically on. *)
Lemma set_false_when_on s :
  ring_state s = true ->
  fst (light_ring_set false s) = [Output LED_RING LOW] /\
  ring_state (snd (light_ring_set false s)) = false /\
  led_ring (snd (light_ring_set false s)) = LOW.
Proof.
  intros Hst. unfold light_ring_set. rewrite Hst. simpl.
  destruct (ring_alive s); simpl; auto.
Qed.

(** [light_ring_set(False)] on a ring that is logically off. *)
Lemma set_false_when_off s :
  ring_state s = false ->
  light_ring_set false s = ([Log DEBUG (NoChangeInState false)], s).
Proof.
  intros Hst. unfold light_ring_set. rewrite Hst. reflexivity.
Qed.

Section WithPlatform.

Variable time_sleep : Z -> outcome unit.

Local Abbreviation flash_logic := (LightRing.flash_logic time_sleep).
Local Abbreviation light_ring_run_thread_tick :=
  (LightRing.light_ring_run_thread_tick time_sleep).
Local Abbreviation run_ticks := (LightRing.run_ticks time_sleep).
Local Abbreviation step := (LightRing.step time_sleep).
Local Abbreviation reachable := (LightRing.reachable time_sleep).
Local Abbreviation exec := (LightRing.exec time_sleep).
Local Abbreviation Inv := (LightRing.Inv time_sleep).
Local Abbreviation python_sleep := (LightRing.python_sleep time_sleep).

(** ** What one tick does to the safety variables *)

Lemma tick_while_off s e s' :
  ring_state s = false ->
  light_ring_run_thread_tick s = (e, Returns s') ->
  ring_state s' = false /\
  ring_on_time s' = 0 /\
  ring_off_time s' = ring_off_time s + LIGHT_RING_REFRESH_DELAY /\
  (led_ring s = LOW -> led_ring s' = LOW).
Proof.
  intros Hst. rewrite tick_unfold. intros H. inversion H as [[He Hs]].
  clear H He.
  assert (Hu : update_timers s
               = set_timers 0 (ring_off_time s + LIGHT_RING_REFRESH_DELAY) s)
    by (unfold update_timers; rewrite Hst; reflexivity).
  assert (Hsc : safety_check (update_timers s) = ([], update_timers s)).
  { unfold safety_check. rewrite Hu. simpl. rewrite Hst. reflexivity. }
  rewrite Hsc in Hs. simpl in Hs.
  destruct (flash_logic (update_timers s)) as [e3 r] eqn:Hf.
  simpl in Hs. subst r.
  destruct (flash_logic_frame _ _ _ Hf) as (A & B & C & _ & E).
  rewrite Hu in A, B, C, E. simpl in A, B, C, E. rewrite Hst in A.
  repeat split; auto.
Qed.

Lemma tick_while_on s e s' :
  ring_state s = true ->
  ring_on_time s + LIGHT_RING_REFRESH_DELAY < LIGHT_RING_MAX_ON_TIME ->
  light_ring_run_thread_tick s = (e, Returns s') ->
  ring_state s' = true /\
  ring_on_time s' = ring_on_time s + LIGHT_RING_REFRESH_DELAY /\
  ring_off_time s' = 0.
Proof.
  intros Hst Hlt. rewrite tick_unfold. intros H. inversion H as [[He Hs]].
  clear H He.
  assert (Hu : update_timers s
               = set_timers (ring_on_time s + LIGHT_RING_REFRESH_DELAY) 0 s)
    by (unfold update_timers; rewrite Hst; reflexivity).
  assert (Hsc : safety_check (update_timers s) = ([], update_timers s)).
  { unfold safety_check. rewrite Hu. simpl. rewrite Hst. simpl.
    destruct (Z.leb_spec LIGHT_RING_MAX_ON_TIME
                (ring_on_time s + LIGHT_RING_REFRESH_DELAY)); [lia |].
    reflexivity. }
  rewrite Hsc in Hs. simpl in Hs.
  destruct (flash_logic (update_timers s)) as [e3 r] eqn:Hf.
  simpl in Hs. subst r.
  destruct (flash_logic_frame _ _ _ Hf) as (A & B & C & _ & _).
  rewrite Hu in A, B, C. simpl in A, B, C. rewrite Hst in A.
  repeat split; auto.
Qed.

Lemma tick_at_limit s e s' :
  ring_state s = true ->
  LIGHT_RING_MAX_ON_TIME <= ring_on_time s + LIGHT_RING_REFRESH_DELAY ->
  light_ring_run_thread_tick s = (e, Returns s') ->
  ring_state s' = false /\ led_ring s' = LOW.
Proof.
  intros Hst Hmax. rewrite tick_unfold. intros H. inversion H as [[He Hs]].
  clear H He.
  assert (Hst1 : ring_state (update_timers s) = true)
    by (unfold update_timers; rewrite Hst; simpl; exact Hst).
  assert (Hon1 : LIGHT_RING_MAX_ON_TIME <= ring_on_time (update_timers s))
    by (unfold update_timers; rewrite Hst; simpl; exact Hmax).
  destruct (safety_check_trips _ Hst1 Hon1) as (_ & Hst2 & Hled2 & _).
  destruct (flash_logic (snd (safety_check (update_timers s))))
    as [e3 r] eqn:Hf.
  simpl in Hs. subst r.
  destruct (flash_logic_frame _ _ _ Hf) as (A & _ & _ & _ & E).
  split; [congruence | auto].
Qed.

(** ** Runs of ticks *)

Lemma run_ticks_S s n e s' :
  run_ticks (S n) s = (e, Returns s') ->
  exists e1 s1 e2,
    light_ring_run_thread_tick s = (e1, Returns s1) /\
    run_ticks n s1 = (e2, Returns s') /\ e = e1 ++ e2.
Proof.
  simpl. destruct (light_ring_run_thread_tick s) as [e1 [s1 | x]];
    [| discriminate].
  destruct (run_ticks n s1) as [e2 r] eqn:Hr.
  intros H; inversion H; subst. exists e1, s1, e2. auto.
Qed.

Lemma run_ticks_add a : forall b s e s',
  run_ticks (a + b) s = (e, Returns s') ->
  exists e1 mid e2,
    run_ticks a s = (e1, Returns mid) /\ run_ticks b mid = (e2, Returns s').
Proof.
  induction a as [| a IH]; intros b s e s' H.
  - exists [], s, e. split; [reflexivity | exact H].
  - change (S a + b)%nat with (S (a + b)) in H.
    destruct (run_ticks_S _ _ _ _ H) as (e1 & s1 & e2 & Ht & Hr & _).
    destruct (IH b s1 e2 s' Hr) as (e3 & mid & e4 & Ha & Hb).
    exists (e1 ++ e3), mid, e4. split; [| exact Hb].
    simpl. rewrite Ht, Ha. reflexivity.
Qed.

Lemma run_ticks_off (k : nat) : forall s e s',
  ring_state s = false ->
  run_ticks k s = (e, Returns s') ->
  ring_state s' = false /\
  ring_off_time s' = ring_off_time s + LIGHT_RING_REFRESH_DELAY * Z.of_nat k /\
  (led_ring s = LOW -> led_ring s' = LOW).
Proof.
  induction k as [| k IH]; intros s e s' Hst H.
  - simpl in H. inversion H; subst. repeat split; auto; lia.
  - destruct (run_ticks_S _ _ _ _ H) as (e1 & s1 & e2 & Ht & Hr & _).
    destruct (tick_while_off _ _ _ Hst Ht) as (A & _ & C & D).
    destruct (IH s1 e2 s' A Hr) as (A' & C' & D').
    repeat split; auto. rewrite C', C. lia.
Qed.

Lemma run_ticks_on (k : nat) : forall s e s',
  ring_state s = true ->
  ring_on_time s + LIGHT_RING_REFRESH_DELAY * Z.of_nat k
    < LIGHT_RING_MAX_ON_TIME ->
  run_ticks k s = (e, Returns s') ->
  ring_state s' = true /\
  ring_on_time s' = ring_on_time s + LIGHT_RING_REFRESH_DELAY * Z.of_nat k.
Proof.
  induction k as [| k IH]; intros s e s' Hst Hlt H.
  - simpl in H. inversion H; subst. split; auto; lia.
  - destruct (run_ticks_S _ _ _ _ H) as (e1 & s1 & e2 & Ht & Hr & _).
    assert (Hlt1 : ring_on_time s + LIGHT_RING_REFRESH_DELAY
                   < LIGHT_RING_MAX_ON_TIME) by (unfold_consts; lia).
    destruct (tick_while_on _ _ _ Hst Hlt1 Ht) as (A & B & _).
    assert (Hlt2 : ring_on_time s1 + LIGHT_RING_REFRESH_DELAY * Z.of_nat k
                   < LIGHT_RING_MAX_ON_TIME) by (rewrite B; unfold_consts; lia).
    destruct (IH s1 e2 s' A Hlt2 Hr) as (A' & B').
    split; auto. rewrite B', B. unfold_consts. lia.
Qed.

(** ** The pin is high only under the watch of the thread *)

Lemma high_alive_step s a e s' :
  (led_ring s = HIGH -> ring_alive s = true) ->
  step s a e s' ->
  led_ring s' = HIGH -> ring_alive s' = true.
Proof.
  intros Hinv Hst. destruct Hst as [s b | s c t1 t2 _ _ | s | s e s' Hal Ht].
  - unfold light_ring_set.
    destruct s as [st on off fl cnt ton toff al fc led]; simpl in *.
    destruct (Bool.eqb st b); simpl; [exact Hinv |].
    destruct (b && (off <? LIGHT_RING_MIN_OFF_TIME)); simpl; [exact Hinv |].
    destruct al; simpl; auto.
  - unfold light_ring_flash_set.
    destruct s as [st on off fl cnt ton toff al fc led]; simpl in *.
    destruct fl, al; simpl; auto.
  - simpl. discriminate.
  - rewrite tick_unfold in Ht. inversion Ht as [[He Hs]]. clear Ht He.
    destruct (flash_logic (snd (safety_check (update_timers s))))
      as [e3 r] eqn:Hf.
    simpl in Hs. subst r.
    destruct (flash_logic_frame _ _ _ Hf) as (_ & _ & _ & A & _).
    intros _. rewrite A. clear Hf A.
    apply safety_check_alive. rewrite update_timers_alive. exact Hal.
Qed.

Lemma reachable_high_alive s :
  reachable s -> led_ring s = HIGH -> ring_alive s = true.
Proof.
  induction 1 as [| s a e s' _ IH Hst].
  - simpl. discriminate.
  - eapply high_alive_step; eauto.
Qed.

(** X1.  In every state the controller can reach between two steps, a high ring
    pin means that the ring is logically on, that the thread watching the
    on-time is alive, and that the cumulative on-timer is below the maximum
    on-time. *)
Theorem pin_high_is_watched (s : RingState) :
  reachable s ->
  led_ring s = HIGH ->
  ring_state s = true /\
  ring_alive s = true /\
  ring_on_time s < LIGHT_RING_MAX_ON_TIME.
Proof.
  intros Hr Hled. destruct (reachable_inv s Hr) as [_ _ H3 _ H5].
  split; [auto |]. split; [exact (reachable_high_alive s Hr Hled) | auto].
Qed.

(** ** What ends the thread *)

Lemma inv_run_ticks (n : nat) : forall s,
  Inv s -> exists e s', run_ticks n s = (e, Returns s') /\ Inv s'.
Proof.
  induction n as [| n IH]; intros s HI.
  - exists [], s. auto.
  - destruct (inv_update_timers s HI) as (A & B & C & D).
    destruct (inv_safety_check _ A B C D) as [A' B' _ _ _].
    destruct (flash_logic_returns _ A' B') as (e3 & s3 & Hf).
    assert (Ht : light_ring_run_thread_tick s
                 = (fst (safety_check (update_timers s)) ++ e3, Returns s3))
      by (rewrite tick_unfold, Hf; reflexivity).
    destruct (IH s3 (inv_tick _ _ _ HI Ht)) as (e' & s' & Hr & HI').
    exists ((fst (safety_check (update_timers s)) ++ e3) ++ e'), s'.
    simpl. rewrite Ht, Hr. auto.
Qed.

(** The flash logic raises exactly when a step is due and [sleep] raises on
    one of the two durations. *)
Lemma flash_logic_raises_iff s :
  (exists e x, flash_logic s = (e, Raises x)) <->
  (flash_step_due s = true /\
   ((exists x, time_sleep (ring_flash_on_time s) = Raises x) \/
    (exists x, time_sleep (ring_flash_off_time s) = Raises x))).
Proof.
  unfold flash_step_due, LightRing.flash_logic.
  destruct (ring_flashing s); simpl.
  - destruct (flash_counter s <? ring_flash_count s).
    + destruct (time_sleep (ring_flash_on_time s)) as [[] | x].
      * destruct (time_sleep (ring_flash_off_time s)) as [[] | y].
        -- split.
           ++ intros (e & x & H). discriminate.
           ++ intros (_ & [(x & H) | (x & H)]); discriminate.
        -- split; eauto 6.
      * split; eauto 6.
    + split.
      * intros (e & x & H). discriminate.
      * intros (H & _). discriminate.
  - split.
    + intros (e & x & H). discriminate.
    + intros (H & _). discriminate.
Qed.

(** X2.  With GPIO writes that return, an iteration of the thread loop is
    left by an exception exactly when a flash step is due on it and [sleep]
    raises on the on-time or on the off-time of the sequence: the timer
    update and the safety check call nothing else that could raise.
    CPython's [sleep] raises for every negative duration and
    for every duration beyond 9223372036854 ms, so a due step with such a
    duration ends the thread.  From the states reached through requests
    whose durations [sleep] accepts, any number of consecutive iterations
    run to their end. *)
Theorem thread_ended_by_sleep_only (s : RingState) :
  ((exists e x, light_ring_run_thread_tick s = (e, Raises x)) <->
   (flash_step_due s = true /\
    ((exists x, time_sleep (ring_flash_on_time s) = Raises x) \/
     (exists x, time_sleep (ring_flash_off_time s) = Raises x)))) /\
  (python_sleep ->
   flash_step_due s = true ->
   ring_flash_on_time s < 0 \/ SLEEP_LIMIT_MS < ring_flash_on_time s \/
   ring_flash_off_time s < 0 \/ SLEEP_LIMIT_MS < ring_flash_off_time s ->
   exists e x, light_ring_run_thread_tick s = (e, Raises x)) /\
  (reachable s ->
   forall n : nat, exists e s', run_ticks n s = (e, Returns s')).
Proof.
  assert (Hiff :
    (exists e x, light_ring_run_thread_tick s = (e, Raises x)) <->
    (flash_step_due s = true /\
     ((exists x, time_sleep (ring_flash_on_time s) = Raises x) \/
      (exists x, time_sleep (ring_flash_off_time s) = Raises x)))).
  { rewrite tick_unfold.
    pose proof (flash_vars_before_flash_logic s) as Hv.
    pose proof (flash_step_due_vars _ _ Hv) as Hdue.
    assert (Hon : ring_flash_on_time (snd (safety_check (update_timers s)))
                  = ring_flash_on_time s)
      by (unfold flash_vars in Hv; inversion Hv; reflexivity).
    assert (Hoff : ring_flash_off_time (snd (safety_check (update_timers s)))
                   = ring_flash_off_time s)
      by (unfold flash_vars in Hv; inversion Hv; reflexivity).
    rewrite <- Hdue, <- Hon, <- Hoff.
    rewrite <- (flash_logic_raises_iff (snd (safety_check (update_timers s)))).
    destruct (flash_logic (snd (safety_check (update_timers s)))) as [e3 r].
    simpl. split.
    - intros (e & x & H). inversion H; subst. eauto.
    - intros (e & x & H). inversion H; subst. eauto. }
  split; [exact Hiff |]. split.
  - intros Hpy Hdue Hbad. apply Hiff. split; [exact Hdue |].
    assert (Hrej : forall ms, ms < 0 \/ SLEEP_LIMIT_MS < ms ->
                   exists x, time_sleep ms = Raises x).
    { intros ms Hms.
      destruct (sleep_rejects_cases ms) as (A & B & _).
      destruct (Z.lt_ge_cases ms (- SLEEP_LIMIT_MS)) as [Hlo | Hlo].
      - exists OverflowError. apply Hpy, A. auto.
      - destruct Hms as [Hneg | Hbig].
        + exists ValueError. apply Hpy, B. lia.
        + exists OverflowError. apply Hpy, A. auto. }
    destruct Hbad as [H | [H | [H | H]]]; [left | left | right | right];
      apply Hrej; auto.
  - intros Hr n.
    destruct (inv_run_ticks n s (reachable_inv s Hr)) as (e & s' & H & _).
    eauto.
Qed.

(** X3.  A flash request with a negative on-time and at least one flash ends the
    thread on its next iteration: the flash logic writes HIGH to the ring
    pin, then [sleep] raises, and HIGH is the last level written.  The
    exception is [ValueError], or [OverflowError] when the on-time is below
    -9223372036854 ms. *)
Theorem negative_on_time_ends_thread (s : RingState)
    (count time_on time_off : Z) :
  python_sleep ->
  0 < count ->
  time_on < 0 ->
  exists e,
    light_ring_run_thread_tick
      (snd (light_ring_flash_set count time_on time_off s))
    = (e, Raises (if time_on <? - SLEEP_LIMIT_MS
                  then OverflowError else ValueError)) /\
    last_output e = Some HIGH.
Proof.
  intros Hpy Hc Hon. rewrite tick_unfold.
  set (s0 := snd (light_ring_flash_set count time_on time_off s)).
  destruct (flash_vars_after_flash_set s count time_on time_off)
    as (Hv0 & _). fold s0 in Hv0.
  pose proof (flash_vars_before_flash_logic s0) as Hv. rewrite Hv0 in Hv.
  destruct (safety_check (update_timers s0)) as [e2 s2]. simpl in *.
  unfold flash_vars in Hv. inversion Hv as [[F1 F2 F3 F4 F5]].
  unfold LightRing.flash_logic. rewrite F1.
  destruct (Z.ltb_spec (flash_counter s2) (ring_flash_count s2)); [| lia].
  assert (Hx : sleep_rejects (ring_flash_on_time s2)
               = Some (if ring_flash_on_time s2 <? - SLEEP_LIMIT_MS
                       then OverflowError else ValueError)).
  { destruct (sleep_rejects_cases (ring_flash_on_time s2)) as (A & B & _).
    destruct (Z.ltb_spec (ring_flash_on_time s2) (- SLEEP_LIMIT_MS));
      [apply A; auto | apply B; lia]. }
  rewrite (Hpy _ _ Hx).
  simpl. eexists. split; [reflexivity |].
  rewrite last_output_app. reflexivity.
Qed.

(** ** The two safety times, counted in ticks *)

(** X4.  Once the ring is off with its off-timer at 0 (it was on at the last
    tick), [light_ring_set(True)] is refused, writing nothing and changing
    nothing, after each of the next 9 ticks, and drives the pin high after
    10 ticks or more: the minimum off-time of 5 s in ticks of 0.5 s. *)
Theorem min_off_time_in_ticks (s : RingState) (k : nat) (e : list event)
    (sk : RingState) :
  ring_state s = false ->
  ring_off_time s = 0 ->
  run_ticks k s = (e, Returns sk) ->
  (In (Output LED_RING HIGH) (fst (light_ring_set true sk)) <-> (10 <= k)%nat)
  /\
  ((k < 10)%nat ->
   light_ring_set true sk = ([Log WARNING MinOffTimeNotMet], sk)).
Proof.
  intros Hst Hoff Hr.
  destruct (run_ticks_off k s e sk Hst Hr) as (A & B & _).
  rewrite Hoff in B. unfold light_ring_set. rewrite A. simpl.
  destruct (Z.ltb_spec (ring_off_time sk) LIGHT_RING_MIN_OFF_TIME) as [Hlt | Hge];
    unfold_consts; simpl.
  - split.
    + split; [intros [E | []]; discriminate | lia].
    + reflexivity.
  - split.
    + split; [lia | auto].
    + lia.
Qed.


(** ** Switching off, and flashing a ring that is on *)

(** X6.  [light_ring_set(False)] is never refused: from any state it leaves
    [ring_state] False.  On a ring that is logically on it writes LOW to
    the pin.  On a ring that is logically off it only logs that nothing
    changes: it writes nothing and changes no variable, so a pin that the
    flash logic holds high in the middle of a pulse, with [ring_state]
    False, stays high through the call.  In the states the controller
    reaches between two steps, where no pulse is under way, the pin is low
    after the call. *)
Theorem set_false_turns_off (s : RingState) :
  ring_state (snd (light_ring_set false s)) = false /\
  (ring_state s = true ->
   fst (light_ring_set false s) = [Output LED_RING LOW] /\
   led_ring (snd (light_ring_set false s)) = LOW) /\
  (ring_state s = false ->
   light_ring_set false s = ([Log DEBUG (NoChangeInState false)], s) /\
   light_ring_set false (set_led_ring HIGH s)
     = ([Log DEBUG (NoChangeInState false)], set_led_ring HIGH s)) /\
  (reachable s -> led_ring (snd (light_ring_set false s)) = LOW).
Proof.
  destruct (ring_state s) eqn:Hst.
  - destruct (set_false_when_on s Hst) as (A & B & C).
    split; [exact B |]. split; [auto |]. split; [discriminate |]. auto.
  - pose proof (set_false_when_off s Hst) as A.
    split; [rewrite A; exact Hst |]. split; [discriminate |].
    split.
    + intros _. split; [exact A |].
      apply set_false_when_off. destruct s; exact Hst.
    + intros Hr. rewrite A. simpl.
      destruct (reachable_inv s Hr) as [_ _ _ _ H5].
      destruct (led_ring s); [reflexivity |].
      specialize (H5 eq_refl). congruence.
Qed.

(** X7.  A flash sequence requested while the ring is on (and not yet at its
    on-time limit) turns the light off without the controller noticing: the
    tick that follows the request emits the first pulse and ends with the
    pin low, while [ring_state] stays True. *)
Theorem flash_while_on_leaves_pin_low (s : RingState)
    (count time_on time_off : Z) :
  ring_state s = true ->
  ring_on_time s + LIGHT_RING_REFRESH_DELAY < LIGHT_RING_MAX_ON_TIME ->
  0 < count ->
  time_sleep time_on = Returns tt -> time_sleep time_off = Returns tt ->
  exists e s',
    light_ring_run_thread_tick
      (snd (light_ring_flash_set count time_on time_off s))
    = (e, Returns s') /\
    last_output e = Some LOW /\
    led_ring s' = LOW /\
    ring_state s' = true.
Proof.
  intros Hst Hlt Hc Hon Hoff.
  set (s0 := snd (light_ring_flash_set count time_on time_off s)).
  destruct (flash_vars_after_flash_set s count time_on time_off)
    as (Hv0 & _). fold s0 in Hv0.
  assert (Hst0 : ring_state s0 = true /\ ring_on_time s0 = ring_on_time s).
  { subst s0. destruct s as [st on off fl cnt ton toff al fc led].
    unfold light_ring_flash_set; simpl in *. destruct fl, al; auto. }
  destruct Hst0 as (Hst0 & Hon0).
  destruct (tick_flash_step s0 count time_on time_off 0 Hv0 Hc Hon Hoff)
    as (s' & Ht & Hv' & _).
  exists (fst (safety_check (update_timers s0))
            ++ flash_pulse time_on time_off), s'.
  split; [exact Ht |].
  split; [rewrite last_output_app; reflexivity |].
  assert (Hlt0 : ring_on_time s0 + LIGHT_RING_REFRESH_DELAY
                 < LIGHT_RING_MAX_ON_TIME) by (rewrite Hon0; exact Hlt).
  destruct (tick_while_on _ _ _ Hst0 Hlt0 Ht) as (A & _ & _).
  split; [| exact A].
  rewrite tick_unfold in Ht. inversion Ht as [[He Hs]].
  destruct (flash_logic (snd (safety_check (update_timers s0))))
    as [e3 r] eqn:Hf.
  simpl in Hs, He. subst r.
  apply app_inv_head in He. subst e3.
  destruct (flash_logic_end _ _ _ Hf) as (_ & [[E _] | [_ E]]);
    [discriminate | exact E].
Qed.

End WithPlatform.

Arguments tick_while_off {time_sleep}.
Arguments tick_while_on {time_sleep}.
Arguments tick_at_limit {time_sleep}.
Arguments run_ticks_S {time_sleep}.
Arguments run_ticks_add {time_sleep}.
Arguments run_ticks_off {time_sleep}.
Arguments run_ticks_on {time_sleep}.

(** ** Concrete runs *)

Lemma python_sleep_accepting : python_sleep accepting_sleep.
Proof.
  intros ms x H. unfold accepting_sleep. rewrite H. reflexivity.
Qed.

Lemma pin_high_is_watched_witness :
  let s := mkRing true 1000 0 false 0 250 250 true 0 HIGH in
  ring_state s = true /\
  ring_alive s = true /\
  ring_on_time s < LIGHT_RING_MAX_ON_TIME.
Proof.
  apply (pin_high_is_watched accepting_sleep
           (mkRing true 1000 0 false 0 250 250 true 0 HIGH)).
  - apply (exec_reachable [Set_ true; Tick; Tick] initial_state);
      [exact reach_init | vm_compute; reflexivity].
  - reflexivity.
Defined.

Lemma thread_ended_by_sleep_only_witness :
  (exists e x,
     light_ring_run_thread_tick accepting_sleep
       (snd (light_ring_flash_set 2 250 9223372036855 initial_state))
     = (e, Raises x)) /\
  (exists e s',
     run_ticks accepting_sleep 7
       (snd (light_ring_flash_set 3 250 0 initial_state))
     = (e, Returns s')).
Proof.
  split.
  - apply (thread_ended_by_sleep_only accepting_sleep
             (snd (light_ring_flash_set 2 250 9223372036855 initial_state))).
    + exact python_sleep_accepting.
    + reflexivity.
    + right. right. right. vm_compute. reflexivity.
  - apply (thread_ended_by_sleep_only accepting_sleep
             (snd (light_ring_flash_set 3 250 0 initial_state))).
    apply (exec_reachable [Flash 3 250 0] initial_state);
      [exact reach_init | vm_compute; reflexivity].
Defined.

Lemma negative_on_time_ends_thread_witness :
  exists e,
    light_ring_run_thread_tick accepting_sleep
      (snd (light_ring_flash_set 1 (-1) 0 initial_state))
    = (e, Raises ValueError) /\
    last_output e = Some HIGH.
Proof.
  apply (negative_on_time_ends_thread accepting_sleep initial_state 1 (-1) 0);
    [exact python_sleep_accepting | lia | lia].
Defined.

Lemma min_off_time_in_ticks_witness :
  let s := mkRing false 500 0 false 0 250 250 true 0 LOW in
  let s9 := mkRing false 0 4500 false 0 250 250 true 0 LOW in
  let s10 := mkRing false 0 5000 false 0 250 250 true 0 LOW in
  light_ring_set true s9 = ([Log WARNING MinOffTimeNotMet], s9) /\
  In (Output LED_RING HIGH) (fst (light_ring_set true s10)).
Proof.
  cbv zeta. split.
  - apply (min_off_time_in_ticks accepting_sleep
             (mkRing false 500 0 false 0 250 250 true 0 LOW) 9 []
             (mkRing false 0 4500 false 0 250 250 true 0 LOW));
      [reflexivity | reflexivity | vm_compute; reflexivity | lia].
  - apply (min_off_time_in_ticks accepting_sleep
             (mkRing false 500 0 false 0 250 250 true 0 LOW) 10 []
             (mkRing false 0 5000 false 0 250 250 true 0 LOW));
      [reflexivity | reflexivity | vm_compute; reflexivity | lia].
Defined.


Lemma set_false_turns_off_witness :
  let s := mkRing false 0 500 true 1 250 250 true 0 LOW in
  let lit := mkRing true 500 0 false 0 250 250 true 0 HIGH in
  led_ring (snd (light_ring_set false (set_led_ring HIGH s))) = HIGH /\
  led_ring (snd (light_ring_set false lit)) = LOW.
Proof.
  cbv zeta. split.
  - destruct (set_false_turns_off accepting_sleep
                (mkRing false 0 500 true 1 250 250 true 0 LOW))
      as (_ & _ & H & _).
    destruct H as (_ & H); [reflexivity |]. rewrite H. reflexivity.
  - apply (set_false_turns_off accepting_sleep
             (mkRing true 500 0 false 0 250 250 true 0 HIGH)).
    apply (exec_reachable [Set_ true; Tick] initial_state);
      [exact reach_init | vm_compute; reflexivity].
Defined.

Lemma flash_while_on_leaves_pin_low_witness :
  exists e s',
    light_ring_run_thread_tick accepting_sleep
      (snd (light_ring_flash_set 2 250 250
              (snd (light_ring_set true initial_state))))
    = (e, Returns s') /\
    last_output e = Some LOW /\
    led_ring s' = LOW /\
    ring_state s' = true.
Proof.
  apply (flash_while_on_leaves_pin_low accepting_sleep
           (snd (light_ring_set true initial_state)) 2 250 250);
    [reflexivity | vm_compute; reflexivity | lia | reflexivity | reflexivity].
Defined.

End LightRingTiming.

(* ====================================================================== *)
(** * Further properties of the recovery methods: exceptions *)
(* ====================================================================== *)

Module RecoveryExceptions.
Import Recovery RecoveryObs RecoveryProofs.

Section TransmitFileRaise.

Variable self : Recovery_.
Variable filename : string.
Variable start_file_position : Z.

Local Abbreviation loop :=
  (transmit_file_loop self filename start_file_position).
Local Abbreviation send_outcome :=
  (send_outcome self filename start_file_position).

(** The loop from [attempt = k], when send number [i >= k] raises and the
    sends before it return false values. *)
Lemma loop_raise (d : nat) : forall (k fuel i : nat) (x : exn),
  (k + d = 5)%nat -> (d <= fuel)%nat ->
  (k <= i < 5)%nat ->
  (forall j : nat, (k <= j < i)%nat -> send_outcome j = Returns false) ->
  send_outcome i = Raises x ->
  let r := fst (loop fuel (Z.of_nat k)) in
  let t := snd (loop fuel (Z.of_nat k)) in
  r = Raised x /\
  send_file_calls t = (S i - k)%nat /\
  file_ok_reports t = 0%nat /\
  file_failure_reports t = 0%nat.
Proof.
  induction d as [| d IH]; intros k fuel i x Hk Hfuel Hi Hprev Hx; cbv zeta.
  - lia.
  - destruct fuel as [| fuel]; [lia |].
    rewrite loop_step by (unfold max_tries; lia).
    destruct (Nat.eq_dec i k) as [-> | Hne].
    + rewrite Hx. cbn [fst snd].
      replace (S k - k)%nat with 1%nat by lia.
      repeat split; reflexivity.
    + assert (Hf : send_outcome k = Returns false) by (apply Hprev; lia).
      rewrite Hf. cbn [fst snd].
      destruct (IH (S k) fuel i x) as (A & B & C & D); try lia; auto.
      { intros j Hj. apply Hprev. lia. }
      cbv zeta in A, B, C, D.
      unfold send_file_calls, file_ok_reports, file_failure_reports in *.
      rewrite !count_events_app.
      set (t' := snd (loop fuel (Z.of_nat (S k)))) in *.
      change (count_events is_send_file _ + count_events is_send_file t')%nat
        with (S (count_events is_send_file t')).
      change (count_events is_file_ok _ + count_events is_file_ok t')%nat
        with (count_events is_file_ok t').
      change (count_events is_file_failure _
              + count_events is_file_failure t')%nat
        with (count_events is_file_failure t').
      rewrite B, C, D. repeat split; auto. lia.
Qed.

End TransmitFileRaise.

(** X8.  An exception of [sbd_send_file] is not retried: if send number [i < 5]
    raises, the earlier sends having returned false values,
    [transmit_file] is left by that exception after exactly [i + 1] calls,
    with neither the success nor the final-failure report. *)
Theorem transmit_file_stops_at_exception (self : Recovery_)
    (filename : string) (start_file_position : Z) (i : nat) (x : exn) :
  (i < 5)%nat ->
  (forall j : nat, (j < i)%nat ->
     send_outcome self filename start_file_position j = Returns false) ->
  send_outcome self filename start_file_position i = Raises x ->
  let r := fst (transmit_file self filename start_file_position) in
  let t := snd (transmit_file self filename start_file_position) in
  r = Raised x /\
  send_file_calls t = S i /\
  file_ok_reports t = 0%nat /\
  file_failure_reports t = 0%nat.
Proof.
  intros Hi Hprev Hx. cbv zeta.
  change (transmit_file self filename start_file_position)
    with (transmit_file_loop self filename start_file_position 5 (Z.of_nat 0)).
  assert (Hprev' : forall j : nat, (0 <= j < i)%nat ->
            send_outcome self filename start_file_position j = Returns false)
    by (intros j Hj; apply Hprev; lia).
  destruct (loop_raise self filename start_file_position 5 0 5 i x
              eq_refl (le_n 5) (conj (Nat.le_0_l i) Hi) Hprev' Hx)
    as (A & B & C & D).
  cbv zeta in A, B, C, D. rewrite B.
  repeat split; auto.
Qed.

Lemma transmit_file_stops_at_exception_witness :
  let self :=
    recovery_with (fun _ => Raises OSError)
      (fun k => if Nat.eqb k 2 then Raises OSError else Returns false) in
  fst (transmit_file self "data.bin" 0) = Raised OSError /\
  send_file_calls (snd (transmit_file self "data.bin" 0)) = 3%nat /\
  file_ok_reports (snd (transmit_file self "data.bin" 0)) = 0%nat /\
  file_failure_reports (snd (transmit_file self "data.bin" 0)) = 0%nat.
Proof.
  apply (transmit_file_stops_at_exception
           (recovery_with (fun _ => Raises OSError)
              (fun k => if Nat.eqb k 2 then Raises OSError else Returns false))
           "data.bin" 0 2 OSError).
  - lia.
  - intros j Hj. destruct j as [| [| j]]; [reflexivity | reflexivity | lia].
  - reflexivity.
Defined.

(** X9.  An exception of either [sbd_send_position] call leaves
    [acquire_and_send_gps_position] before its last two lines: neither
    [gps_pwr] nor [modem_pwr] is called, although the first attempt asked
    for the GPS power to be maintained; and a first attempt that raises is
    not followed by the retry. *)
Theorem power_left_on_at_exception (self : Recovery_) (x : exn) :
  hat_returns (minion_hat self) ->
  sbd_send_position (m1 self) 0 false true 120 = Raises x \/
  (exists s d,
     sbd_send_position (m1 self) 0 false true 120 = Returns (s, d) /\
     s && valid_position d = false /\
     sbd_send_position (m1 self) 1 false false 120 = Raises x) ->
  fst (acquire_and_send_gps_position self) = Raised x /\
  power_calls (snd (acquire_and_send_gps_position self)) = 0%nat /\
  (sbd_send_position (m1 self) 0 false true 120 = Raises x ->
   position_attempts (snd (acquire_and_send_gps_position self))
   = [(false, true, 120)]).
Proof.
  intros (Hb & Hs & Hst) Hcase.
  unfold acquire_and_send_gps_position.
  rewrite Hb, Hs, Hst.
  destruct Hcase as [H0 | (s & d & H0 & Hc & H1)].
  - rewrite H0. cbn. repeat split; reflexivity.
  - rewrite H0. unfold bind, perform, report. cbn.
    rewrite Hc, H1. cbn.
    repeat split. intros E. discriminate.
Qed.

Lemma power_left_on_at_exception_witness :
  let self :=
    recovery_with
      (fun k => if Nat.eqb k 0
                then Returns (true, {| valid_position := false |})
                else Raises OSError)
      (fun _ => Returns false) in
  fst (acquire_and_send_gps_position self) = Raised OSError /\
  power_calls (snd (acquire_and_send_gps_position self)) = 0%nat.
Proof.
  cbv zeta.
  destruct (power_left_on_at_exception
              (recovery_with
                 (fun k => if Nat.eqb k 0
                           then Returns (true, {| valid_position := false |})
                           else Raises OSError)
                 (fun _ => Returns false)) OSError hat_returns_steady)
    as (A & B & _).
  - right. exists true, {| valid_position := false |}.
    repeat split; reflexivity.
  - split; assumption.
Defined.

End RecoveryExceptions.

(* ====================================================================== *)
(** * Further properties of the pressure sensor driver *)
(* ====================================================================== *)

Module KellerDecoding.
Import TempPressure.

(** ** Bit operations as arithmetic *)

Lemma land_pow2 (a n : Z) :
  0 <= n -> Z.land a (2 ^ n) = if Z.testbit a n then 2 ^ n else 0.
Proof.
  intros Hn. apply Z.bits_inj'. intros m Hm.
  rewrite Z.land_spec, Z.pow2_bits_eqb by exact Hn.
  destruct (Z.eqb_spec n m) as [-> | Hne].
  - destruct (Z.testbit a m) eqn:Hb; simpl.
    + symmetry. apply Z.pow2_bits_true. exact Hm.
    + symmetry. apply Z.bits_0.
  - rewrite andb_false_r.
    destruct (Z.testbit a n).
    + rewrite Z.pow2_bits_eqb by exact Hn.
      symmetry. apply Z.eqb_neq. exact Hne.
    + symmetry. apply Z.bits_0.
Qed.

Lemma bits_below (b n m : Z) :
  0 <= b < 2 ^ n -> n <= m -> Z.testbit b m = false.
Proof.
  intros [Hb0 Hb] Hm.
  destruct (Z.eq_dec b 0) as [-> | Hne]; [apply Z.bits_0 |].
  apply Z.bits_above_log2; [exact Hb0 |].
  assert (Z.log2 b < n); [| lia].
  apply Z.log2_lt_pow2; lia.
Qed.

Lemma lor_shiftl_low (a b n : Z) :
  0 <= n -> 0 <= b < 2 ^ n ->
  Z.lor (Z.shiftl a n) b = a * 2 ^ n + b.
Proof.
  intros Hn Hb.
  assert (Hland : Z.land (Z.shiftl a n) b = 0).
  { apply Z.bits_inj'. intros m Hm.
    rewrite Z.land_spec, Z.bits_0.
    destruct (Z.lt_ge_cases m n) as [Hlt | Hge].
    - rewrite Z.shiftl_spec_low by exact Hlt. reflexivity.
    - rewrite (bits_below b n m Hb Hge). apply andb_false_r. }
  rewrite <- Z.shiftl_mul_pow2 by exact Hn.
  rewrite <- Z.add_lor_land, Hland. lia.
Qed.

Section Decoding.

Variable float : Type.
Variable keller_pressure : Z -> float -> float -> float.
Variable keller_temperature : Z -> float.

Local Abbreviation keller_decode :=
  (keller_decode float keller_pressure keller_temperature).

(** X10.  What [KellerLD.read] makes of the status byte, for any five bytes
    received: it reports success exactly when bits 2, 3 and 4 are clear (the
    busy bit 5 plays no part); on a failure the object is returned as it
    was, so a measurement of an earlier read stays in [_pressure] and
    [_temperature]; on success both are replaced. *)
Theorem keller_status_decides (self : KellerLD float) (lo hi : float)
    (statusByte d1 d2 d3 d4 : Z) :
  let ok := negb (Z.testbit statusByte 2) && negb (Z.testbit statusByte 3)
            && negb (Z.testbit statusByte 4) in
  exists self',
    snd (keller_decode self lo hi [statusByte; d1; d2; d3; d4])
      = Returns (ok, self') /\
    (ok = false -> self' = self) /\
    (ok = true ->
       _pressure float self'
         = Value (keller_pressure (Z.lor (Z.shiftl d1 8) d2) lo hi) /\
       _temperature float self'
         = Value (keller_temperature
                    (Z.shiftr (Z.lor (Z.shiftl d3 8) d4) 4))).
Proof.
  cbv zeta. unfold TempPressure.keller_decode, index. cbn [nth_error].
  change (Z.shiftl 3 3) with (Z.lor (2 ^ 3) (2 ^ 4)).
  change (Z.shiftl 1 2) with (2 ^ 2).
  rewrite Z.land_lor_distr_r, !land_pow2 by lia.
  destruct (Z.testbit statusByte 2), (Z.testbit statusByte 3),
    (Z.testbit statusByte 4); cbn;
    eexists; (split; [reflexivity |]);
    (split; [intros E; try discriminate E; reflexivity |]);
    intros E; try discriminate E; split; reflexivity.
Qed.

(** X11.  For bytes as the bus delivers them (0 to 255), the two raw words of
    [KellerLD.read] are the big-endian numbers [256 * data[1] + data[2]]
    and [256 * data[3] + data[4]]; the pressure word lies in
    [0, 65535] and the temperature word shifted right by 4, which is what
    the temperature formula uses, is its quotient by 16 and lies in
    [0, 4095]. *)
Theorem keller_raw_words (d1 d2 d3 d4 : Z) :
  0 <= d1 < 256 -> 0 <= d2 < 256 -> 0 <= d3 < 256 -> 0 <= d4 < 256 ->
  let pressureRaw := Z.lor (Z.shiftl d1 8) d2 in
  let temperatureRaw := Z.lor (Z.shiftl d3 8) d4 in
  pressureRaw = 256 * d1 + d2 /\
  0 <= pressureRaw <= 65535 /\
  Z.shiftr temperatureRaw 4 = (256 * d3 + d4) / 16 /\
  0 <= Z.shiftr temperatureRaw 4 <= 4095 /\
  forall (self : KellerLD float) (lo hi : float),
    snd (keller_decode self lo hi [0; d1; d2; d3; d4])
    = Returns (true,
        {| _bus := _bus float self; pMin := pMin float self;
           pMax := pMax float self;
           _pressure := Value (keller_pressure (256 * d1 + d2) lo hi);
           _temperature :=
             Value (keller_temperature ((256 * d3 + d4) / 16)) |}).
Proof.
  intros H1 H2 H3 H4. cbv zeta.
  assert (Ep : Z.lor (Z.shiftl d1 8) d2 = 256 * d1 + d2)
    by (rewrite lor_shiftl_low by lia; lia).
  assert (Et : Z.shiftr (Z.lor (Z.shiftl d3 8) d4) 4 = (256 * d3 + d4) / 16).
  { rewrite lor_shiftl_low by lia. rewrite Z.shiftr_div_pow2 by lia.
    f_equal. lia. }
  rewrite Ep, Et.
  split; [reflexivity |]. split; [lia |]. split; [reflexivity |].
  split.
  - split; [apply Z.div_pos; lia |].
    assert ((256 * d3 + d4) / 16 < 4096); [| lia].
    apply Z.div_lt_upper_bound; lia.
  - intros self lo hi.
    unfold TempPressure.keller_decode, index. cbn [nth_error].
    change (negb (Z.land 0 (Z.shiftl 3 3) =? 0)) with false.
    change (negb (Z.land 0 (Z.shiftl 1 2) =? 0)) with false.
    cbv iota. rewrite Ep, Et. reflexivity.
Qed.

End Decoding.

Lemma keller_raw_words_witness :
  Z.lor (Z.shiftl 64 8) 0 = 256 * 64 + 0 /\
  0 <= Z.lor (Z.shiftl 64 8) 0 <= 65535 /\
  Z.shiftr (Z.lor (Z.shiftl 93 8) 112) 4 = (256 * 93 + 112) / 16 /\
  0 <= Z.shiftr (Z.lor (Z.shiftl 93 8) 112) 4 <= 4095.
Proof.
  assert (H64 : 0 <= 64 < 256) by lia.
  assert (H0 : 0 <= 0 < 256) by lia.
  assert (H93 : 0 <= 93 < 256) by lia.
  assert (H112 : 0 <= 112 < 256) by lia.
  destruct (keller_raw_words Z (fun raw lo hi => raw) (fun x => x) 64 0 93 112
              H64 H0 H93 H112) as (A & B & C & D & _).
  split; [exact A |]. split; [exact B |]. split; [exact C | exact D].
Defined.

End KellerDecoding.

(* ====================================================================== *)
(** * Properties of the construction of the sensors *)
(* ====================================================================== *)

Module TempPressureInitProofs.
Import TempPressure TempPressureInit KellerDecoding.

Section Construction.

Variable float : Type.
Variable nan : float.
Variable depth_of : float -> float.
Variable keller_pressure : Z -> float -> float -> float.
Variable keller_temperature : Z -> float.
Variable float_of_bits : Z -> float.
Variable float_of_int : Z -> float.

Local Abbreviation TP_init := (TP_init float float_of_bits float_of_int).
Local Abbreviation KellerLD_init :=
  (KellerLD_init float float_of_bits float_of_int).
Local Abbreviation temperature_sensor := (temperature_sensor float).
Local Abbreviation pressure_sensor :=
  (pressure_sensor float float_of_bits float_of_int).
Local Abbreviation sample :=
  (sample float nan depth_of keller_pressure keller_temperature).

(** ** The [try] blocks of [TP.__init__] *)

Lemma try_sensor_no_OSError {A : Type}
    (construct : list (init_event float) * outcome A)
    (init : A -> list (init_event float) * outcome unit * A)
    (ok failed : init_message) :
  snd (try_sensor float construct init ok failed) <> Raises OSError.
Proof.
  unfold try_sensor.
  destruct construct as [e [a | []]]; simpl; try discriminate.
  destruct (init a) as [[e' [u | []]] a']; simpl; discriminate.
Qed.

Lemma temperature_sensor_no_OSError env use_temp :
  snd (temperature_sensor env use_temp) <> Raises OSError.
Proof.
  unfold TempPressureInit.temperature_sensor.
  destruct use_temp; [apply try_sensor_no_OSError | discriminate].
Qed.

Lemma pressure_sensor_no_OSError env use_iniP30 use_iniP100 :
  snd (pressure_sensor env use_iniP30 use_iniP100) <> Raises OSError.
Proof.
  unfold TempPressureInit.pressure_sensor.
  destruct use_iniP30.
  - pose proof (try_sensor_no_OSError ([], new_MS5837 float env)
                  (fun m => ([], MS5837_init float env, m))
                  IniP30Initialized ErrorInitializingIniP30) as H.
    destruct (try_sensor float ([], new_MS5837 float env) _ _ _)
      as [e [[m |] | x]]; simpl in *; try discriminate.
    intros E. apply H. inversion E. reflexivity.
  - destruct use_iniP100; [| discriminate].
    pose proof (try_sensor_no_OSError
                  (KellerLD_new float 1 (keller_bus_open float env)
                     (on_raspberrypi float env))
                  (keller_init_unit float float_of_bits float_of_int env)
                  IniP100Initialized ErrorInitializingIniP100) as H.
    destruct (try_sensor float (KellerLD_new float 1 _ _) _ _ _)
      as [e [[k |] | x]]; simpl in *; try discriminate.
    intros E. apply H. inversion E. reflexivity.
Qed.

(** X13.  An [OSError] that leaves [TP.__init__] comes from [setup_file]: the
    [OSError] of a sensor constructor or [init] is logged and goes no
    further, whatever the flags and whichever sensor raises it. *)
Theorem TP_init_OSError_from_setup_file (env : InitEnv float)
    (filename : option string) (use_temp use_iniP30 use_iniP100 : bool) :
  snd (TP_init env filename use_temp use_iniP30 use_iniP100) = Raises OSError ->
  setup_file float env filename = Raises OSError.
Proof.
  unfold TempPressureInit.TP_init.
  pose proof (temperature_sensor_no_OSError env use_temp) as Ht.
  pose proof (pressure_sensor_no_OSError env use_iniP30 use_iniP100) as Hp.
  destruct (temperature_sensor env use_temp) as [e1 [t | x]]; simpl in *.
  - destruct (pressure_sensor env use_iniP30 use_iniP100) as [e2 [p | x]];
      simpl in *.
    + destruct (setup_file float env filename) as [path | x]; simpl.
      * discriminate.
      * intros E. inversion E. reflexivity.
    + intros E. exfalso. apply Hp. inversion E. reflexivity.
  - intros E. exfalso. apply Ht. inversion E. reflexivity.
Qed.

(** ** What [sample] needs from [__init__] *)

(** What [__init__] leaves in [Temp_sensor]. *)
Lemma temperature_sensor_none env use_temp e t :
  temperature_sensor env use_temp = (e, Returns t) ->
  (t = None <-> use_temp = false \/ new_TSYS01 float env = Raises OSError) /\
  (forall a, t = Some a ->
     use_temp = true /\ exists a0, new_TSYS01 float env = Returns a0).
Proof.
  unfold TempPressureInit.temperature_sensor, try_sensor.
  destruct use_temp.
  - destruct (new_TSYS01 float env) as [a0 | x].
    + destruct (TSYS01_init float env) as [u | y].
      * intros H; inversion H; subst. split.
        -- split; [discriminate | intros [F | F]; discriminate].
        -- intros a _. eauto.
      * destruct y; intros H; inversion H; subst. split.
        -- split; [discriminate | intros [F | F]; discriminate].
        -- intros a _. eauto.
    + destruct x; intros H; inversion H; subst. split.
      * split; auto.
      * intros a F. discriminate.
  - intros H; inversion H; subst. split.
    + split; auto.
    + intros a F. discriminate.
Qed.

(** With no pressure sensor asked for, [__init__] assigns none. *)
Lemma pressure_sensor_none env e p :
  pressure_sensor env false false = (e, Returns p) -> p = None.
Proof.
  unfold TempPressureInit.pressure_sensor. intros H; inversion H. reflexivity.
Qed.

Lemma pressure_sensor_some env use_iniP30 use_iniP100 e a :
  pressure_sensor env use_iniP30 use_iniP100 = (e, Returns (Some a)) ->
  use_iniP30 || use_iniP100 = true.
Proof.
  unfold TempPressureInit.pressure_sensor.
  destruct use_iniP30; [reflexivity |].
  destruct use_iniP100; [reflexivity | discriminate].
Qed.

(** [sample] on an object without [Temp_sensor], and on one with
    [Temp_sensor] and without [Pressure_sensor]. *)
Lemma sample_without_temperature_sensor (tp : TP float) (time : string) :
  Temp_sensor float tp = None ->
  sample tp time = ([], Raises AttributeError).
Proof.
  intros H.
  unfold TempPressure.sample, sample_temperature, temperature_body,
    except_OSError, temperature_read.
  rewrite H. reflexivity.
Qed.

Lemma sample_without_pressure_sensor (tp : TP float) (time : string) t :
  Temp_sensor float tp = Some t ->
  Pressure_sensor float tp = None ->
  snd (sample tp time) =
  Raises (match tsys01_read float t with
          | Returns _ => AttributeError
          | Raises OSError => AttributeError
          | Raises x => x
          end).
Proof.
  intros Ht Hp.
  unfold TempPressure.sample, sample_temperature, sample_pressure,
    temperature_body, pressure_body, except_OSError, temperature_read,
    pressure_read.
  rewrite Ht, Hp.
  destruct (tsys01_read float t) as [r | []]; reflexivity.
Qed.

(** X14.  What [sample] does on an object that [__init__] built without one
    of its sensors.  [Temp_sensor] is missing exactly when the temperature
    sensor was not asked for or its constructor raised [OSError];
    [Pressure_sensor] is missing when neither pressure sensor was asked
    for.  Without [Temp_sensor], [sample] is left by [AttributeError] at its
    first statement, with nothing logged.  With [Temp_sensor] and without
    [Pressure_sensor], the temperature is read first: when that read
    returns or raises [OSError], which is handled, [sample] is then left by
    [AttributeError]; when it raises anything else, that exception leaves
    [sample].  So [sample] returns normally only if the temperature sensor
    was asked for and its constructor returned, and one of the two pressure
    sensors was asked for. *)
Theorem sample_needs_constructed_sensors (env : InitEnv float)
    (filename : option string) (use_temp use_iniP30 use_iniP100 : bool)
    (tp : TP float) (time : string) :
  snd (TP_init env filename use_temp use_iniP30 use_iniP100) = Returns tp ->
  (Temp_sensor float tp = None <->
   use_temp = false \/ new_TSYS01 float env = Raises OSError) /\
  (use_iniP30 = false -> use_iniP100 = false ->
   Pressure_sensor float tp = None) /\
  (Temp_sensor float tp = None ->
   sample tp time = ([], Raises AttributeError)) /\
  (forall t, Temp_sensor float tp = Some t ->
   Pressure_sensor float tp = None ->
   snd (sample tp time) =
   Raises (match tsys01_read float t with
           | Returns _ => AttributeError
           | Raises OSError => AttributeError
           | Raises x => x
           end)) /\
  (forall v, snd (sample tp time) = Returns v ->
   use_temp = true /\
   (exists t, new_TSYS01 float env = Returns t) /\
   use_iniP30 || use_iniP100 = true).
Proof.
  unfold TempPressureInit.TP_init.
  destruct (temperature_sensor env use_temp) as [e1 [t | x]] eqn:Ht;
    simpl; [| discriminate].
  destruct (pressure_sensor env use_iniP30 use_iniP100) as [e2 [p | x]] eqn:Hp;
    simpl; [| discriminate].
  destruct (setup_file float env filename) as [path | x]; simpl;
    [| discriminate].
  intros E. inversion E; subst tp. clear E. cbn [Temp_sensor Pressure_sensor].
  destruct (temperature_sensor_none _ _ _ _ Ht) as (HT1 & HT2).
  split; [exact HT1 |].
  split.
  { intros -> ->. exact (pressure_sensor_none _ _ _ Hp). }
  split.
  { intros H. apply sample_without_temperature_sensor. exact H. }
  split.
  { intros t0 H1 H2. apply sample_without_pressure_sensor; assumption. }
  intros v Hv.
  destruct t as [t |].
  - destruct p as [p |].
    + destruct (HT2 t eq_refl) as (A & B).
      split; [exact A |]. split; [exact B |].
      exact (pressure_sensor_some _ _ _ _ _ Hp).
    + pose proof (sample_without_pressure_sensor
                    {| Temp_sensor := Some t; Pressure_sensor := None;
                       _filename := path |} time t eq_refl eq_refl) as F.
      rewrite F in Hv. discriminate.
  - pose proof (sample_without_temperature_sensor
                  {| Temp_sensor := None; Pressure_sensor := p;
                     _filename := path |} time eq_refl) as F.
    rewrite F in Hv. discriminate.
Qed.

(** ** [KellerLD.init] *)

Lemma word16 (hi lo : Z) :
  0 <= hi < 256 -> 0 <= lo < 256 ->
  Z.lor (Z.shiftl hi 8) lo = 256 * hi + lo /\
  0 <= Z.lor (Z.shiftl hi 8) lo < 65536.
Proof.
  intros H1 H2. rewrite lor_shiftl_low by lia. lia.
Qed.

Lemma word32 (ms ls : Z) :
  0 <= ms < 65536 -> 0 <= ls < 65536 ->
  Z.lor (Z.shiftl ms 16) ls = 65536 * ms + ls /\
  0 <= Z.lor (Z.shiftl ms 16) ls < 2 ^ 32.
Proof.
  intros H1 H2. rewrite lor_shiftl_low by lia. lia.
Qed.

(** X12.  With a bus that answers the four transfers with three bytes each,
    [KellerLD.init] selects the registers 0x13, 0x14, 0x15, 0x16 in this
    order, returns True, and leaves in [pMin] and [pMax] the floats whose
    bit patterns are the big-endian 32-bit words made of bytes 1 and 2 of
    the first two, and of the last two, answers; the words fit 32 bits, so
    [struct.pack] does not raise. *)
Theorem KellerLD_init_reads_limits (self : KellerLD float) (b : SMBus)
    (bus : InitBus) (st h l : nat -> Z) :
  _bus float self = Some b ->
  (forall k reg, (k < 4)%nat ->
     init_write_byte bus k _SLAVE_ADDRESS reg = Returns tt) ->
  (forall k, (k < 4)%nat ->
     init_read_i2c_block_data bus k _SLAVE_ADDRESS 0 3
     = Returns [st k; h k; l k]) ->
  (forall k, (k < 4)%nat -> 0 <= h k < 256 /\ 0 <= l k < 256) ->
  let word (i j : nat) :=
    16777216 * h i + 65536 * l i + 256 * h j + l j in
  KellerLD_init self bus =
  ([BusWrite _SLAVE_ADDRESS 19; BusWrite _SLAVE_ADDRESS 20;
    BusWrite _SLAVE_ADDRESS 21; BusWrite _SLAVE_ADDRESS 22],
   Returns true,
   {| _bus := Some b;
      pMin := Value (float_of_bits (word 0%nat 1%nat));
      pMax := Value (float_of_bits (word 2%nat 3%nat));
      _pressure := _pressure float self;
      _temperature := _temperature float self |}) /\
  0 <= word 0%nat 1%nat < 2 ^ 32 /\ 0 <= word 2%nat 3%nat < 2 ^ 32.
Proof.
  intros Hb Hw Hr Hbyte. cbv zeta.
  destruct (Hbyte 0%nat ltac:(lia)) as (Hh0 & Hl0).
  destruct (Hbyte 1%nat ltac:(lia)) as (Hh1 & Hl1).
  destruct (Hbyte 2%nat ltac:(lia)) as (Hh2 & Hl2).
  destruct (Hbyte 3%nat ltac:(lia)) as (Hh3 & Hl3).
  destruct (word16 _ _ Hh0 Hl0) as (E0 & R0).
  destruct (word16 _ _ Hh1 Hl1) as (E1 & R1).
  destruct (word16 _ _ Hh2 Hl2) as (E2 & R2).
  destruct (word16 _ _ Hh3 Hl3) as (E3 & R3).
  destruct (word32 _ _ R0 R1) as (Emin & Rmin).
  destruct (word32 _ _ R2 R3) as (Emax & Rmax).
  assert (Hword : forall k, (k < 4)%nat -> forall reg,
            read_word float bus k reg
            = ([BusWrite _SLAVE_ADDRESS reg],
               Returns (Z.lor (Z.shiftl (h k) 8) (l k)))).
  { intros k Hk reg. unfold read_word.
    rewrite (Hw k reg Hk), (Hr k Hk). reflexivity. }
  unfold TempPressureInit.KellerLD_init. rewrite Hb.
  rewrite !Hword by lia.
  unfold pack_I.
  destruct (Z.leb_spec 0 (Z.lor (Z.shiftl (Z.lor (Z.shiftl (h 0%nat) 8)
              (l 0%nat)) 16) (Z.lor (Z.shiftl (h 1%nat) 8) (l 1%nat))));
    [| lia].
  destruct (Z.ltb_spec (Z.lor (Z.shiftl (Z.lor (Z.shiftl (h 0%nat) 8)
              (l 0%nat)) 16) (Z.lor (Z.shiftl (h 1%nat) 8) (l 1%nat)))
              (2 ^ 32)); [| lia].
  destruct (Z.leb_spec 0 (Z.lor (Z.shiftl (Z.lor (Z.shiftl (h 2%nat) 8)
              (l 2%nat)) 16) (Z.lor (Z.shiftl (h 3%nat) 8) (l 3%nat))));
    [| lia].
  destruct (Z.ltb_spec (Z.lor (Z.shiftl (Z.lor (Z.shiftl (h 2%nat) 8)
              (l 2%nat)) 16) (Z.lor (Z.shiftl (h 3%nat) 8) (l 3%nat)))
              (2 ^ 32)); [| lia].
  cbn [andb app].
  rewrite Emin, Emax, E0, E1, E2, E3.
  unfold with_pMin, with_pMax. cbn [_bus pMin pMax _pressure _temperature].
  rewrite Hb.
  replace (65536 * (256 * h 0%nat + l 0%nat) + (256 * h 1%nat + l 1%nat))
    with (16777216 * h 0%nat + 65536 * l 0%nat + 256 * h 1%nat + l 1%nat)
    by lia.
  replace (65536 * (256 * h 2%nat + l 2%nat) + (256 * h 3%nat + l 3%nat))
    with (16777216 * h 2%nat + 65536 * l 2%nat + 256 * h 3%nat + l 3%nat)
    by lia.
  split; [reflexivity |]. lia.
Qed.

(** ** No bus for the [KellerLD] sensor *)

(** X15.  When the I2C bus is not found, [TP.__init__] with the [KellerLD] sensor
    still completes: [KellerLD.init] logs "No bus!" and returns False, which
    [__init__] does not look at, so the sensor is logged as initialised
    successfully.  Every later [sample] is then left by [TypeError] (as
    long as the temperature read returns or raises [OSError]): [read]
    returns False and [sample] unpacks it. *)
Theorem no_bus_logged_as_success (env : InitEnv float)
    (filename : option string) (use_temp : bool)
    (e1 : list (init_event float)) (t : TSYS01 float) (path : string) :
  keller_bus_open float env = BusNotFound ->
  temperature_sensor env use_temp = (e1, Returns (Some t)) ->
  only_OSError (tsys01_read float t) ->
  setup_file float env filename = Returns path ->
  exists e tp,
    TP_init env filename use_temp false true = (e, Returns tp) /\
    In (SensorLog (Log WARNING (NoBus float))) e /\
    In (InitLog INFO IniP100Initialized) e /\
    forall time, snd (sample tp time) = Raises TypeError.
Proof.
  intros Hbus Ht Hread Hset.
  unfold TempPressureInit.TP_init, TempPressureInit.pressure_sensor.
  rewrite Ht, Hbus, Hset. cbn.
  eexists. eexists. split; [reflexivity |].
  split; [apply in_or_app; right; destruct (on_raspberrypi float env);
          simpl; auto |].
  split; [apply in_or_app; right; destruct (on_raspberrypi float env);
          simpl; auto |].
  intros time.
  unfold TempPressure.sample, sample_temperature, sample_pressure,
    temperature_body, pressure_body, except_OSError, temperature_read,
    pressure_read, KellerLD_read. cbn.
  destruct (tsys01_read float t) as [r | x] eqn:Hr; [reflexivity |].
  rewrite (Hread x eq_refl). reflexivity.
Qed.

End Construction.

(** ** Concrete runs *)

Lemma TP_init_OSError_from_setup_file_witness :
  setup_file Z
    (bench_env (Returns 20) (Returns (Pair 1013 21)) BusNotFound
       (Raises OSError)) None
  = Raises OSError.
Proof.
  apply (TP_init_OSError_from_setup_file Z (fun x => x) (fun x => x)
           (bench_env (Returns 20) (Returns (Pair 1013 21)) BusNotFound
              (Raises OSError)) None true false true).
  reflexivity.
Defined.

Lemma sample_needs_constructed_sensors_witness :
  let tp : TP Z :=
    {| Temp_sensor := Some {| tsys01_read := Raises TypeError |};
       Pressure_sensor := None;
       _filename := "Minion_TP/TP_log.csv" |} in
  snd (sample Z 0 (fun p => p - 10) (fun raw lo hi => raw) (fun x => x)
         tp "20241022_120000")
  = Raises TypeError.
Proof.
  cbv zeta.
  destruct (sample_needs_constructed_sensors Z 0 (fun p => p - 10)
              (fun raw lo hi => raw) (fun x => x) (fun x => x) (fun x => x)
              (bench_env (Raises TypeError) (Returns (Pair 1013 21))
                 BusNotFound (Returns "Minion_TP/TP_log.csv"%string))
              None true false false
              {| Temp_sensor := Some {| tsys01_read := Raises TypeError |};
                 Pressure_sensor := None;
                 _filename := "Minion_TP/TP_log.csv" |}
              "20241022_120000"%string)
    as (_ & _ & _ & H & _); [reflexivity |].
  exact (H _ eq_refl eq_refl).
Defined.

Lemma KellerLD_init_reads_limits_witness :
  let b := {| write_byte := fun _ _ => Returns tt;
              read_i2c_block_data := fun _ _ _ => Returns [0; 0; 0; 0; 0] |} in
  let self := {| _bus := Some b; pMin := Unset; pMax := Unset;
                 _pressure := Unset; _temperature := Unset |} in
  snd (fst (KellerLD_init Z (fun x => x) (fun x => x) self steady_init_bus))
  = Returns true.
Proof.
  cbv zeta.
  destruct (KellerLD_init_reads_limits Z (fun x => x) (fun x => x)
              {| _bus := Some {| write_byte := fun _ _ => Returns tt;
                                 read_i2c_block_data :=
                                   fun _ _ _ => Returns [0; 0; 0; 0; 0] |};
                 pMin := Unset; pMax := Unset;
                 _pressure := Unset; _temperature := Unset |}
              {| write_byte := fun _ _ => Returns tt;
                 read_i2c_block_data := fun _ _ _ => Returns [0; 0; 0; 0; 0] |}
              steady_init_bus (fun _ => 0) (fun _ => 63) (fun _ => 128))
    as (E & _).
  - reflexivity.
  - intros k reg Hk. reflexivity.
  - intros k Hk. reflexivity.
  - intros k Hk. lia.
  - rewrite E. reflexivity.
Defined.

Lemma no_bus_logged_as_success_witness :
  exists e tp,
    TP_init Z (fun x => x) (fun x => x)
      (bench_env (Raises OSError) (Returns (Pair 1013 21)) BusNotFound
         (Returns "Minion_TP/TP_log.csv"%string))
      None true false true = (e, Returns tp) /\
    In (SensorLog (Log WARNING (NoBus Z))) e /\
    In (InitLog INFO IniP100Initialized) e /\
    forall time,
      snd (sample Z 0 (fun p => p - 10) (fun raw lo hi => raw) (fun x => x)
             tp time) = Raises TypeError.
Proof.
  apply (no_bus_logged_as_success Z 0 (fun p => p - 10)
           (fun raw lo hi => raw) (fun x => x) (fun x => x) (fun x => x)
           (bench_env (Raises OSError) (Returns (Pair 1013 21)) BusNotFound
              (Returns "Minion_TP/TP_log.csv"%string))
           None true
           [InitLog INFO TemperatureInitialized]
           {| tsys01_read := Raises OSError |} "Minion_TP/TP_log.csv").
  - reflexivity.
  - reflexivity.
  - intros x Hx. inversion Hx. reflexivity.
  - reflexivity.
Defined.

End TempPressureInitProofs.

(* ====================================================================== *)
(** * Properties of the camera methods and of their use of the ring *)
(* ====================================================================== *)

Module CameraProofs.
Import Camera.

(** ** Requests to the ring in a run *)

Lemma ring_requests_app t1 t2 :
  ring_requests (t1 ++ t2) = ring_requests t1 ++ ring_requests t2.
Proof.
  induction t1 as [| [b | c | s | lvl m] t1 IH]; simpl; congruence.
Qed.

(** A body that makes no request to the ring. *)
Definition quiet {A : Type} (c : C A) : Prop := ring_requests (snd c) = [].

Lemma quiet_bind {A B : Type} (m : C A) (f : A -> C B) :
  quiet m -> (forall a, quiet (f a)) -> quiet (bind m f).
Proof.
  unfold quiet, bind. intros Hm Hf.
  destruct m as [[a | e] t]; simpl in *; [| exact Hm].
  specialize (Hf a). destruct (f a) as [r t']. simpl in *.
  rewrite ring_requests_app, Hm, Hf. reflexivity.
Qed.

Lemma quiet_call cam i c : quiet (call cam i c).
Proof. reflexivity. Qed.

Lemma quiet_sleep s : quiet (sleep s).
Proof.
  unfold quiet, sleep.
  destruct (LightRing.accepting_sleep (1000 * s)); reflexivity.
Qed.

Lemma quiet_log lvl m : quiet (emit (Log lvl m)).
Proof. reflexivity. Qed.

Lemma quiet_ret {A : Type} (a : A) : quiet (ret a).
Proof. reflexivity. Qed.

Lemma quiet_save_metadata self cam i mode :
  quiet (save_metadata self cam i mode).
Proof.
  unfold save_metadata. destruct (capture_camera_settings self).
  - repeat (apply quiet_bind; [apply quiet_call | intros _]).
    apply quiet_call.
  - apply quiet_ret.
Qed.

Lemma quiet_controls cam i cfg :
  quiet (if is_empty cfg then ret tt else call cam i (SetControls cfg)).
Proof. destruct (is_empty cfg); reflexivity. Qed.

Ltac quiet_steps :=
  repeat (apply quiet_bind;
          [first [apply quiet_call | apply quiet_sleep | apply quiet_log
                 | apply quiet_controls | apply quiet_save_metadata]
          | intros _]).

Lemma quiet_picture_loop self cam modes : forall i,
  quiet (picture_loop self cam i modes).
Proof.
  induction modes as [| [mode cfg] rest IH]; intros i; cbn [picture_loop].
  - apply quiet_ret.
  - quiet_steps. apply IH.
Qed.

Lemma quiet_video_body self cam duration i mode cfg :
  quiet (video_body self cam duration i mode cfg).
Proof.
  unfold video_body. quiet_steps. apply quiet_save_metadata.
Qed.

Lemma quiet_except_Exception body :
  quiet body -> quiet (except_Exception body).
Proof.
  unfold quiet, except_Exception. destruct body as [[u | e] t]; simpl; auto.
  intros H. rewrite ring_requests_app, H. reflexivity.
Qed.

Lemma except_Exception_returns body : fst (except_Exception body) = Returns tt.
Proof.
  unfold except_Exception. destruct body as [[[] | e] t]; reflexivity.
Qed.

Lemma video_loop_returns self cam duration modes : forall i,
  fst (video_loop self cam duration i modes) = Returns tt /\
  quiet (video_loop self cam duration i modes).
Proof.
  induction modes as [| [mode cfg] rest IH]; intros i; cbn [video_loop].
  - split; reflexivity.
  - destruct (IH (S i)) as (A & B). split.
    + pose proof (except_Exception_returns
                    (video_body self cam duration i mode cfg)) as E.
      unfold bind.
      destruct (except_Exception (video_body self cam duration i mode cfg))
        as [[[] | e] t]; simpl in E; [| discriminate].
      destruct (video_loop self cam duration (S i) rest) as [r t'].
      simpl in *. exact A.
    + apply quiet_bind.
      * apply quiet_except_Exception, quiet_video_body.
      * intros _. exact B.
Qed.

(** ** [picture] and [video] *)

Lemma picture_returns_requests self cam :
  fst (picture self cam) = Returns tt ->
  ring_requests (snd (picture self cam)) = [true; false].
Proof.
  unfold picture.
  pose proof (quiet_picture_loop self cam (config self) 0%nat) as Hq.
  unfold quiet in Hq. unfold bind at 1 2. unfold emit.
  destruct (picture_loop self cam 0 (config self)) as [[[] | e] t];
    simpl in *; [| discriminate].
  intros _. rewrite ring_requests_app, Hq. reflexivity.
Qed.

Lemma video_stop_requests self cam duration :
  cam 0%nat Stop = Returns tt ->
  ring_requests (snd (video self cam duration)) = [true; false].
Proof.
  intros Hstop. unfold video, finally, call, emit. rewrite Hstop.
  destruct (video_loop_returns self cam duration (config self) 0%nat)
    as (_ & B).
  unfold quiet in B.
  destruct (video_loop self cam duration 0 (config self)) as [r t].
  simpl in B.
  destruct (cam 0%nat Start) as [[] | e1];
    simpl; rewrite ?ring_requests_app, ?B; reflexivity.
Qed.

(** X16.  [picture] asks for the light before the captures and switches it off
    after them only if it gets that far: when a camera or file call raises,
    the exception leaves [picture] with the ring requested on and not
    switched off again. *)
Theorem picture_ring_requests (self : Camera_) (cam : Picamera2) :
  ring_requests (snd (picture self cam)) =
  match fst (picture self cam) with
  | Returns _ => [true; false]
  | Raises _ => [true]
  end.
Proof.
  unfold picture.
  pose proof (quiet_picture_loop self cam (config self) 0%nat) as Hq.
  unfold quiet in Hq. unfold bind at 1 2. unfold emit.
  destruct (picture_loop self cam 0 (config self)) as [[[] | e] t];
    simpl in *.
  - rewrite ring_requests_app, Hq. reflexivity.
  - rewrite Hq. reflexivity.
Qed.

(** X17.  [video] lets no exception of the recording of a mode out (each is
    logged and the next mode is tried): it returns normally exactly when
    [cam.start()] and the final [cam.stop()] return.  The ring is switched
    off at the end whenever that final [cam.stop()] returns, even when
    [cam.start()] raised; if [cam.stop()] raises, the ring is left
    requested on. *)
Theorem video_ring_requests (self : Camera_) (cam : Picamera2)
    (duration : Z) :
  fst (video self cam duration) =
    match cam 0%nat Stop, cam 0%nat Start with
    | Raises e, _ => Raises e
    | Returns _, Raises e => Raises e
    | Returns _, Returns _ => Returns tt
    end /\
  ring_requests (snd (video self cam duration)) =
    match cam 0%nat Stop with
    | Returns _ => [true; false]
    | Raises _ => [true]
    end.
Proof.
  unfold video, finally, call, emit.
  destruct (video_loop_returns self cam duration (config self) 0%nat)
    as (A & B).
  unfold quiet in B.
  destruct (video_loop self cam duration 0 (config self)) as [r t].
  simpl in A, B. subst r.
  destruct (cam 0%nat Start) as [[] | e1], (cam 0%nat Stop) as [[] | e2];
    simpl; rewrite ?ring_requests_app, ?B; split; reflexivity.
Qed.

(** ** A recording that is not stopped *)

Lemma count_app {A : Type} (f : A -> bool) (l1 l2 : list A) :
  List.length (List.filter f (l1 ++ l2))
  = (List.length (List.filter f l1) + List.length (List.filter f l2))%nat.
Proof. rewrite filter_app, length_app. reflexivity. Qed.

(** [sleep] raises on every negative duration. *)
Lemma sleep_negative (seconds : Z) :
  seconds < 0 -> exists x, sleep seconds = (Raises x, []).
Proof.
  intros Hneg. unfold sleep, LightRing.accepting_sleep.
  destruct (LightRingProofs.sleep_rejects_cases (1000 * seconds))
    as (A & B & _).
  destruct (Z.lt_ge_cases (1000 * seconds) (- LightRing.SLEEP_LIMIT_MS))
    as [Hlo | Hlo].
  - rewrite A by auto. eauto.
  - rewrite B by lia. eauto.
Qed.

Lemma video_loop_negative self cam duration modes : forall i,
  (forall j c, cam j c = Returns tt) ->
  duration < 0 ->
  recordings_started (snd (video_loop self cam duration i modes))
    = List.length modes /\
  recordings_stopped (snd (video_loop self cam duration i modes)) = 0%nat.
Proof.
  intros i Hcam Hneg. revert i.
  induction modes as [| [mode cfg] rest IH]; intros i; cbn [video_loop].
  - split; reflexivity.
  - destruct (IH (S i)) as (A & B).
    assert (Hbody : exists t,
              except_Exception (video_body self cam duration i mode cfg)
                = (Returns tt, t) /\
              recordings_started t = 1%nat /\ recordings_stopped t = 0%nat).
    { destruct (sleep_negative duration Hneg) as [x Hx].
      unfold video_body, call, bind, emit. rewrite !Hcam, Hx.
      change (sleep 1) with (Returns tt, [Sleep 1]).
      destruct (is_empty cfg); cbn; rewrite ?Hcam; cbn;
        eexists; repeat split. }
    destruct Hbody as (t & Ht & S1 & S0).
    unfold bind. rewrite Ht.
    destruct (video_loop self cam duration (S i) rest) as [r t'].
    cbn [snd] in *. unfold recordings_started, recordings_stopped in *.
    rewrite !count_app, S1, S0, A, B. split; reflexivity.
Qed.

(** X18.  With a negative [duration] and a camera whose calls all return, [video]
    still returns normally and switches the ring off, but [time.sleep]
    raises after each [start_recording]: a recording is started for every
    mode and [stop_recording] is never called. *)
Theorem video_negative_duration (self : Camera_) (cam : Picamera2)
    (duration : Z) :
  (forall j c, cam j c = Returns tt) ->
  duration < 0 ->
  fst (video self cam duration) = Returns tt /\
  recordings_started (snd (video self cam duration))
    = List.length (config self) /\
  recordings_stopped (snd (video self cam duration)) = 0%nat /\
  ring_requests (snd (video self cam duration)) = [true; false].
Proof.
  intros Hcam Hneg.
  destruct (video_loop_negative self cam duration (config self) 0%nat
              Hcam Hneg) as (A & B).
  destruct (video_loop_returns self cam duration (config self) 0%nat)
    as (R & Q).
  pose proof (video_stop_requests self cam duration (Hcam 0%nat Stop)) as Hreq.
  split; [| split; [| split; [| exact Hreq]]];
    clear Hreq; unfold video, finally, call, emit, bind; rewrite !Hcam;
    destruct (video_loop self cam duration 0 (config self)) as [r t];
    cbn [fst snd] in *; subst r; cbn.
  - reflexivity.
  - unfold recordings_started in *. rewrite count_app, A. cbn. lia.
  - unfold recordings_stopped in *. rewrite count_app, B. reflexivity.
Qed.

Lemma video_negative_duration_witness :
  let self := new_camera "/home/pi/media/FIN" true in
  fst (video self steady_cam (-1)) = Returns tt /\
  recordings_started (snd (video self steady_cam (-1))) = 2%nat /\
  recordings_stopped (snd (video self steady_cam (-1))) = 0%nat /\
  ring_requests (snd (video self steady_cam (-1))) = [true; false].
Proof.
  apply (video_negative_duration (new_camera "/home/pi/media/FIN" true)
           steady_cam (-1)).
  - intros j c. reflexivity.
  - lia.
Defined.

(** ** [set_config] *)

Lemma lookup_single m c m' :
  lookup m' [(m, c)] = if String.eqb m m' then Some c else None.
Proof. reflexivity. Qed.

(** X19.  [set_config(mode)] with a known mode keeps that mode alone, with its
    controls, and does so for good: on the object it leaves, [set_config]
    accepts the same mode again and raises [ValueError] for every other
    one, the other modes of [__init__] included. *)
Theorem set_config_narrows (self self' : Camera_) (m : string)
    (e : list event) :
  set_config (ModeStr m) self = (e, Returns self') ->
  (exists c, lookup m (config self) = Some c /\ config self' = [(m, c)]) /\
  forall m' : string,
    (snd (set_config (ModeStr m') self') = Raises ValueError <-> m' <> m) /\
    (m' = m -> snd (set_config (ModeStr m') self') = Returns self').
Proof.
  unfold set_config.
  destruct (lookup m (config self)) as [c |] eqn:Hl; [| discriminate].
  intros H. inversion H; subst. clear H.
  split; [exists c; auto |].
  intros m'. cbn [config with_config]. rewrite lookup_single.
  destruct (String.eqb_spec m m') as [-> | Hne]; simpl.
  - split; [split; [discriminate | congruence] | reflexivity].
  - split; [split; [congruence | reflexivity] | congruence].
Qed.

Lemma set_config_narrows_witness :
  let self := new_camera "/home/minion/test_imgs" true in
  let self' := with_config [("auto"%string, [])] self in
  (exists c, lookup "auto" (config self) = Some c /\
             config self' = [("auto"%string, c)]) /\
  forall m' : string,
    (snd (set_config (ModeStr m') self') = Raises ValueError
     <-> m' <> "auto"%string) /\
    (m' = "auto"%string ->
     snd (set_config (ModeStr m') self') = Returns self').
Proof.
  apply (set_config_narrows (new_camera "/home/minion/test_imgs" true)
           (with_config [("auto"%string, [])]
              (new_camera "/home/minion/test_imgs" true))
           "auto" []).
  reflexivity.
Defined.

End CameraProofs.

(* ====================================================================== *)
(** * The camera's requests, run by the light-ring controller *)
(* ====================================================================== *)

Module CameraRing.
Import LightRing LightRingProofs LightRingTiming.

Section WithPlatform.

Variable time_sleep : Z -> outcome unit.

Local Abbreviation light_ring_run_thread_tick :=
  (LightRing.light_ring_run_thread_tick time_sleep).
Local Abbreviation run_ticks := (LightRing.run_ticks time_sleep).
Local Abbreviation reachable := (LightRing.reachable time_sleep).
Local Abbreviation exec_action := (LightRing.exec_action time_sleep).
Local Abbreviation exec := (LightRing.exec time_sleep).
Local Abbreviation Inv := (LightRing.Inv time_sleep).

(** ** Runs of steps *)

Lemma exec_app l1 : forall l2 s s',
  exec (l1 ++ l2) s = Some s' ->
  exists m, exec l1 s = Some m /\ exec l2 m = Some s'.
Proof.
  induction l1 as [| a l1 IH]; intros l2 s s' H; simpl in *.
  - eauto.
  - destruct (exec_action a s) as [[e s1] |]; [| discriminate].
    apply IH. exact H.
Qed.

Lemma exec_ticks (n : nat) : forall s s',
  exec (repeat Tick n) s = Some s' ->
  exists e, run_ticks n s = (e, Returns s').
Proof.
  induction n as [| n IH]; intros s s' H.
  - simpl in H. inversion H; subst. exists []. reflexivity.
  - cbn [repeat LightRing.exec LightRing.exec_action] in H.
    destruct (ring_alive s); [| discriminate].
    destruct (light_ring_run_thread_tick s) as [e1 [s1 | x]] eqn:Ht;
      [| discriminate].
    destruct (IH s1 s' H) as [e2 Hr].
    exists (e1 ++ e2). simpl. rewrite Ht, Hr. reflexivity.
Qed.

Lemma exec_set b s s' :
  exec [Set_ b] s = Some s' -> s' = snd (light_ring_set b s).
Proof.
  simpl. destruct (light_ring_set b s) as [e s1]. intros H.
  inversion H. reflexivity.
Qed.

Lemma exec_cons a l s s' :
  exec (a :: l) s = Some s' ->
  exists m, exec [a] s = Some m /\ exec l m = Some s'.
Proof. apply (exec_app [a] l). Qed.

Lemma ticks_keep_off n s s' :
  ring_state s = false -> led_ring s = LOW ->
  exec (repeat Tick n) s = Some s' ->
  ring_state s' = false /\ led_ring s' = LOW /\
  ring_off_time s' = ring_off_time s + LIGHT_RING_REFRESH_DELAY * Z.of_nat n.
Proof.
  intros Hst Hled H. destruct (exec_ticks n s s' H) as [e Hr].
  destruct (run_ticks_off n s e s' Hst Hr) as (A & B & C). auto.
Qed.

Lemma set_false_off s :
  Inv s ->
  ring_state (snd (light_ring_set false s)) = false /\
  led_ring (snd (light_ring_set false s)) = LOW /\
  ring_off_time (snd (light_ring_set false s)) = ring_off_time s.
Proof.
  intros [_ _ _ _ H5]. unfold light_ring_set.
  destruct s as [st on off fl cnt ton toff al fc led]; simpl in *.
  destruct st; simpl.
  - destruct al; simpl; auto.
  - split; [reflexivity |]. split; [| reflexivity].
    destruct led; [reflexivity |]. specialize (H5 eq_refl). discriminate.
Qed.

(** ** The ring after the camera has used it *)

Lemma ends_off (reqs : list bool) : forall gaps i s s',
  reachable s ->
  exec (Camera.with_ticks gaps i (reqs ++ [false])) s = Some s' ->
  ring_state s' = false /\ led_ring s' = LOW.
Proof.
  induction reqs as [| b rest IH]; intros gaps i s s' Hr H.
  - cbn [app Camera.with_ticks] in H.
    destruct (exec_app _ _ _ _ H) as (m1 & H1 & H2).
    destruct (exec_cons _ _ _ _ H2) as (m2 & H3 & H4).
    pose proof (exec_reachable _ _ _ Hr H1) as Hr1.
    apply exec_set in H3. subst m2.
    destruct (set_false_off m1 (reachable_inv _ Hr1)) as (A & B & _).
    destruct (ticks_keep_off _ _ _ A B H4) as (A' & B' & _). auto.
  - cbn [app Camera.with_ticks] in H.
    destruct (exec_app _ _ _ _ H) as (m1 & H1 & H2).
    destruct (exec_cons _ _ _ _ H2) as (m2 & H3 & H4).
    pose proof (exec_reachable _ _ _ Hr H1) as Hr1.
    pose proof (exec_reachable _ _ _ Hr1 H3) as Hr2.
    exact (IH gaps (S i) m2 s' Hr2 H4).
Qed.

(** X20.  After a [picture()] that returned, or a [video()] whose final
    [cam.stop()] returned, the ring is logically off with its pin low,
    from whatever state the controller could be in before and whatever
    numbers of ticks of the ring thread fell before, between and after the
    two requests of the method. *)
Theorem ring_off_after_camera (self : Camera.Camera_)
    (cam : Camera.Picamera2) (duration : Z) (reqs : list bool)
    (gaps : nat -> nat) (s s' : RingState) :
  reachable s ->
  (fst (Camera.picture self cam) = Returns tt /\
   reqs = Camera.ring_requests (snd (Camera.picture self cam))) \/
  (cam 0%nat Camera.Stop = Returns tt /\
   reqs = Camera.ring_requests (snd (Camera.video self cam duration))) ->
  exec (Camera.with_ticks gaps 0 reqs) s = Some s' ->
  ring_state s' = false /\ led_ring s' = LOW.
Proof.
  intros Hr Hreqs H.
  assert (E : reqs = [true] ++ [false]).
  { destruct Hreqs as [(Hp & ->) | (Hv & ->)].
    - exact (CameraProofs.picture_returns_requests self cam Hp).
    - exact (CameraProofs.video_stop_requests self cam duration Hv). }
  rewrite E in H. exact (ends_off [true] gaps 0%nat s s' Hr H).
Qed.


(** ** A second picture too soon after the first *)

Lemma run_ticks_on_resets_off (k : nat) : forall s e s',
  (1 <= k)%nat ->
  ring_state s = true ->
  ring_on_time s + LIGHT_RING_REFRESH_DELAY * Z.of_nat k
    < LIGHT_RING_MAX_ON_TIME ->
  run_ticks k s = (e, Returns s') ->
  ring_state s' = true /\ ring_off_time s' = 0.
Proof.
  intros s e s' Hk Hst Hlt Hr.
  replace k with ((k - 1) + 1)%nat in Hr by lia.
  destruct (run_ticks_add _ _ _ _ _ Hr) as (e1 & m & e2 & H1 & H2).
  assert (Hlt1 : ring_on_time s
                 + LIGHT_RING_REFRESH_DELAY * Z.of_nat (k - 1)
                 < LIGHT_RING_MAX_ON_TIME) by (unfold_consts; lia).
  destruct (run_ticks_on _ _ _ _ Hst Hlt1 H1) as (A & B).
  destruct (run_ticks_S _ _ _ _ H2) as (e3 & m' & e4 & Ht & H0 & _).
  simpl in H0. inversion H0; subst m'.
  assert (Hlt2 : ring_on_time m + LIGHT_RING_REFRESH_DELAY
                 < LIGHT_RING_MAX_ON_TIME) by (rewrite B; unfold_consts; lia).
  destruct (tick_while_on _ _ _ A Hlt2 Ht) as (C & _ & D). auto.
Qed.


End WithPlatform.

(** ** Concrete runs *)

Lemma ring_off_after_camera_witness :
  let self := Camera.new_camera "/home/pi/media/INI" true in
  ring_state (mkRing false 0 1000 false 0 250 250 true 0 LOW) = false /\
  led_ring (mkRing false 0 1000 false 0 250 250 true 0 LOW) = LOW.
Proof.
  apply (ring_off_after_camera accepting_sleep
           (Camera.new_camera "/home/pi/media/INI" true)
           Camera.steady_cam 10 [true; false]
           (fun i => match i with 1%nat => 4%nat | 2%nat => 2%nat | _ => 0%nat end)
           initial_state
           (mkRing false 0 1000 false 0 250 250 true 0 LOW)).
  - exact reach_init.
  - left. split; reflexivity.
  - vm_compute. reflexivity.
Defined.


End CameraRing.

(* ====================================================================== *)
(** * Properties of the external clock driver *)
(* ====================================================================== *)

Module RtcProofs.
Import Rtc.

(** ** Checking a property on every number of a range *)

Lemma range_check (f : Z -> bool) (n : nat) :
  forallb f (map Z.of_nat (seq 0 n)) = true ->
  forall z, 0 <= z < Z.of_nat n -> f z = true.
Proof.
  intros H z Hz. rewrite forallb_forall in H. apply H.
  rewrite <- (Z2Nat.id z) by lia.
  apply in_map, in_seq. lia.
Qed.

Lemma int_to_bcd_range (n : Z) :
  0 <= n < 3000 -> _int_to_bcd n = Returns (bcd (n mod 100)).
Proof.
  intros Hn.
  pose proof (range_check
    (fun z => match _int_to_bcd z with
              | Returns v => v =? bcd (z mod 100)
              | Raises _ => false
              end) 3000) as H.
  specialize (H ltac:(vm_compute; reflexivity) n ltac:(lia)).
  cbv beta in H. destruct (_int_to_bcd n) as [v | e]; [| discriminate].
  apply Z.eqb_eq in H. congruence.
Qed.

Lemma hex02_bcd (n : Z) : 0 <= n < 100 -> hex02 (bcd n) = two_digits n.
Proof.
  intros Hn.
  pose proof (range_check
    (fun z => String.eqb (hex02 (bcd z)) (two_digits z)) 100) as H.
  specialize (H ltac:(vm_compute; reflexivity) n ltac:(lia)).
  apply String.eqb_eq. exact H.
Qed.

Lemma year_bcd (n : Z) :
  10 <= n < 100 ->
  ljust4 ("20" ++ hex (bcd n)) = ("20" ++ two_digits n)%string.
Proof.
  intros Hn.
  pose proof (range_check
    (fun z => (z <? 10)
              || String.eqb (ljust4 ("20" ++ hex (bcd z)))
                            ("20" ++ two_digits z)) 100) as H.
  specialize (H ltac:(vm_compute; reflexivity) n ltac:(lia)).
  cbv beta in H.
  destruct (Z.ltb_spec n 10); [lia |]. apply String.eqb_eq. exact H.
Qed.

Lemma int16_hex02 (v : Z) : 0 <= v < 256 -> int16 (hex02 v) = Returns v.
Proof.
  intros Hv.
  pose proof (range_check
    (fun z => match int16 (hex02 z) with
              | Returns w => w =? z
              | Raises _ => false
              end) 256) as H.
  specialize (H ltac:(vm_compute; reflexivity) v ltac:(lia)).
  cbv beta in H. destruct (int16 (hex02 v)) as [w | e]; [| discriminate].
  apply Z.eqb_eq in H. congruence.
Qed.

Lemma wk_day_range (w : Z) :
  1 <= w <= 7 ->
  wk_day (w - 1) = Returns (nth (Z.to_nat (w - 1)) _wk_day EmptyString).
Proof.
  intros Hw.
  assert (Hc : w = 1 \/ w = 2 \/ w = 3 \/ w = 4 \/ w = 5 \/ w = 6 \/ w = 7)
    by lia.
  destruct Hc as [-> | [-> | [-> | [-> | [-> | [-> | ->]]]]]]; reflexivity.
Qed.

(** ** [_int_to_bcd] *)

(** X22.  For the numbers [set_time] and [set_alarm_in_min] can hand to it (0 to
    2999), [_int_to_bcd] returns the binary-coded decimal of the last two
    decimal digits: sixteen times the tens plus the units. *)
Theorem int_to_bcd_last_two_digits (n : Z) :
  0 <= n < 3000 ->
  _int_to_bcd n = Returns (16 * ((n mod 100) / 10) + (n mod 100) mod 10).
Proof.
  intros Hn. rewrite (int_to_bcd_range n Hn). reflexivity.
Qed.

Lemma int_to_bcd_last_two_digits_witness :
  _int_to_bcd 2024 = Returns (16 * ((2024 mod 100) / 10) + (2024 mod 100) mod 10).
Proof.
  apply (int_to_bcd_last_two_digits 2024). lia.
Defined.

(** ** What [read_time] shows of what [_int_to_bcd] encoded *)

(** X23.  A round trip: when the seven registers hold the [_int_to_bcd] codes of
    seconds, minutes, hours, day, month (each below 100) and of a year from
    2010 to 2099, and a weekday from 1 to 7, [read_time] returns each field
    as its decimal text, two digits for all but the year, which comes back
    with its four digits. *)
Theorem read_time_of_encoded_fields (s m h w d mo y : Z)
    (bs bm bh bd bmo byr : Z) :
  0 <= s < 100 -> 0 <= m < 100 -> 0 <= h < 100 ->
  0 <= d < 100 -> 0 <= mo < 100 -> 2010 <= y <= 2099 -> 1 <= w <= 7 ->
  _int_to_bcd s = Returns bs -> _int_to_bcd m = Returns bm ->
  _int_to_bcd h = Returns bh -> _int_to_bcd d = Returns bd ->
  _int_to_bcd mo = Returns bmo -> _int_to_bcd y = Returns byr ->
  read_time (clock_with [bs; bm; bh; w; bd; bmo; byr]) =
  Returns {| YYYY := str y; MM := two_digits mo; DD := two_digits d;
             hh := two_digits h; mm := two_digits m; ss := two_digits s;
             ww := nth (Z.to_nat (w - 1)) _wk_day EmptyString |}.
Proof.
  intros Hs Hm Hh Hd Hmo Hy Hw Es Em Eh Ed Emo Ey.
  rewrite int_to_bcd_range in Es, Em, Eh, Ed, Emo, Ey by lia.
  inversion Es; inversion Em; inversion Eh; inversion Ed; inversion Emo;
    inversion Ey; subst. clear Es Em Eh Ed Emo Ey.
  unfold read_time, clock_with, item. cbn [_bus read_i2c_block_data nth_error].
  rewrite wk_day_range by exact Hw.
  rewrite (Z.mod_small s), (Z.mod_small m), (Z.mod_small h),
    (Z.mod_small d), (Z.mod_small mo) by lia.
  rewrite !hex02_bcd by lia.
  replace (y mod 100) with (y - 2000) by
    (apply Z.mod_unique with (q := 20); lia).
  rewrite year_bcd by lia.
  assert (Hyear : ("20" ++ two_digits (y - 2000))%string = str y).
  { pose proof (range_check
      (fun z => String.eqb ("20" ++ two_digits z) (str (z + 2000))) 100) as H.
    specialize (H ltac:(vm_compute; reflexivity) (y - 2000) ltac:(lia)).
    apply String.eqb_eq in H. rewrite H. f_equal. lia. }
  rewrite Hyear. reflexivity.
Qed.

Lemma read_time_of_encoded_fields_witness :
  read_time (clock_with [89; 48; 35; 7; 38; 16; 36]) =
  Returns {| YYYY := str 2024; MM := two_digits 10; DD := two_digits 26;
             hh := two_digits 23; mm := two_digits 30; ss := two_digits 59;
             ww := nth (Z.to_nat (7 - 1)) _wk_day EmptyString |}.
Proof.
  apply (read_time_of_encoded_fields 59 30 23 7 26 10 2024
           89 48 35 38 16 36); try lia; reflexivity.
Defined.

(** ** [set_alarm_in_min] *)

(** X24.  Whatever the clock registers hold (bytes, with a weekday from 1 to 7)
    and whatever the [minutes] argument, negative ones included,
    [set_alarm_in_min] writes, in this order, 0 to register 7, the
    binary-coded decimal of a minute in 0..59 to register 8, of an hour in
    0..23 to register 9, 0x80 to register 10 and 5 to the control register.
    The minute and the hour are computed from the minutes and hours bytes
    as they are read, binary-coded decimal taken as a plain number: the
    minute is [(t[1] + minutes) mod 60], the hour
    [(t[2] + (t[1] + minutes) div 60) mod 24]. *)
Theorem set_alarm_in_min_writes (t0 t1 t2 t3 t4 t5 t6 minutes : Z) :
  0 <= t1 < 256 -> 0 <= t2 < 256 -> 1 <= t3 <= 7 ->
  let new_minute := (t1 + minutes) mod 60 in
  let new_hour := (t2 + (t1 + minutes) / 60) mod 24 in
  set_alarm_in_min (clock_with [t0; t1; t2; t3; t4; t5; t6]) minutes =
  ([RegWrite 7 0; RegWrite 8 (bcd new_minute); RegWrite 9 (bcd new_hour);
    RegWrite 10 128; RegWrite 14 5], Returns tt) /\
  0 <= new_minute < 60 /\ 0 <= new_hour < 24.
Proof.
  intros H1 H2 H3. cbv zeta.
  assert (Hm : 0 <= (t1 + minutes) mod 60 < 60)
    by (apply Z.mod_pos_bound; lia).
  assert (Hh : 0 <= (t2 + (t1 + minutes) / 60) mod 24 < 24)
    by (apply Z.mod_pos_bound; lia).
  split; [| split; assumption].
  unfold set_alarm_in_min, read_time, clock_with, item.
  cbn [_bus read_i2c_block_data nth_error].
  rewrite wk_day_range by exact H3.
  cbn [mm hh].
  rewrite !int16_hex02 by assumption.
  rewrite !int_to_bcd_range by lia.
  rewrite !Z.mod_small with (b := 100) by lia.
  reflexivity.
Qed.

Lemma set_alarm_in_min_writes_witness :
  set_alarm_in_min (clock_with [0; 69; 9; 1; 1; 1; 36]) 10 =
  ([RegWrite 7 0; RegWrite 8 (bcd ((69 + 10) mod 60));
    RegWrite 9 (bcd ((9 + (69 + 10) / 60) mod 24));
    RegWrite 10 128; RegWrite 14 5], Returns tt) /\
  0 <= (69 + 10) mod 60 < 60 /\ 0 <= (9 + (69 + 10) / 60) mod 24 < 24.
Proof.
  apply (set_alarm_in_min_writes 0 69 9 1 1 1 36 10); lia.
Defined.

(** ** [rtc_time] *)

Lemma read_time_year_prefix self d :
  read_time self = Returns d -> exists rest, YYYY d = ("20" ++ rest)%string.
Proof.
  unfold read_time.
  destruct (_bus self) as [bus |]; [| discriminate].
  destruct (read_i2c_block_data bus _address _start_reg 7) as [t | e];
    [| discriminate].
  destruct (item t 6) as [t6 | e6]; [| discriminate].
  destruct (item t 5) as [t5 | e5]; [| discriminate].
  destruct (item t 4) as [t4 | e4]; [| discriminate].
  destruct (item t 3) as [t3 | e3]; [| discriminate].
  destruct (item t 2) as [t2 | e2]; [| discriminate].
  destruct (item t 1) as [t1 | e1]; [| discriminate].
  destruct (item t 0) as [t0 | e0]; [| discriminate].
  destruct (wk_day (t3 - 1)) as [day | e]; [| discriminate].
  intros H. inversion H. subst d. simpl.
  unfold ljust4. simpl. eauto.
Qed.

(** X25.  [rtc_time] never raises, and the stamp it returns is the default
    "9999-99-99_99-99-99" exactly when [read_time] raised (no bus, a bus
    error, fewer than seven bytes, a weekday register that is no index of
    the day names); a stamp made from the registers always starts with
    "20". *)
Theorem rtc_time_default_iff_read_fails (_rtc_ext : DS3231) :
  rtc_time _rtc_ext = default_time_stamp <->
  exists e, read_time _rtc_ext = Raises e.
Proof.
  unfold rtc_time.
  destruct (read_time _rtc_ext) as [d | e] eqn:Hr.
  - destruct (read_time_year_prefix _ _ Hr) as [rest Hy]. rewrite Hy.
    split.
    + simpl. unfold default_time_stamp. intros H. discriminate H.
    + intros [e H]. discriminate H.
  - split; [eauto | reflexivity].
Qed.

End RtcProofs.

(* ====================================================================== *)
(** * Properties of the power-off at exit *)
(* ====================================================================== *)

Module PowerOffProofs.
Import LightRing PowerOff.

Ltac each_gpio_outcome gpio :=
  destruct (output gpio LED_RING LOW) as [[] | e1];
  destruct (output gpio OXYBASE_EN LOW) as [[] | e2];
  destruct (output gpio LED_GREEN LOW) as [[] | e3];
  destruct (output gpio LED_RED LOW) as [[] | e4];
  destruct (cleanup gpio) as [[] | e5].

(** X26.  [power_off] is never left by a [RuntimeError], whichever of its [GPIO]
    calls raises it, and whatever happens [ring_alive] is False afterwards
    (it is cleared before the first write), the other ring variables but
    the pin level keeping their values. *)
Theorem power_off_absorbs_RuntimeError (gpio : GPIO)
    (keep_hat_leds_on : bool) (s : RingState) :
  let '(r, t, s') := power_off gpio keep_hat_leds_on s in
  r <> Raises RuntimeError /\
  ring_alive s' = false /\
  (s' = set_ring_alive false s \/
   s' = snd (light_ring_close_thread s)).
Proof.
  unfold power_off, then_, log, close_thread, gpio_output, gpio_cleanup,
    level_of, light_ring_close_thread.
  destruct keep_hat_leds_on; cbn [negb];
    each_gpio_outcome gpio; cbn;
    repeat match goal with
           | |- context [is_RuntimeError ?e] =>
               destruct e as [| | | | | | [| n]]; cbn
           end;
    (split; [discriminate |]); (split; [reflexivity |]); auto.
Qed.

(** X27.  If the write that switches the ring pin low raises [RuntimeError] (the
    pin was never set up), [power_off] returns normally having done nothing
    else: the oxygen sensor supply is not switched off, no other pin is
    written, and [GPIO.cleanup] is not called. *)
Theorem ring_write_error_skips_shutdown (gpio : GPIO)
    (keep_hat_leds_on : bool) (s : RingState) :
  output gpio LED_RING LOW = Raises RuntimeError ->
  let '(r, t, s') := power_off gpio keep_hat_leds_on s in
  r = Returns tt /\
  pins_written t = [LED_RING] /\
  cleaned_up t = false /\
  s' = set_ring_alive false s.
Proof.
  intros H.
  unfold power_off, then_, log, close_thread. rewrite H. cbn.
  repeat split.
Qed.

Lemma ring_write_error_skips_shutdown_witness :
  let '(r, t, s') :=
    power_off (gpio_failing_on [LED_RING]) true initial_state in
  r = Returns tt /\
  pins_written t = [LED_RING] /\
  cleaned_up t = false /\
  s' = set_ring_alive false initial_state.
Proof.
  apply (ring_write_error_skips_shutdown (gpio_failing_on [LED_RING]) true
           initial_state).
  reflexivity.
Defined.

End PowerOffProofs.
